(** * SteamGrid overlay: the acquisition and compositing pipeline of [main.py]

    A shallow embedding of the queue operations, the console registry, the
    two lookup clients, the overlay compositor and the orchestrator of
    [SteamGridOverlayApp], with the properties the specification states
    about them.

    Conventions.
    - A Python [str] is a [string] holding its UTF-8 bytes.
    - A decoded JSON document (the value of [response.json()]) is a [json].
    - Everything outside the program (the network, the file system, the
      image codec) is an [Outside] record of oracles that may answer
      differently as the history of calls grows; every call is appended to
      the [trace] of the state.
    - Methods of the application are computations in the monad [M], which
      threads the application state and may raise a Python exception.
      The exceptions are those the operations of the program raise, all of
      them instances of [Exception]; an interrupt from outside is not part
      of the model. *)

From Stdlib Require Import List String Ascii ZArith NArith Bool Arith Lia.
From Stdlib Require Import DecimalString Floats.SpecFloat.
From Stdlib Require Import Sorting.Sorted Sorting.Permutation.
Import ListNotations.

Set Warnings "-register-all".

Local Open Scope list_scope.
Local Open Scope string_scope.

(* ================================================================== *)
(** ** Python strings *)

Module PyStr.

Definition code (c : ascii) : N := N_of_ascii c.

(** One-byte white space of [str.isspace]: U+0009..U+000D, U+001C..U+0020. *)
Definition space1 (c : ascii) : bool :=
  let n := code c in
  ((9 <=? n) && (n <=? 13) || (28 <=? n) && (n <=? 32))%N.

(** Two-byte white space: U+0085 (C2 85) and U+00A0 (C2 A0). *)
Definition space2 (c1 c2 : ascii) : bool :=
  ((code c1 =? 194) && ((code c2 =? 133) || (code c2 =? 160)))%N.

(** Three-byte white space: U+1680, U+2000..U+200A, U+2028, U+2029,
    U+202F, U+205F, U+3000. *)
Definition space3 (c1 c2 c3 : ascii) : bool :=
  let '(a, b, c) := (code c1, code c2, code c3) in
  ((a =? 225) && (b =? 154) && (c =? 128)
   || (a =? 226) && (b =? 128)
      && ((128 <=? c) && (c <=? 138) || (c =? 168) || (c =? 169) || (c =? 175))
   || (a =? 226) && (b =? 129) && (c =? 159)
   || (a =? 227) && (b =? 128) && (c =? 128))%N.

(** Dropping leading white space from a list of bytes.  With [back] set the
    list is read as the reversal of a string, so the bytes of a character
    arrive last byte first. *)
Fixpoint lstrip_bytes (back : bool) (s : list ascii) : list ascii :=
  match s with
  | c1 :: r1 =>
      if space1 c1 then lstrip_bytes back r1
      else match r1 with
           | c2 :: r2 =>
               if (if back then space2 c2 c1 else space2 c1 c2)
               then lstrip_bytes back r2
               else match r2 with
                    | c3 :: r3 =>
                        if (if back then space3 c3 c2 c1 else space3 c1 c2 c3)
                        then lstrip_bytes back r3
                        else s
                    | [] => s
                    end
           | [] => s
           end
  | [] => s
  end.

(** [str.strip()] with no argument. *)
Definition strip (s : string) : string :=
  string_of_list_ascii
    (rev (lstrip_bytes true (rev (lstrip_bytes false (list_ascii_of_string s))))).

(** [not s] for a string. *)
Definition is_empty (s : string) : bool :=
  match s with EmptyString => true | String _ _ => false end.

(** [str(n)] for a natural number and for an integer. *)
Definition of_nat (n : nat) : string := NilEmpty.string_of_uint (Nat.to_uint n).
Definition of_Z (z : Z) : string := NilZero.string_of_int (Z.to_int z).

(** [x in l] for a list of strings. *)
Definition mem (x : string) (l : list string) : bool :=
  existsb (String.eqb x) l.

(** The characters of a string, as indexing and iteration see them: a
    byte that is followed by a continuation byte (10xxxxxx) belongs to the
    character that the next byte continues. *)
Definition is_continuation (s : string) : bool :=
  match s with
  | String c _ => ((128 <=? code c) && (code c <=? 191))%N
  | EmptyString => false
  end.

Fixpoint chars (s : string) : list string :=
  match s with
  | EmptyString => []
  | String c r =>
      match is_continuation r, chars r with
      | true, h :: t => String c h :: t
      | _, rest => String c EmptyString :: rest
      end
  end.

Definition nl : string := String (ascii_of_nat 10) EmptyString.

End PyStr.

(* ================================================================== *)
(** ** Decoded JSON values and the Python operations applied to them *)

Inductive json : Type :=
| JNull
| JBool (b : bool)
| JInt (z : Z)
| JFloat (f : spec_float)
| JStr (s : string)
| JArr (items : list json)
| JObj (fields : list (string * json)).

(** Python exceptions: the class name and [str(e)]. *)
Record exn : Type := Exn { exn_class : string; exn_str : string }.

Inductive outcome (A : Type) : Type :=
| Returned (a : A)
| Raised (e : exn).
Arguments Returned {A} a.
Arguments Raised {A} e.

Module Py.

Definition KeyError (key : string) : exn := Exn "KeyError" key.
Definition TypeError (msg : string) : exn := Exn "TypeError" msg.
Definition AttributeError (msg : string) : exn := Exn "AttributeError" msg.
Definition HTTPError (status : Z) : exn :=
  Exn "HTTPError" (PyStr.of_Z status).
Definition JSONDecodeError : exn := Exn "JSONDecodeError" "".

Definition type_name (v : json) : string :=
  match v with
  | JNull => "NoneType"
  | JBool _ => "bool"
  | JInt _ => "int"
  | JFloat _ => "float"
  | JStr _ => "str"
  | JArr _ => "list"
  | JObj _ => "dict"
  end.

Definition not_subscriptable (v : json) : exn :=
  TypeError ("'" ++ type_name v ++ "' object is not subscriptable").

(** Truth value of an object, as [not v] and [if v] test it. *)
Definition truthy (v : json) : bool :=
  match v with
  | JNull => false
  | JBool b => b
  | JInt z => negb (z =? 0)%Z
  | JFloat (S754_zero _) => false
  | JFloat _ => true
  | JStr s => negb (PyStr.is_empty s)
  | JArr l => match l with [] => false | _ => true end
  | JObj l => match l with [] => false | _ => true end
  end.

(** The binding of a key in a dict, which holds each key once. *)
Fixpoint lookup (key : string) (fields : list (string * json)) : option json :=
  match fields with
  | [] => None
  | (k, v) :: rest => if String.eqb k key then Some v else lookup key rest
  end.

(** [v.get(key, default)]: only a dict has the method. *)
Definition get (v : json) (key : string) (default : json) : outcome json :=
  match v with
  | JObj fields =>
      Returned (match lookup key fields with Some x => x | None => default end)
  | _ => Raised (AttributeError ("'" ++ type_name v ++ "' object has no attribute 'get'"))
  end.

(** [v[key]] for a string key. *)
Definition getitem (v : json) (key : string) : outcome json :=
  match v with
  | JObj fields =>
      match lookup key fields with
      | Some x => Returned x
      | None => Raised (KeyError ("'" ++ key ++ "'"))
      end
  | JStr _ => Raised (TypeError "string indices must be integers, not 'str'")
  | JArr _ => Raised (TypeError "list indices must be integers or slices, not str")
  | _ => Raised (not_subscriptable v)
  end.

(** [v[0]].  The keys of a decoded JSON object are strings, so the integer
    0 is never one of them. *)
Definition getitem0 (v : json) : outcome json :=
  match v with
  | JArr (x :: _) => Returned x
  | JArr [] => Raised (Exn "IndexError" "list index out of range")
  | JStr s =>
      match PyStr.chars s with
      | ch :: _ => Returned (JStr ch)
      | [] => Raised (Exn "IndexError" "string index out of range")
      end
  | JObj _ => Raised (KeyError "0")
  | _ => Raised (not_subscriptable v)
  end.

(** The elements [for g in v] runs over. *)
Definition iterate (v : json) : outcome (list json) :=
  match v with
  | JArr l => Returned l
  | JObj fields => Returned (map (fun kv => JStr (fst kv)) fields)
  | JStr s => Returned (map JStr (PyStr.chars s))
  | _ => Raised (TypeError ("'" ++ type_name v ++ "' object is not iterable"))
  end.

(** [v == n] for an integer literal [n]: numbers compare by value, a
    boolean counts as 0 or 1, anything else is unequal. *)
Definition float_eq_int (f : spec_float) (n : Z) : bool :=
  match f with
  | S754_zero _ => (n =? 0)%Z
  | S754_finite s m e =>
      let v := if s then Z.neg m else Z.pos m in
      if (0 <=? e)%Z then (v * 2 ^ e =? n)%Z else (v =? n * 2 ^ (- e))%Z
  | _ => false
  end.

Definition eq_int (v : json) (n : Z) : bool :=
  match v with
  | JInt z => (z =? n)%Z
  | JBool b => ((if b then 1 else 0) =? n)%Z
  | JFloat f => float_eq_int f n
  | _ => false
  end.

End Py.

(* ================================================================== *)
(** ** [pathlib] paths on a POSIX system *)

Module Pathlib.

(** A path is its root ([""] when relative, ["/"], or ["//"] for exactly
    two leading slashes) and its parts. *)
Record Path : Type := MkPath { root : string; parts : list string }.

Definition is_slash (c : ascii) : bool := Ascii.eqb c "/"%char.

Fixpoint split_slash (s : string) : list string :=
  match s with
  | EmptyString => [EmptyString]
  | String c r =>
      if is_slash c then EmptyString :: split_slash r
      else match split_slash r with
           | h :: t => String c h :: t
           | [] => [String c EmptyString]
           end
  end.

Fixpoint leading_slashes (s : string) : nat :=
  match s with
  | String c r => if is_slash c then S (leading_slashes r) else 0
  | EmptyString => 0
  end.

(** Empty components and ["."] components are dropped when a string is
    parsed; [".."] is kept. *)
Definition kept (part : string) : bool :=
  negb (String.eqb part "" || String.eqb part ".").

(** [Path(s)] *)
Definition of_str (s : string) : Path :=
  {| root := match leading_slashes s with
             | 0 => ""
             | 2 => "//"
             | _ => "/"
             end;
     parts := filter kept (split_slash s) |}.

(** [p / s]: an absolute right operand replaces the left one. *)
Definition join (p : Path) (s : string) : Path :=
  let q := of_str s in
  if PyStr.is_empty (root q)
  then {| root := root p; parts := parts p ++ parts q |}
  else q.

(** [str(p)] *)
Definition to_str (p : Path) : string :=
  match root p, parts p with
  | EmptyString, [] => "."
  | r, ps => r ++ String.concat "/" ps
  end.

(** The entry of a directory listing: the name is taken as it is. *)
Definition child (p : Path) (entry : string) : Path :=
  {| root := root p; parts := parts p ++ [entry] |}.

(** [p.name] *)
Definition name (p : Path) : string := last (parts p) "".

End Pathlib.

Abbreviation Path := Pathlib.Path.
Infix "//" := Pathlib.join (at level 40, left associativity).

(* ================================================================== *)
(** ** Pillow images

    A bitmap is recorded as the Pillow operations that produced it; the
    pixels of a decoded raster stay abstract. *)

Module PIL.

Definition Size : Type := (Z * Z)%type.

Inductive Image : Type :=
| Raster (pixels : N) (mode : string) (size : Size)
| Convert (im : Image) (mode : string)
| New (mode : string) (size : Size) (color : Z)
| RoundedRectangle (im : Image) (xy : Size * Size) (radius : Z) (fill : Z)
| PutAlpha (im : Image) (alpha : Image)
| Resize (im : Image) (size : Size) (resample : string)
| AlphaComposite (im1 im2 : Image).

Definition LANCZOS : string := "LANCZOS".

Definition has_alpha (m : string) : bool :=
  PyStr.mem m ["LA"; "PA"; "RGBA"].

(** [getmodebase(m) + "A"]: the mode [putalpha] tries to bring an image
    without alpha band to.  The base of the single-band modes is [L], the
    palette mode is its own base, the base of the colour modes is [RGB]. *)
Definition alpha_target (m : string) : string :=
  if PyStr.mem m ["1"; "L"; "I"; "F"; "La"] then "LA"
  else if String.eqb m "P" then "PA"
  else "RGBA".

(** The mode [putalpha] promotes an image to, if it can: a mode with an
    alpha band stays; of the others, the modes that Pillow converts to
    their alpha target.  It has no conversion to [LA] from the bilevel,
    integer and float modes, and none to [RGBA] from [YCbCr] and [LAB]. *)
Definition promoted (m : string) : option string :=
  if has_alpha m then Some m
  else if PyStr.mem m ["L"; "La"; "P"; "RGB"; "RGBX"; "RGBa"; "CMYK"; "HSV"]
  then Some (alpha_target m)
  else None.

(** The mode of an image after [putalpha]. *)
Definition with_alpha (m : string) : string :=
  match promoted m with
  | Some a => a
  | None => m
  end.

Fixpoint mode (im : Image) : string :=
  match im with
  | Raster _ m _ => m
  | Convert _ m => m
  | New m _ _ => m
  | RoundedRectangle im _ _ _ => mode im
  | PutAlpha im _ => with_alpha (mode im)
  | Resize im _ _ => mode im
  | AlphaComposite _ _ => "RGBA"
  end.

Fixpoint size (im : Image) : Size :=
  match im with
  | Raster _ _ s => s
  | Convert im _ => size im
  | New _ s _ => s
  | RoundedRectangle im _ _ _ => size im
  | PutAlpha im _ => size im
  | Resize _ s _ => s
  | AlphaComposite im1 _ => size im1
  end.

Definition size_eqb (a b : Size) : bool :=
  (fst a =? fst b)%Z && (snd a =? snd b)%Z.

(** [im.putalpha(alpha)], with a mask of the image's size: [ValueError]
    when the image cannot be promoted to a mode with an alpha band. *)
Definition putalpha (im alpha : Image) : outcome Image :=
  match promoted (mode im) with
  | Some _ => Returned (PutAlpha im alpha)
  | None =>
      Raised (Exn "ValueError"
                  ("conversion from " ++ mode im ++ " to "
                     ++ alpha_target (mode im) ++ " not supported"))
  end.

(** [Image.alpha_composite(im1, im2)]: both operands must be RGBA and of
    one size. *)
Definition alpha_composite (im1 im2 : Image) : outcome Image :=
  if negb (String.eqb (mode im1) "RGBA" && String.eqb (mode im2) "RGBA")
  then Raised (Exn "ValueError" "image has wrong mode")
  else if negb (size_eqb (size im1) (size im2))
  then Raised (Exn "ValueError" "images do not match")
  else Returned (AlphaComposite im1 im2).

End PIL.

Abbreviation Image := PIL.Image.

(* ================================================================== *)
(** ** The world outside the program *)

(** A response of [requests.get]: the status, the raw body, and what
    [response.json()] makes of the body ([None] when it does not decode). *)
Record Response : Type := MkResponse {
  status_code : Z;
  content : string;
  decoded : option json
}.

Inductive call : Type :=
| requests_get (url : string) (headers params : list (string * string)) (timeout : Z)
| Path_exists (p : Path)
| Path_is_dir (p : Path)
| Path_iterdir (p : Path)
| Path_mkdir (p : Path) (parents exist_ok : bool)
| Image_open (p : Path)
| Image_save (im : Image) (p : Path) (format : string).

(** A call that was made, and whether it raised. *)
Record event : Type := MkEvent { ev_call : call; ev_raised : bool }.

(** The oracles.  Each sees the calls made so far.  Decoding the bytes of
    a download does not depend on the history.  [repr] renders the values
    that are not strings, integers, booleans or [None]. *)
Record Outside : Type := MkOutside {
  net_get : list event -> string -> list (string * string) ->
            list (string * string) -> Z -> outcome Response;
  fs_exists : list event -> Path -> outcome bool;
  fs_is_dir : list event -> Path -> outcome bool;
  fs_iterdir : list event -> Path -> outcome (list string);
  fs_mkdir : list event -> Path -> bool -> bool -> outcome unit;
  img_open : list event -> Path -> outcome Image;
  img_decode : string -> outcome Image;
  img_save : list event -> Image -> Path -> string -> outcome unit;
  repr : json -> string;
  DEFAULT_OUTPUT : Path;
  DEFAULT_OVERLAYS : Path
}.

Definition is_raised {A} (r : outcome A) : bool :=
  match r with Raised _ => true | Returned _ => false end.

(** [str(v)], as an f-string formats a value. *)
Definition format (W : Outside) (v : json) : string :=
  match v with
  | JStr s => s
  | JInt z => PyStr.of_Z z
  | JNull => "None"
  | JBool true => "True"
  | JBool false => "False"
  | _ => repr W v
  end.

(* ================================================================== *)
(** ** The application state *)

(** A card of the on-screen queue: the widget (its identity) and the name
    its remove button has captured. *)
Record Card : Type := MkCard { card_id : nat; card_name : string }.

Record App : Type := MkApp {
  game_queue : list string;
  game_name_input : string;
  api_key_input : string;
  console_spinner : string;
  overlays_path_input : option string;     (* [None]: attribute not set yet *)
  queue_layout : list Card;                (* cards, in the order added *)
  widgets_made : nat;
  log_label : string;
  popups : list (string * string);         (* title and message, oldest first *)
  stdout : list string;
  trace : list event
}.

Definition set_game_queue (q : list string) (s : App) : App :=
  MkApp q (game_name_input s) (api_key_input s) (console_spinner s)
        (overlays_path_input s) (queue_layout s) (widgets_made s) (log_label s)
        (popups s) (stdout s) (trace s).
Definition set_game_name_input (t : string) (s : App) : App :=
  MkApp (game_queue s) t (api_key_input s) (console_spinner s)
        (overlays_path_input s) (queue_layout s) (widgets_made s) (log_label s)
        (popups s) (stdout s) (trace s).
Definition set_queue_layout (l : list Card) (n : nat) (s : App) : App :=
  MkApp (game_queue s) (game_name_input s) (api_key_input s) (console_spinner s)
        (overlays_path_input s) l n (log_label s)
        (popups s) (stdout s) (trace s).
Definition set_log_label (t : string) (s : App) : App :=
  MkApp (game_queue s) (game_name_input s) (api_key_input s) (console_spinner s)
        (overlays_path_input s) (queue_layout s) (widgets_made s) t
        (popups s) (stdout s) (trace s).
Definition set_popups (p : list (string * string)) (s : App) : App :=
  MkApp (game_queue s) (game_name_input s) (api_key_input s) (console_spinner s)
        (overlays_path_input s) (queue_layout s) (widgets_made s) (log_label s)
        p (stdout s) (trace s).
Definition set_stdout (o : list string) (s : App) : App :=
  MkApp (game_queue s) (game_name_input s) (api_key_input s) (console_spinner s)
        (overlays_path_input s) (queue_layout s) (widgets_made s) (log_label s)
        (popups s) o (trace s).
Definition set_trace (t : list event) (s : App) : App :=
  MkApp (game_queue s) (game_name_input s) (api_key_input s) (console_spinner s)
        (overlays_path_input s) (queue_layout s) (widgets_made s) (log_label s)
        (popups s) (stdout s) t.

(* ================================================================== *)
(** ** The monad of methods: state and exceptions *)

Definition M (A : Type) : Type := App -> outcome A * App.

Definition ret {A} (a : A) : M A := fun s => (Returned a, s).

Definition bind {A B} (m : M A) (k : A -> M B) : M B :=
  fun s => match m s with
           | (Returned a, s') => k a s'
           | (Raised e, s') => (Raised e, s')
           end.

Definition raise {A} (e : exn) : M A := fun s => (Raised e, s).

(** A pure computation that may raise. *)
Definition lift {A} (r : outcome A) : M A := fun s => (r, s).

Definition gets {A} (f : App -> A) : M A := fun s => (Returned (f s), s).
Definition modify (f : App -> App) : M unit := fun s => (Returned tt, f s).

(** [try: body except Exception as e: handler(e)] *)
Definition try_except {A} (body : M A) (handler : exn -> M A) : M A :=
  fun s => match body s with
           | (Returned a, s') => (Returned a, s')
           | (Raised e, s') => handler e s'
           end.

Declare Scope py_scope.
Delimit Scope py_scope with py.
Notation "x <- m ;; k" := (bind m (fun x => k))
  (at level 61, m at next level, right associativity) : py_scope.
Notation "m ;; k" := (bind m (fun _ => k))
  (at level 61, right associativity) : py_scope.
Local Open Scope py_scope.

(** [for x in l: body(x)] *)
Fixpoint for_each {A} (l : list A) (body : A -> M unit) : M unit :=
  match l with
  | [] => ret tt
  | x :: rest => body x ;; for_each rest body
  end.

(** A call to the outside: the oracle answers on the history, and the call
    joins the history. *)
Definition external {A} (c : call) (oracle : list event -> outcome A) : M A :=
  fun s =>
    let r := oracle (trace s) in
    (r, set_trace (trace s ++ [MkEvent c (is_raised r)]) s).

(* ================================================================== *)
(** ** Sorting strings: [sorted] on a list of [str] *)

(** Any sort that orders by code point returns the same list, since equal
    strings cannot be told apart; insertion keeps it simple. *)
Fixpoint insert_sorted (x : string) (l : list string) : list string :=
  match l with
  | [] => [x]
  | y :: rest => if String.leb x y then x :: l else y :: insert_sorted x rest
  end.

Definition sorted (l : list string) : list string :=
  fold_right insert_sorted [] l.

(* ================================================================== *)
(** ** Glyphs of the log lines, as the source file has them *)

Module Glyph.
Definition gamepad : string := "üéÆ".
Definition done : string := "‚úÖ".
Definition cross : string := "‚ùå".
Definition tick : string := "‚úì".
Definition arrow : string := "‚¨áÔ∏è".
End Glyph.

(* ================================================================== *)
(** ** Methods of [SteamGridOverlayApp] *)

(** [l.remove(x)]: the first item equal to [x] goes; [ValueError] when
    there is none. *)
Fixpoint list_remove (x : string) (l : list string) : outcome (list string) :=
  match l with
  | [] => Raised (Exn "ValueError" "list.remove(x): x not in list")
  | y :: rest =>
      if String.eqb y x then Returned rest
      else match list_remove x rest with
           | Returned rest' => Returned (y :: rest')
           | Raised e => Raised e
           end
  end.

(** [layout.remove_widget(w)]: nothing happens when [w] is not a child. *)
Definition remove_widget (w : Card) (l : list Card) : list Card :=
  filter (fun c => negb (Nat.eqb (card_id c) (card_id w))) l.

(** [enumerate(l, start)] *)
Fixpoint enumerate {A} (l : list A) (start : nat) : list (nat * A) :=
  match l with
  | [] => []
  | x :: rest => (start, x) :: enumerate rest (S start)
  end.

(** [response.raise_for_status()] *)
Definition raise_for_status (r : Response) : M unit :=
  if ((400 <=? status_code r) && (status_code r <? 600))%Z
  then raise (Py.HTTPError (status_code r))
  else ret tt.

(** [response.json()] *)
Definition response_json (r : Response) : M json :=
  match decoded r with
  | Some v => ret v
  | None => raise Py.JSONDecodeError
  end.

(** [[g for g in grids if g.get('width') == 1024 and g.get('height') == 1024]] *)
Fixpoint keep_1024 (grids : list json) : outcome (list json) :=
  match grids with
  | [] => Returned []
  | g :: rest =>
      match Py.get g "width" JNull with
      | Raised e => Raised e
      | Returned w =>
          match (if Py.eq_int w 1024
                 then match Py.get g "height" JNull with
                      | Returned h => Returned (Py.eq_int h 1024)
                      | Raised e => Raised e
                      end
                 else Returned false) with
          | Raised e => Raised e
          | Returned keep =>
              match keep_1024 rest with
              | Raised e => Raised e
              | Returned tl => Returned (if keep then g :: tl else tl)
              end
          end
      end
  end.

Definition SENTINEL : string := "No consoles found".

Section Methods.

Variable W : Outside.

Definition log (message : string) : M unit :=
  modify (fun s => set_log_label (log_label s ++ PyStr.nl ++ message) s).

Definition show_popup (title message : string) : M unit :=
  modify (fun s => set_popups (popups s ++ [(title, message)]) s).

Definition print (line : string) : M unit :=
  modify (fun s => set_stdout (stdout s ++ [line]) s).

Definition exists_ (p : Path) : M bool :=
  external (Path_exists p) (fun h => fs_exists W h p).
Definition is_dir (p : Path) : M bool :=
  external (Path_is_dir p) (fun h => fs_is_dir W h p).
Definition iterdir (p : Path) : M (list string) :=
  external (Path_iterdir p) (fun h => fs_iterdir W h p).
Definition mkdir (p : Path) (parents exist_ok : bool) : M unit :=
  external (Path_mkdir p parents exist_ok)
           (fun h => fs_mkdir W h p parents exist_ok).
Definition get (url : string) (headers params : list (string * string))
           (timeout : Z) : M Response :=
  external (requests_get url headers params timeout)
           (fun h => net_get W h url headers params timeout).
Definition open (p : Path) : M Image :=
  external (Image_open p) (fun h => img_open W h p).
Definition save (im : Image) (p : Path) (fmt : string) : M unit :=
  external (Image_save im p fmt) (fun h => img_save W h im p fmt).

(** *** Console registry *)

(** The comprehension of [get_available_consoles], over the entries the
    listing yields. *)
Fixpoint console_names (overlays_folder : Path) (entries : list string)
  : M (list string) :=
  match entries with
  | [] => ret []
  | entry :: rest =>
      let folder := Pathlib.child overlays_folder entry in
      d <- is_dir folder ;;
      ok <- (if d then exists_ (folder // "overlay.png") else ret false) ;;
      names <- console_names overlays_folder rest ;;
      ret (if ok then Pathlib.name folder :: names else names)
  end.

Definition registry_folder (s : App) : Path :=
  match overlays_path_input s with
  | Some text => if PyStr.is_empty text then DEFAULT_OVERLAYS W
                 else Pathlib.of_str text
  | None => DEFAULT_OVERLAYS W
  end.

Definition get_available_consoles : M (list string) :=
  found <- try_except
    (overlays_folder <- gets registry_folder ;;
     there <- exists_ overlays_folder ;;
     if there then
       entries <- iterdir overlays_folder ;;
       consoles <- console_names overlays_folder entries ;;
       match consoles with
       | [] => ret None
       | _ => ret (Some (sorted consoles))
       end
     else ret None)
    (fun e => print ("Error loading consoles: " ++ exn_str e) ;; ret None) ;;
  match found with
  | Some consoles => ret consoles
  | None => ret [SENTINEL]
  end.

(** *** Queue *)

Definition add_game : M unit :=
  text <- gets game_name_input ;;
  let game_name := PyStr.strip text in
  if negb (PyStr.is_empty game_name) then
    modify (fun s => set_game_queue (game_queue s ++ [game_name]) s) ;;
    modify (fun s => set_queue_layout
                       (queue_layout s ++ [MkCard (widgets_made s) game_name])
                       (S (widgets_made s)) s) ;;
    modify (set_game_name_input "") ;;
    log ("Added: " ++ game_name)
  else ret tt.

Definition remove_game (widget : Card) (game_name : string) : M unit :=
  q <- gets game_queue ;;
  (if PyStr.mem game_name q then
     q' <- lift (list_remove game_name q) ;;
     modify (set_game_queue q')
   else ret tt) ;;
  modify (fun s => set_queue_layout (remove_widget widget (queue_layout s))
                                    (widgets_made s) s) ;;
  log ("Removed: " ++ game_name).

Definition clear_queue : M unit :=
  modify (set_game_queue []) ;;
  modify (fun s => set_queue_layout [] (widgets_made s) s) ;;
  log "Queue cleared".

(** *** Lookup clients *)

Definition API : string := "https://www.steamgriddb.com/api/v2".

Definition bearer (s : App) : list (string * string) :=
  [("Authorization", "Bearer " ++ PyStr.strip (api_key_input s))].

Definition search_game (game_name : string) : M json :=
  let url := API ++ "/search/autocomplete/" ++ game_name in
  headers <- gets bearer ;;
  try_except
    (response <- get url headers [] 10 ;;
     raise_for_status response ;;
     body <- response_json response ;;
     lift (Py.get body "data" (JArr [])))
    (fun _ => ret (JArr [])).

Definition get_game_icons (game_id : json) : M (list json) :=
  let url := API ++ "/grids/game/" ++ format W game_id in
  headers <- gets bearer ;;
  let params := [("dimensions", "1024x1024"); ("types", "static")] in
  try_except
    (response <- get url headers params 10 ;;
     raise_for_status response ;;
     body <- response_json response ;;
     data <- lift (Py.get body "data" (JArr [])) ;;
     grids <- lift (Py.iterate data) ;;
     lift (keep_1024 grids))
    (fun _ => ret []).

(** *** Image fetcher *)

(** [requests.get] takes the text of whatever it is given as the URL:
    the call is made with [str(url)]. *)
Definition download_image (url : json) : M (option Image) :=
  try_except
    (response <- get (format W url) [] [] 15 ;;
     raise_for_status response ;;
     im <- lift (img_decode W (content response)) ;;
     ret (Some (PIL.Convert im "RGBA")))
    (fun _ => ret None).

(** *** Overlay compositor *)

Definition compositor_folder (s : App) : Path :=
  match overlays_path_input s with
  | Some text => Pathlib.of_str text
  | None => DEFAULT_OVERLAYS W
  end.

Definition overlay_path_of (s : App) : Path :=
  compositor_folder s // console_spinner s // "overlay.png".

Definition radius : Z := 120.

(** The mask: a new single-channel bitmap of the base's size, all 0, with
    the rounded rectangle drawn on it. *)
Definition rounded_mask (base_image : Image) : Image :=
  PIL.RoundedRectangle (PIL.New "L" (PIL.size base_image) 0)
                       ((0, 0)%Z, PIL.size base_image) radius 255.

Definition fit_overlay (overlay base_image : Image) : Image :=
  if negb (PIL.size_eqb (PIL.size overlay) (PIL.size base_image))
  then PIL.Resize overlay (PIL.size base_image) PIL.LANCZOS
  else overlay.

Definition apply_overlay (base_image : Image) : M (option Image) :=
  try_except
    (overlay_path <- gets overlay_path_of ;;
     there <- exists_ overlay_path ;;
     if negb there then
       log ("Overlay not found: " ++ Pathlib.to_str overlay_path) ;;
       ret None
     else
       opened <- open overlay_path ;;
       let overlay := fit_overlay (PIL.Convert opened "RGBA") base_image in
       masked <- lift (PIL.putalpha base_image (rounded_mask base_image)) ;;
       result <- lift (PIL.alpha_composite masked overlay) ;;
       ret (Some result))
    (fun e => log ("Overlay error: " ++ exn_str e) ;; ret None).

(** *** Orchestrator *)

Definition output_dir_of (console : string) : Path :=
  DEFAULT_OUTPUT W // console.

Definition output_path_of (console : string) (resolved_name : json) : Path :=
  output_dir_of console // (format W resolved_name ++ ".png").

(** The body of the [try] of [process_single_game]. *)
Definition process_single_game_body (game_name : string) : M unit :=
  results <- search_game game_name ;;
  if negb (Py.truthy results) then log ("  " ++ Glyph.cross ++ " Not found")
  else
    game <- lift (Py.getitem0 results) ;;
    found <- lift (Py.getitem game "name") ;;
    log ("  " ++ Glyph.tick ++ " Found: " ++ format W found) ;;
    game_id <- lift (Py.getitem game "id") ;;
    icons <- get_game_icons game_id ;;
    match icons with
    | [] => log ("  " ++ Glyph.cross ++ " No icons available")
    | icon :: _ =>
        log ("  " ++ Glyph.arrow ++ " Downloading...") ;;
        url <- lift (Py.getitem icon "url") ;;
        img <- download_image url ;;
        match img with
        | None => log ("  " ++ Glyph.cross ++ " Download failed")
        | Some img =>
            result <- apply_overlay img ;;
            match result with
            | None => log ("  " ++ Glyph.cross ++ " Overlay failed")
            | Some result =>
                console <- gets console_spinner ;;
                mkdir (output_dir_of console) true true ;;
                resolved <- lift (Py.getitem game "name") ;;
                save result (output_path_of console resolved) "PNG" ;;
                log ("  " ++ Glyph.done ++ " Saved!")
            end
        end
    end.

Definition error_line (e : exn) : string :=
  "  " ++ Glyph.cross ++ " Error: " ++ exn_str e.

Definition process_single_game (game_name : string) : M unit :=
  try_except (process_single_game_body game_name)
             (fun e => log (error_line e)).

Definition item_line (i n : nat) (game_name : string) : string :=
  PyStr.nl ++ "[" ++ PyStr.of_nat i ++ "/" ++ PyStr.of_nat n ++ "] " ++ game_name.

Definition process_item (item : nat * string) : M unit :=
  n <- gets (fun s => List.length (game_queue s)) ;;
  log (item_line (fst item) n (snd item)) ;;
  process_single_game (snd item).

Definition NO_SELECTION : list string := ["Select Console"; SENTINEL].

Definition process_games : M unit :=
  queue <- gets game_queue ;;
  match queue with
  | [] => show_popup "Empty Queue" "Please add games first!"
  | _ =>
      key <- gets api_key_input ;;
      if PyStr.is_empty (PyStr.strip key)
      then show_popup "No API Key" "Please enter API key!"
      else
        console <- gets console_spinner ;;
        if PyStr.mem console NO_SELECTION
        then show_popup "No Console" "Please select a console!"
        else
          log (PyStr.nl ++ Glyph.gamepad ++ " Processing "
                 ++ PyStr.of_nat (List.length queue) ++ " games...") ;;
          for_each (enumerate queue 1) process_item ;;
          log (PyStr.nl ++ Glyph.done ++ " Processing complete!") ;;
          n <- gets (fun s => List.length (game_queue s)) ;;
          show_popup "Complete" ("Processed " ++ PyStr.of_nat n ++ " games!")
  end.

End Methods.

(* ================================================================== *)
(** ** A concrete world, for running the methods

    One overlays folder with four entries ([NES] and [SNES] hold an
    [overlay.png], [junk] and the file [readme.txt] do not), one game the
    service knows with three icons, one of them of the required size, and
    searches that go wrong in different ways. *)

Module Scenario.

Definition overlays : Path := Pathlib.of_str "/sdcard/SteamGridOverlay/icon_overlays".
Definition output : Path := Pathlib.of_str "/sdcard/SteamGridOverlay/Output".

Definition path_eqb (p q : Path) : bool :=
  String.eqb (Pathlib.to_str p) (Pathlib.to_str q).

Definition halo : json := JObj [("id", JInt 1); ("name", JStr "Halo")].

Definition grid (url : string) (w h : Z) : json :=
  JObj [("url", JStr url); ("width", JInt w); ("height", JInt h)].

Definition ok (body : json) : outcome Response :=
  Returned (MkResponse 200 "" (Some body)).

Definition net (h : list event) (url : string)
           (headers params : list (string * string)) (timeout : Z)
  : outcome Response :=
  if String.eqb url "https://www.steamgriddb.com/api/v2/search/autocomplete/Halo"
  then ok (JObj [("success", JBool true); ("data", JArr [halo])])
  else if String.eqb url "https://www.steamgriddb.com/api/v2/search/autocomplete/Obscuretitle"
  then ok (JObj [("success", JBool true); ("data", JArr [])])
  else if String.eqb url "https://www.steamgriddb.com/api/v2/search/autocomplete/Odd"
  then ok (JObj [("data", JArr [JObj [("id", JInt 7)]])])
  else if String.eqb url "https://www.steamgriddb.com/api/v2/search/autocomplete/Slash"
  then ok (JObj [("data", JArr [JObj [("id", JInt 1); ("name", JStr "/tmp/x")]])])
  else if String.eqb url "https://www.steamgriddb.com/api/v2/search/autocomplete/Broken"
  then ok (JObj [("data", JStr "maintenance")])
  else if String.eqb url "https://www.steamgriddb.com/api/v2/grids/game/1"
  then ok (JObj [("data", JArr [grid "https://cdn.example/a.png" 512 512;
                                grid "https://cdn.example/b.png" 1024 1024;
                                grid "https://cdn.example/c.png" 1024 768])])
  else if String.eqb url "https://cdn.example/b.png"
  then Returned (MkResponse 200 "raw-png-bytes" None)
  else Raised (Exn "ConnectionError" "no route to host").

Definition dirs : list string :=
  ["/sdcard/SteamGridOverlay/icon_overlays";
   "/sdcard/SteamGridOverlay/icon_overlays/SNES";
   "/sdcard/SteamGridOverlay/icon_overlays/NES";
   "/sdcard/SteamGridOverlay/icon_overlays/junk"].

Definition files : list string :=
  ["/sdcard/SteamGridOverlay/icon_overlays/SNES/overlay.png";
   "/sdcard/SteamGridOverlay/icon_overlays/NES/overlay.png";
   "/sdcard/SteamGridOverlay/icon_overlays/readme.txt"].

Definition world : Outside :=
  {| net_get := net;
     fs_exists := fun _ p => Returned (PyStr.mem (Pathlib.to_str p) (dirs ++ files)%list);
     fs_is_dir := fun _ p => Returned (PyStr.mem (Pathlib.to_str p) dirs);
     fs_iterdir := fun _ p =>
       if path_eqb p overlays then Returned ["SNES"; "junk"; "readme.txt"; "NES"]
       else Raised (Exn "NotADirectoryError" (Pathlib.to_str p));
     fs_mkdir := fun _ _ _ _ => Returned tt;
     img_open := fun _ p =>
       if PyStr.mem (Pathlib.to_str p) files
       then Returned (PIL.Raster 2 "RGBA" (512, 512)%Z)
       else Raised (Exn "FileNotFoundError" (Pathlib.to_str p));
     img_decode := fun bytes =>
       if String.eqb bytes "raw-png-bytes"
       then Returned (PIL.Raster 1 "RGB" (1024, 1024)%Z)
       else Raised (Exn "UnidentifiedImageError" "cannot identify image file");
     img_save := fun _ _ _ _ => Returned tt;
     repr := fun _ => "?";
     DEFAULT_OUTPUT := output;
     DEFAULT_OVERLAYS := overlays |}.

(** The application once [build] has run, with a credential entered and
    NES selected. *)
Definition app (queue : list string) : App :=
  {| game_queue := queue;
     game_name_input := "";
     api_key_input := " abc ";
     console_spinner := "NES";
     overlays_path_input := Some "/sdcard/SteamGridOverlay/icon_overlays";
     queue_layout := map (fun x => MkCard (fst x) (snd x)) (enumerate queue 0);
     widgets_made := List.length queue;
     log_label := "Ready!";
     popups := [];
     stdout := [];
     trace := [] |}.

End Scenario.

(* ================================================================== *)
(** ** Operations on the queue, and the add operations still present *)

(** What a user does to the queue: [Add text] types [text] into the name
    field and presses the add button, [Remove widget name] is the remove
    button of a card, [Clear] the clear button. *)
Inductive op : Type :=
| Add (text : string)
| Remove (widget : Card) (game_name : string)
| Clear.

Definition perform (o : op) : M unit :=
  match o with
  | Add text => modify (set_game_name_input text) ;; add_game
  | Remove widget game_name => remove_game widget game_name
  | Clear => clear_queue
  end.

Definition run (ops : list op) (s : App) : App :=
  fold_left (fun s o => snd (perform o s)) ops s.

(** The add operations still present, each with its position in the
    sequence of operations and the name it queued.  An add that queues
    nothing (a blank name) is never present; a remove takes away the
    earliest present add of its name; a clear takes away all. *)
Fixpoint drop_earliest (game_name : string) (present : list (nat * string))
  : list (nat * string) :=
  match present with
  | [] => []
  | e :: rest =>
      if String.eqb (snd e) game_name then rest
      else e :: drop_earliest game_name rest
  end.

Fixpoint still_present_from (ops : list op) (i : nat)
         (present : list (nat * string)) : list (nat * string) :=
  match ops with
  | [] => present
  | Add text :: rest =>
      still_present_from rest (S i)
        (if PyStr.is_empty (PyStr.strip text) then present
         else (present ++ [(i, PyStr.strip text)])%list)
  | Remove _ game_name :: rest =>
      still_present_from rest (S i) (drop_earliest game_name present)
  | Clear :: rest => still_present_from rest (S i) []
  end.

Definition still_present (ops : list op) : list (nat * string) :=
  still_present_from ops 0 [].

(* ================================================================== *)
(** ** Notions the properties are stated with *)

(** Percent-encoding of a URL path segment (RFC 3986): the unreserved
    bytes stand for themselves, every other byte becomes [%XX]. *)
Module Url.

Definition unreserved (c : ascii) : bool :=
  let n := PyStr.code c in
  ((65 <=? n) && (n <=? 90) || (97 <=? n) && (n <=? 122)
   || (48 <=? n) && (n <=? 57)
   || (n =? 45) || (n =? 46) || (n =? 95) || (n =? 126))%N.

Definition hex_digit (n : N) : ascii :=
  if (n <? 10)%N then ascii_of_N (48 + n) else ascii_of_N (55 + n).

Fixpoint quote_segment (s : string) : string :=
  match s with
  | EmptyString => EmptyString
  | String c r =>
      if unreserved c then String c (quote_segment r)
      else String "%" (String (hex_digit (PyStr.code c / 16))
                         (String (hex_digit (PyStr.code c mod 16))
                            (quote_segment r)))
  end.

Fixpoint all_unreserved (s : string) : bool :=
  match s with
  | EmptyString => true
  | String c r => unreserved c && all_unreserved r
  end.

(** The last path segment of a URL that has no query and no fragment. *)
Definition final_segment (url : string) : string :=
  last (Pathlib.split_slash url) "".

End Url.

(** The URL and the request of the metadata search, as the specification
    words them. *)
Definition search_url_encoded (game_name : string) : string :=
  API ++ "/search/autocomplete/" ++ Url.quote_segment game_name.

(** A string that parses to itself as a relative path: no leading slash,
    no empty and no ["."] component. *)
Definition relative_normal (s : string) : bool :=
  forallb Pathlib.kept (Pathlib.split_slash s).

(** The file-system writes of a history, in order. *)
Definition is_write (e : event) : bool :=
  match ev_call e with
  | Path_mkdir _ _ _ | Image_save _ _ _ => true
  | _ => false
  end.

Definition writes (t : list event) : list event := filter is_write t.

(** The files a history leaves behind: a save that did not raise puts the
    image at its path, replacing what an earlier save put there. *)
Definition path_eq_dec (p q : Path) : {p = q} + {p <> q}.
Proof.
  decide equality; [apply (list_eq_dec string_dec) | apply string_dec].
Defined.

Definition path_eqb (p q : Path) : bool :=
  if path_eq_dec p q then true else false.

Fixpoint store (p : Path) (im : Image) (files : list (Path * Image))
  : list (Path * Image) :=
  match files with
  | [] => [(p, im)]
  | (q, old) :: rest =>
      if path_eqb q p then (p, im) :: rest else (q, old) :: store p im rest
  end.

Definition files_after (t : list event) : list (Path * Image) :=
  fold_left (fun files e =>
               match ev_call e, ev_raised e with
               | Image_save im p _, false => store p im files
               | _, _ => files
               end) t [].

(** A candidate of the icon listing has the dimensions [w] x [h]. *)
Definition has_dimensions (w h : Z) (g : json) : bool :=
  match g with
  | JObj fields =>
      match Py.lookup "width" fields, Py.lookup "height" fields with
      | Some gw, Some gh => Py.eq_int gw w && Py.eq_int gh h
      | _, _ => false
      end
  | _ => false
  end.

Definition is_object (g : json) : bool :=
  match g with JObj _ => true | _ => false end.

(** The payload both lookup endpoints document: an object whose [data]
    is a sequence. *)
Definition payload_shape (body : json) : Prop :=
  exists fields items,
    body = JObj fields /\ Py.lookup "data" fields = Some (JArr items).

(** What makes a lookup fail before it has a payload to read: the
    transport raised, the status is an HTTP error, the body is not JSON,
    or the JSON is not an object. *)
Definition lookup_failed (r : outcome Response) : Prop :=
  match r with
  | Raised _ => True
  | Returned resp =>
      (400 <= status_code resp < 600)%Z
      \/ match decoded resp with
         | None => True
         | Some (JObj _) => False
         | Some _ => True
         end
  end.

(** The three rejections of a run, and the completion message. *)
Definition EMPTY_QUEUE : string * string := ("Empty Queue", "Please add games first!").
Definition NO_API_KEY : string * string := ("No API Key", "Please enter API key!").
Definition NO_CONSOLE : string * string := ("No Console", "Please select a console!").
Definition COMPLETE (n : nat) : string * string :=
  ("Complete", "Processed " ++ PyStr.of_nat n ++ " games!").

Definition popup (message : string * string) (s : App) : App :=
  set_popups (popups s ++ [message]) s.

(** Tags in increasing order, all below the position reached. *)
Definition ordered_below (i : nat) (present : list (nat * string)) : Prop :=
  StronglySorted lt (map fst present) /\ Forall (fun t => t < i) (map fst present).

(** Each tagged entry points at the add that queued its name. *)
Definition from_add (ops : list op) (e : nat * string) : Prop :=
  exists text,
    nth_error ops (fst e) = Some (Add text) /\ snd e = PyStr.strip text.

(** The lookup, download, compositing and per-item methods only log and
    call the outside: [grows s s'] says that the queue, the inputs and the
    popups of [s'] are those of [s] and that the history of [s'] extends
    the history of [s]. *)
Definition grows (s s' : App) : Prop :=
  game_queue s' = game_queue s
  /\ api_key_input s' = api_key_input s
  /\ console_spinner s' = console_spinner s
  /\ overlays_path_input s' = overlays_path_input s
  /\ popups s' = popups s
  /\ exists t, trace s' = (trace s ++ t)%list.

Definition steady {A} (m : M A) : Prop := forall s, grows s (snd (m s)).

(** The state once a line is logged. *)
Definition logged (message : string) (s : App) : App :=
  set_log_label (log_label s ++ PyStr.nl ++ message) s.

(** The state once every item of the queue has gone through
    [process_item], one after the other. *)
Definition all_processed (W : Outside) (items : list (nat * string)) (s : App) : App :=
  fold_left (fun st item => snd (process_item W item st)) items s.

Definition header_line (n : nat) : string :=
  PyStr.nl ++ Glyph.gamepad ++ " Processing " ++ PyStr.of_nat n ++ " games...".

Definition complete_line : string :=
  PyStr.nl ++ Glyph.done ++ " Processing complete!".

(** The request of the metadata search for a name. *)
Definition search_call (game_name : string) (s : App) : call :=
  requests_get (API ++ "/search/autocomplete/" ++ game_name)
               [("Authorization", "Bearer " ++ PyStr.strip (api_key_input s))]
               [] 10.

(** What the network answers to the request of each lookup, at the
    history of a state. *)
Definition search_response (W : Outside) (game_name : string) (s : App)
  : outcome Response :=
  net_get W (trace s) (API ++ "/search/autocomplete/" ++ game_name) (bearer s) [] 10.

Definition icons_response (W : Outside) (game_id : json) (s : App)
  : outcome Response :=
  net_get W (trace s) (API ++ "/grids/game/" ++ format W game_id) (bearer s)
          [("dimensions", "1024x1024"); ("types", "static")] 10.



(** A computation that writes nothing to the file system. *)
Definition quiet {A} (m : M A) : Prop :=
  forall s, writes (trace (snd (m s))) = writes (trace s).

(** The writes one item can add to the history, under console [console]
    and for the game record [game]: none; or the creation of the output
    directory alone; or that creation, which did not raise, followed by
    the save of an image at the output path of the record's name. *)
Definition mkdir_event (W : Outside) (console : string) (raised : bool) : event :=
  MkEvent (Path_mkdir (output_dir_of W console) true true) raised.

Definition save_event (W : Outside) (console : string) (resolved : json)
           (result : Image) (raised : bool) : event :=
  MkEvent (Image_save result (output_path_of W console resolved) "PNG") raised.

Definition item_writes (W : Outside) (console : string) (game : json)
           (w : list event) : Prop :=
  w = []
  \/ (exists raised, w = [mkdir_event W console raised])
  \/ (exists resolved result raised,
         Py.getitem game "name" = Returned resolved
         /\ w = [mkdir_event W console false;
                 save_event W console resolved result raised]).

Definition writes_as_item {A} (W : Outside) (console : string) (game : json)
           (m : M A) : Prop :=
  forall s, console_spinner s = console ->
            exists w, writes (trace (snd (m s))) = (writes (trace s) ++ w)%list
                      /\ item_writes W console game w.

(* ================================================================== *)
(** ** The rest of the application *)

Definition set_console_spinner (t : string) (s : App) : App :=
  MkApp (game_queue s) (game_name_input s) (api_key_input s) t
        (overlays_path_input s) (queue_layout s) (widgets_made s) (log_label s)
        (popups s) (stdout s) (trace s).
Definition set_overlays_path_input (t : option string) (s : App) : App :=
  MkApp (game_queue s) (game_name_input s) (api_key_input s) (console_spinner s)
        t (queue_layout s) (widgets_made s) (log_label s)
        (popups s) (stdout s) (trace s).

(** [refresh_consoles].  The values of the spinner are not part of [App]:
    the method returns the list it assigns to them. *)
Definition refresh_consoles (W : Outside) : M (list string) :=
  consoles <- get_available_consoles W ;;
  match consoles with
  | first :: _ =>
      if negb (String.eqb first SENTINEL)
      then modify (set_console_spinner first)
      else ret tt
  | [] => ret tt
  end ;;
  log ("Found " ++ PyStr.of_nat (List.length consoles) ++ " consoles") ;;
  ret consoles.

(** [select_folder], the handler of the select button of the folder
    browser, on the selection of the file chooser.  It returns the values
    the refresh assigns to the spinner, if it refreshes.  The browser's own
    popup is not one of the message popups and is left out. *)
Definition select_folder (W : Outside) (selection : list string)
  : M (option (list string)) :=
  match selection with
  | selected_path :: _ =>
      modify (set_overlays_path_input (Some selected_path)) ;;
      log ("Selected: " ++ selected_path) ;;
      values <- refresh_consoles W ;;
      ret (Some values)
  | [] => ret None
  end.

(** What a user presses on the queue: the add button with a text typed in
    the name field, the remove button of the card with a given identity
    (which calls [remove_game] with that card and the name the card was
    made with; a card that is gone has no button), the clear button. *)
Inductive press : Type :=
| PressAdd (text : string)
| PressRemove (id : nat)
| PressClear.

Definition handle (p : press) : M unit :=
  match p with
  | PressAdd text => modify (set_game_name_input text) ;; add_game
  | PressRemove id =>
      layout <- gets queue_layout ;;
      match find (fun c => Nat.eqb (card_id c) id) layout with
      | Some card => remove_game card (card_name card)
      | None => ret tt
      end
  | PressClear => clear_queue
  end.

Definition presses (ps : list press) (s : App) : App :=
  fold_left (fun s p => snd (handle p s)) ps s.

(** The cards and the queue agree: the names on the cards are the names
    of the queue up to order, and no two cards are the same widget. *)
Definition cards_agree (s : App) : Prop :=
  Permutation (map card_name (queue_layout s)) (game_queue s)
  /\ NoDup (map card_id (queue_layout s))
  /\ Forall (fun c => card_id c < widgets_made s) (queue_layout s).

(** A relation between the state before and after a computation is kept
    by the computation. *)
Definition keeps {A} (R : App -> App -> Prop) (m : M A) : Prop :=
  forall s, R s (snd (m s)).

(** Nothing but reporting: the log only gets longer, the history only
    grows, and everything else, the popups included, stays. *)
Definition reports (s s' : App) : Prop :=
  game_queue s' = game_queue s
  /\ game_name_input s' = game_name_input s
  /\ api_key_input s' = api_key_input s
  /\ console_spinner s' = console_spinner s
  /\ overlays_path_input s' = overlays_path_input s
  /\ queue_layout s' = queue_layout s
  /\ widgets_made s' = widgets_made s
  /\ stdout s' = stdout s
  /\ popups s' = popups s
  /\ (exists lines, log_label s' = log_label s ++ lines)
  /\ (exists calls, trace s' = (trace s ++ calls)%list).

(** The request of the icon listing for a game identifier, and of the
    download of an image. *)
Definition icons_call (W : Outside) (game_id : json) (s : App) : call :=
  requests_get (API ++ "/grids/game/" ++ format W game_id)
               [("Authorization", "Bearer " ++ PyStr.strip (api_key_input s))]
               [("dimensions", "1024x1024"); ("types", "static")] 10.

Definition download_call (u : string) : call := requests_get u [] [] 15.

Definition is_request (e : event) : bool :=
  match ev_call e with
  | requests_get _ _ _ _ => true
  | _ => false
  end.

(** The lines an item logs. *)
Definition NOT_FOUND : string := "  " ++ Glyph.cross ++ " Not found".
Definition FOUND (found : string) : string := "  " ++ Glyph.tick ++ " Found: " ++ found.
Definition NO_ICONS : string := "  " ++ Glyph.cross ++ " No icons available".
Definition DOWNLOADING : string := "  " ++ Glyph.arrow ++ " Downloading...".
Definition DOWNLOAD_FAILED : string := "  " ++ Glyph.cross ++ " Download failed".
Definition OVERLAY_FAILED : string := "  " ++ Glyph.cross ++ " Overlay failed".
Definition SAVED : string := "  " ++ Glyph.done ++ " Saved!".

(** Variations of the concrete world: a service without icons for the
    game, a download that does not decode, an output folder that cannot
    be created. *)
Module Cases.

Definition no_icons : Outside :=
  {| net_get := fun h url headers params timeout =>
       if String.eqb url "https://www.steamgriddb.com/api/v2/grids/game/1"
       then Scenario.ok (JObj [("success", JBool true); ("data", JArr [])])
       else Scenario.net h url headers params timeout;
     fs_exists := fs_exists Scenario.world;
     fs_is_dir := fs_is_dir Scenario.world;
     fs_iterdir := fs_iterdir Scenario.world;
     fs_mkdir := fs_mkdir Scenario.world;
     img_open := img_open Scenario.world;
     img_decode := img_decode Scenario.world;
     img_save := img_save Scenario.world;
     repr := repr Scenario.world;
     DEFAULT_OUTPUT := Scenario.output;
     DEFAULT_OVERLAYS := Scenario.overlays |}.

Definition bad_image : Outside :=
  {| net_get := Scenario.net;
     fs_exists := fs_exists Scenario.world;
     fs_is_dir := fs_is_dir Scenario.world;
     fs_iterdir := fs_iterdir Scenario.world;
     fs_mkdir := fs_mkdir Scenario.world;
     img_open := img_open Scenario.world;
     img_decode := fun _ =>
       Raised (Exn "UnidentifiedImageError" "cannot identify image file");
     img_save := img_save Scenario.world;
     repr := repr Scenario.world;
     DEFAULT_OUTPUT := Scenario.output;
     DEFAULT_OVERLAYS := Scenario.overlays |}.

Definition read_only : Outside :=
  {| net_get := Scenario.net;
     fs_exists := fs_exists Scenario.world;
     fs_is_dir := fs_is_dir Scenario.world;
     fs_iterdir := fs_iterdir Scenario.world;
     fs_mkdir := fun _ p _ _ =>
       Raised (Exn "PermissionError" ("[Errno 13] Permission denied: '"
                                        ++ Pathlib.to_str p ++ "'"));
     img_open := img_open Scenario.world;
     img_decode := img_decode Scenario.world;
     img_save := img_save Scenario.world;
     repr := repr Scenario.world;
     DEFAULT_OUTPUT := Scenario.output;
     DEFAULT_OVERLAYS := Scenario.overlays |}.

End Cases.

(** The states an item goes through: when the listing is asked (the match
    is logged), when the download starts, when the compositor is called,
    and when the result is about to be saved. *)
Definition at_listing (W : Outside) (game_name : string) (found : json)
           (s : App) : App :=
  logged (FOUND (format W found)) (snd (search_game W game_name s)).

Definition at_download (W : Outside) (game_name : string) (found game_id : json)
           (s : App) : App :=
  logged DOWNLOADING
         (snd (get_game_icons W game_id (at_listing W game_name found s))).

Definition at_overlay (W : Outside) (game_name : string)
           (found game_id url : json) (s : App) : App :=
  snd (download_image W url (at_download W game_name found game_id s)).

Definition at_save (W : Outside) (game_name : string)
           (found game_id url : json) (img : Image) (s : App) : App :=
  snd (apply_overlay W img (at_overlay W game_name found game_id url s)).

(** A scan of the overlays folder: the history grows and a line may go to
    the standard output; the rest stays, the log included. *)
Definition scanned (s s' : App) : Prop :=
  game_queue s' = game_queue s
  /\ game_name_input s' = game_name_input s
  /\ api_key_input s' = api_key_input s
  /\ console_spinner s' = console_spinner s
  /\ overlays_path_input s' = overlays_path_input s
  /\ queue_layout s' = queue_layout s
  /\ widgets_made s' = widgets_made s
  /\ log_label s' = log_label s
  /\ popups s' = popups s
  /\ (exists calls, trace s' = (trace s ++ calls)%list).

(** A name as a directory listing gives it: one path component. *)
Definition plain_name (entry : string) : bool :=
  Pathlib.kept entry
  && match Pathlib.split_slash entry with
     | [_] => true
     | _ => false
     end.

(** The configuration file.  [os.path.exists] answers without raising;
    reading it (open and [json.load]), creating its directory and writing
    a configuration to it (open and [json.dump]) may raise. *)
Record ConfigStore : Type := MkConfigStore {
  config_exists : bool;
  config_load : outcome json;
  config_makedirs : outcome unit;
  config_dump : json -> outcome unit
}.

(** [load_config] *)
Definition load_config (C : ConfigStore) : M json :=
  loaded <- try_except
    (if config_exists C
     then config <- lift (config_load C) ;; ret (Some config)
     else ret None)
    (fun _ => ret None) ;;
  match loaded with
  | Some config => ret config
  | None => ret (JObj [])
  end.

(** [save_settings].  The configuration it builds is assigned to
    [self.config], which is not part of [App]: the method returns it.  An
    input that is not built yet is an [AttributeError], outside the
    [try]. *)
Definition settings_of (W : Outside) (key console overlays : string) : json :=
  JObj [("api_key", JStr (PyStr.strip key));
        ("selected_console", JStr console);
        ("output_folder", JStr (Pathlib.to_str (DEFAULT_OUTPUT W)));
        ("overlays_folder", JStr (PyStr.strip overlays))].

Definition save_settings (W : Outside) (C : ConfigStore) : M json :=
  key <- gets api_key_input ;;
  console <- gets console_spinner ;;
  overlays <- gets overlays_path_input ;;
  match overlays with
  | None =>
      raise (Py.AttributeError
               "'SteamGridOverlayApp' object has no attribute 'overlays_path_input'")
  | Some text =>
      let config := settings_of W key console text in
      try_except
        (lift (config_makedirs C) ;;
         lift (config_dump C config) ;;
         log (Glyph.tick ++ " Settings saved!") ;;
         show_popup "Success" "Settings saved successfully!")
        (fun e =>
           log (Glyph.cross ++ " Error saving settings: " ++ exn_str e) ;;
           show_popup "Error" ("Failed to save settings: " ++ exn_str e)) ;;
      ret config
  end.

(** A store that holds a configuration, and one that cannot be written. *)
Definition store_with (config : json) : ConfigStore :=
  {| config_exists := true;
     config_load := Returned config;
     config_makedirs := Returned tt;
     config_dump := fun _ => Returned tt |}.

Definition store_read_only : ConfigStore :=
  {| config_exists := false;
     config_load := Raised (Exn "FileNotFoundError" "config.json");
     config_makedirs := Returned tt;
     config_dump := fun _ =>
       Raised (Exn "PermissionError" "[Errno 13] Permission denied") |}.

(** The line of an item that ended in an exception, with the message of
    the exception, and the line that announces the item at position [i]
    of a queue of [n] names. *)
Definition ERROR (message : string) : string :=
  "  " ++ Glyph.cross ++ " Error: " ++ message.

Definition ANNOUNCED (i n : nat) (game_name : string) : string :=
  PyStr.nl ++ "[" ++ PyStr.of_nat i ++ "/" ++ PyStr.of_nat n ++ "] " ++ game_name.

(** The state once each item of a queue of [n] names has been announced
    and has gone through [process_single_game], one after the other. *)
Definition each_processed (W : Outside) (n : nat) (items : list (nat * string))
           (s : App) : App :=
  fold_left (fun st item =>
               snd (process_single_game W (snd item)
                      (logged (ANNOUNCED (fst item) n (snd item)) st)))
            items s.


(** A world whose default overlays folder is missing, with consoles in a
    folder of the user's, and the application pointed at that folder. *)
Module Elsewhere.

Definition folder : string := "/mnt/usb/frames".

Definition dirs : list string :=
  ["/mnt/usb/frames"; "/mnt/usb/frames/PSX"; "/mnt/usb/frames/docs";
   "/mnt/usb/frames/GBA"].

Definition files : list string :=
  ["/mnt/usb/frames/PSX/overlay.png"; "/mnt/usb/frames/GBA/overlay.png"].

Definition world : Outside :=
  {| net_get := Scenario.net;
     fs_exists := fun _ p => Returned (PyStr.mem (Pathlib.to_str p) (dirs ++ files)%list);
     fs_is_dir := fun _ p => Returned (PyStr.mem (Pathlib.to_str p) dirs);
     fs_iterdir := fun _ p =>
       if String.eqb (Pathlib.to_str p) folder
       then Returned ["PSX"; "docs"; "GBA"]
       else Raised (Exn "FileNotFoundError" (Pathlib.to_str p));
     fs_mkdir := fs_mkdir Scenario.world;
     img_open := img_open Scenario.world;
     img_decode := img_decode Scenario.world;
     img_save := img_save Scenario.world;
     repr := repr Scenario.world;
     DEFAULT_OUTPUT := Scenario.output;
     DEFAULT_OVERLAYS := Scenario.overlays |}.

Definition app : App := set_overlays_path_input (Some folder) (Scenario.app []).

End Elsewhere.

(* ================================================================== *)
(** * Properties *)

(** ** General lemmas *)

(** Unfolding the monad of methods. *)
Ltac run_m :=
  cbv [bind ret raise lift gets modify try_except external
       log show_popup print fst snd].

Lemma mem_In (x : string) (l : list string) :
  PyStr.mem x l = true <-> In x l.
Proof.
  unfold PyStr.mem. rewrite existsb_exists. split.
  - intros [y [Hy E]]. apply String.eqb_eq in E. now subst.
  - intros H. exists x. split; [assumption | apply String.eqb_refl].
Qed.

Lemma mem_false (x : string) (l : list string) :
  PyStr.mem x l = false <-> ~ In x l.
Proof.
  rewrite <- mem_In. destruct (PyStr.mem x l); split; congruence.
Qed.

Lemma is_empty_true (s : string) : PyStr.is_empty s = true <-> s = "".
Proof. destruct s; simpl; split; congruence. Qed.

(** ** The queue *)

Lemma list_remove_earliest (x : string) (l : list string) :
  In x l ->
  exists before after,
    l = (before ++ x :: after)%list /\ ~ In x before
    /\ list_remove x l = Returned (before ++ after)%list.
Proof.
  induction l as [|y rest IH]; simpl; [tauto|].
  intros H. destruct (String.eqb y x) eqn:E.
  - apply String.eqb_eq in E. subst y.
    exists [], rest. simpl. auto.
  - apply String.eqb_neq in E.
    destruct H as [H|H]; [congruence|].
    destruct (IH H) as (before & after & Hl & Hn & Hr).
    exists (y :: before), after. rewrite Hr. subst rest. simpl.
    repeat split; auto. intros [F|F]; auto.
Qed.

Lemma remove_game_runs (widget : Card) (game_name : string) (s : App) :
  exists q',
    remove_game widget game_name s
    = (Returned tt,
       set_log_label (log_label s ++ PyStr.nl ++ ("Removed: " ++ game_name))
         (set_queue_layout (remove_widget widget (queue_layout s))
            (widgets_made s) (set_game_queue q' s)))
    /\ ((~ In game_name (game_queue s) /\ q' = game_queue s)
        \/ exists before after,
            game_queue s = (before ++ game_name :: after)%list
            /\ ~ In game_name before /\ q' = (before ++ after)%list).
Proof.
  unfold remove_game, bind, gets, modify, lift, log.
  destruct (PyStr.mem game_name (game_queue s)) eqn:E.
  - apply mem_In in E.
    destruct (list_remove_earliest _ _ E) as (before & after & Hq & Hn & Hr).
    rewrite Hr. exists (before ++ after)%list. split; [reflexivity|].
    right. exists before, after. auto.
  - apply mem_false in E. exists (game_queue s). split.
    + destruct s; reflexivity.
    + left. auto.
Qed.

Lemma remove_game_any_widget (w1 w2 : Card) (game_name : string) (s : App) :
  game_queue (snd (remove_game w1 game_name s))
  = game_queue (snd (remove_game w2 game_name s)).
Proof.
  unfold remove_game, bind, gets, modify, lift, log.
  destruct (PyStr.mem game_name (game_queue s));
    [destruct (list_remove game_name (game_queue s))|]; reflexivity.
Qed.

(** C10.  Removing a name never raises.  A name that is not queued leaves
    the queue as it was; otherwise the queue loses the earliest entry of
    that name and keeps the rest in place, whichever card the removal was
    requested for. *)
Theorem remove_game_earliest_occurrence
        (widget : Card) (game_name : string) (s : App) :
  exists s',
    remove_game widget game_name s = (Returned tt, s')
    /\ ((~ In game_name (game_queue s) /\ game_queue s' = game_queue s)
        \/ exists before after,
            game_queue s = (before ++ game_name :: after)%list
            /\ ~ In game_name before
            /\ game_queue s' = (before ++ after)%list)
    /\ forall other : Card,
        game_queue (snd (remove_game other game_name s)) = game_queue s'.
Proof.
  destruct (remove_game_runs widget game_name s) as (q' & Hrun & Hq).
  eexists. split; [exact Hrun|]. split.
  - simpl. exact Hq.
  - intros other.
    rewrite (remove_game_any_widget other widget), Hrun. reflexivity.
Qed.

(** The queue A, B, A with the remove button of the second A pressed: the
    first A leaves the queue, the card of the second leaves the screen. *)
Example remove_game_later_duplicate :
  let s := snd (remove_game (MkCard 2 "A") "A" (Scenario.app ["A"; "B"; "A"])) in
  game_queue s = ["B"; "A"]
  /\ map card_name (queue_layout s) = ["A"; "B"].
Proof. split; reflexivity. Qed.

Lemma perform_returns (o : op) (s : App) : fst (perform o s) = Returned tt.
Proof.
  destruct o as [text|widget game_name|]; simpl.
  - unfold add_game. run_m. simpl.
    destruct (PyStr.is_empty (PyStr.strip text)); reflexivity.
  - destruct (remove_game_runs widget game_name s) as (q' & -> & _). reflexivity.
  - reflexivity.
Qed.

Lemma add_game_queue (text : string) (s : App) :
  game_queue (snd (perform (Add text) s))
  = if PyStr.is_empty (PyStr.strip text) then game_queue s
    else (game_queue s ++ [PyStr.strip text])%list.
Proof.
  simpl. unfold add_game. run_m. simpl.
  destruct (PyStr.is_empty (PyStr.strip text)); reflexivity.
Qed.

Lemma drop_earliest_names (game_name : string) (present : list (nat * string)) :
  if PyStr.mem game_name (map snd present)
  then list_remove game_name (map snd present)
       = Returned (map snd (drop_earliest game_name present))
  else drop_earliest game_name present = present.
Proof.
  induction present as [|[i n] rest IH]; simpl; [reflexivity|].
  rewrite (String.eqb_sym game_name n).
  destruct (String.eqb n game_name) eqn:E; simpl; [reflexivity|].
  fold (PyStr.mem game_name (map snd rest)).
  destruct (PyStr.mem game_name (map snd rest)).
  - now rewrite IH.
  - now rewrite IH.
Qed.

Lemma remove_game_queue (widget : Card) (game_name : string)
      (present : list (nat * string)) (s : App) :
  game_queue s = map snd present ->
  game_queue (snd (remove_game widget game_name s))
  = map snd (drop_earliest game_name present).
Proof.
  intros Hq. unfold remove_game, bind, gets, modify, lift, log.
  rewrite Hq. pose proof (drop_earliest_names game_name present) as H.
  destruct (PyStr.mem game_name (map snd present)).
  - rewrite H. reflexivity.
  - rewrite H. simpl. exact Hq.
Qed.

Lemma run_names (ops : list op) :
  forall (i : nat) (present : list (nat * string)) (s : App),
    game_queue s = map snd present ->
    game_queue (run ops s) = map snd (still_present_from ops i present).
Proof.
  induction ops as [|o ops IH]; intros i present s Hq; simpl; [exact Hq|].
  destruct o as [text|widget game_name|]; apply IH.
  - rewrite add_game_queue, Hq.
    destruct (PyStr.is_empty (PyStr.strip text)); [reflexivity|].
    now rewrite map_app.
  - now apply remove_game_queue.
  - reflexivity.
Qed.

Lemma drop_earliest_incl (game_name : string) (present : list (nat * string)) :
  forall e, In e (drop_earliest game_name present) -> In e present.
Proof.
  induction present as [|x rest IH]; simpl; [tauto|].
  intros e. destruct (String.eqb (snd x) game_name); simpl; intuition.
Qed.

Lemma drop_earliest_ordered (game_name : string) (i : nat)
      (present : list (nat * string)) :
  ordered_below i present -> ordered_below i (drop_earliest game_name present).
Proof.
  unfold ordered_below. induction present as [|x rest IH]; simpl; [tauto|].
  intros [Hs Hb]. inversion Hs as [|? ? Hs' Hx]; subst.
  inversion Hb as [|? ? Hb1 Hb']; subst.
  destruct (String.eqb (snd x) game_name); [tauto|]. simpl.
  destruct (IH (conj Hs' Hb')) as [IHs IHb]. split.
  - constructor; [assumption|].
    rewrite Forall_forall in *. intros t Ht. apply Hx.
    apply in_map_iff in Ht. destruct Ht as (e & <- & He).
    apply in_map. eapply drop_earliest_incl; eassumption.
  - constructor; assumption.
Qed.

Lemma append_ordered (i : nat) (n : string) (present : list (nat * string)) :
  ordered_below i present -> ordered_below (S i) (present ++ [(i, n)]).
Proof.
  unfold ordered_below. intros [Hs Hb]. rewrite map_app. simpl. split.
  - induction (map fst present) as [|t ts IH]; simpl.
    + repeat constructor.
    + inversion Hs; inversion Hb; subst. constructor; [auto|].
      apply Forall_app. split; [assumption|]. repeat constructor. assumption.
  - apply Forall_app. split.
    + eapply Forall_impl; [|exact Hb]. simpl. lia.
    + repeat constructor.
Qed.

Lemma ordered_below_step (i : nat) (present : list (nat * string)) :
  ordered_below i present -> ordered_below (S i) present.
Proof.
  intros [Hs Hb]. split; [assumption|].
  eapply Forall_impl; [|exact Hb]. simpl. lia.
Qed.

Lemma still_present_ordered (ops : list op) :
  forall (i : nat) (present : list (nat * string)),
    ordered_below i present ->
    StronglySorted lt (map fst (still_present_from ops i present)).
Proof.
  induction ops as [|o ops IH]; intros i present H; simpl; [apply H|].
  destruct o as [text|widget game_name|]; apply IH.
  - destruct (PyStr.is_empty (PyStr.strip text)).
    + now apply ordered_below_step.
    + now apply append_ordered.
  - apply ordered_below_step. now apply drop_earliest_ordered.
  - split; constructor.
Qed.

Lemma still_present_origin (ops : list op) :
  forall (before : list op) (present : list (nat * string)),
    Forall (from_add (before ++ ops)) present ->
    Forall (from_add (before ++ ops))
           (still_present_from ops (List.length before) present).
Proof.
  induction ops as [|o ops IH]; intros before present H; simpl; [exact H|].
  assert (E : (before ++ o :: ops = (before ++ [o]) ++ ops)%list)
    by now rewrite <- app_assoc.
  assert (L : S (List.length before) = List.length (before ++ [o])%list)
    by (rewrite length_app; simpl; lia).
  rewrite E in *. rewrite L.
  destruct o as [text|widget game_name|]; apply IH.
  - destruct (PyStr.is_empty (PyStr.strip text)); [assumption|].
    apply Forall_app. split; [assumption|]. constructor; [|constructor].
    exists text. simpl. split; [|reflexivity].
    rewrite nth_error_app1 by (rewrite length_app; simpl; lia).
    rewrite nth_error_app2 by lia. now rewrite Nat.sub_diag.
  - rewrite Forall_forall in *. intros e He. apply H.
    eapply drop_earliest_incl; eassumption.
  - constructor.
Qed.

(** C9.  After any sequence of add, remove and clear operations on an
    empty queue, the queue holds the names of the add operations still
    present, in the order in which they were performed.  No operation
    raises; an add appends at the end, a remove deletes one entry and
    leaves the others in place, a clear empties the queue. *)
Theorem queue_keeps_add_order (ops : list op) (s : App) :
  game_queue s = [] ->
  (game_queue (run ops s) = map snd (still_present ops)
   /\ StronglySorted lt (map fst (still_present ops))
   /\ Forall (from_add ops) (still_present ops))
  /\ (forall o s0, fst (perform o s0) = Returned tt)
  /\ (forall text s0,
        game_queue (snd (perform (Add text) s0))
        = if PyStr.is_empty (PyStr.strip text) then game_queue s0
          else (game_queue s0 ++ [PyStr.strip text])%list)
  /\ (forall widget game_name s0,
        let q := game_queue (snd (perform (Remove widget game_name) s0)) in
        q = game_queue s0
        \/ exists before after,
            game_queue s0 = (before ++ game_name :: after)%list
            /\ q = (before ++ after)%list)
  /\ (forall s0, game_queue (snd (perform Clear s0)) = []).
Proof.
  intros Hq. repeat split.
  - apply run_names. exact Hq.
  - apply still_present_ordered. split; constructor.
  - apply (still_present_origin ops [] []). constructor.
  - apply perform_returns.
  - apply add_game_queue.
  - intros widget game_name s0. simpl.
    destruct (remove_game_runs widget game_name s0) as (q' & -> & H). simpl.
    destruct H as [[_ ->]|(before & after & E & _ & ->)]; [now left|].
    right. now exists before, after.
Qed.

Lemma queue_keeps_add_order_witness :
  let ops := [Add " Halo "; Add "Doom"; Add "  "; Add "Halo";
              Remove (MkCard 3 "Halo") "Halo"; Add "Myst"] in
  game_queue (Scenario.app []) = []
  /\ game_queue (run ops (Scenario.app [])) = map snd (still_present ops)
  /\ still_present ops = [(1, "Doom"); (3, "Halo"); (5, "Myst")].
Proof.
  intros ops. split; [reflexivity|]. split; [|reflexivity].
  exact (proj1 (proj1 (queue_keeps_add_order ops (Scenario.app []) eq_refl))).
Defined.

(** ** What the pipeline leaves alone *)

Lemma grows_refl (s : App) : grows s s.
Proof. repeat split. exists []. now rewrite app_nil_r. Qed.

Lemma grows_trans (s1 s2 s3 : App) : grows s1 s2 -> grows s2 s3 -> grows s1 s3.
Proof.
  intros (a1 & b1 & c1 & d1 & p1 & t1 & e1) (a2 & b2 & c2 & d2 & p2 & t2 & e2).
  repeat split; try congruence.
  exists (t1 ++ t2)%list. rewrite e2, e1. now rewrite app_assoc.
Qed.

Lemma steady_ret {A} (a : A) : steady (ret a).
Proof. intros s. apply grows_refl. Qed.

Lemma steady_raise {A} (e : exn) : steady (@raise A e).
Proof. intros s. apply grows_refl. Qed.

Lemma steady_lift {A} (r : outcome A) : steady (lift r).
Proof. intros s. apply grows_refl. Qed.

Lemma steady_gets {A} (f : App -> A) : steady (gets f).
Proof. intros s. apply grows_refl. Qed.

Lemma steady_log (message : string) : steady (log message).
Proof. intros s. repeat split. exists []. simpl. now rewrite app_nil_r. Qed.

Lemma steady_external {A} (c : call) (oracle : list event -> outcome A) :
  steady (external c oracle).
Proof. intros s. repeat split. simpl. eauto. Qed.

Lemma steady_bind {A B} (m : M A) (k : A -> M B) :
  steady m -> (forall a, steady (k a)) -> steady (bind m k).
Proof.
  intros Hm Hk s. unfold bind. specialize (Hm s).
  destruct (m s) as [[a|e] s1]; simpl in *; [|assumption].
  eapply grows_trans; [exact Hm | apply Hk].
Qed.

Lemma steady_try_except {A} (body : M A) (handler : exn -> M A) :
  steady body -> (forall e, steady (handler e)) -> steady (try_except body handler).
Proof.
  intros Hb Hh s. unfold try_except. specialize (Hb s).
  destruct (body s) as [[a|e] s1]; simpl in *; [assumption|].
  eapply grows_trans; [exact Hb | apply Hh].
Qed.

Lemma steady_for_each {A} (l : list A) (body : A -> M unit) :
  (forall x, steady (body x)) -> steady (for_each l body).
Proof.
  intros H. induction l as [|x rest IH]; simpl.
  - apply steady_ret.
  - apply steady_bind; auto.
Qed.

Ltac steady :=
  repeat first
    [ match goal with H : forall _, steady _ |- _ => apply H end
    | apply steady_ret | apply steady_raise | apply steady_lift
    | apply steady_gets | apply steady_log
    | apply steady_external
    | apply steady_bind; [|intros]
    | apply steady_try_except; [|intros]
    | match goal with
      | |- steady (if ?b then _ else _) => destruct b
      | |- steady (match ?x with _ => _ end) => destruct x
      end ].

Section Steady.

Variable W : Outside.

Lemma steady_raise_for_status (r : Response) : steady (raise_for_status r).
Proof. unfold raise_for_status. steady. Qed.

Lemma steady_response_json (r : Response) : steady (response_json r).
Proof. unfold response_json. steady. Qed.

Lemma steady_search_game (game_name : string) : steady (search_game W game_name).
Proof.
  unfold search_game, get.
  pose proof steady_raise_for_status. pose proof steady_response_json.
  steady.
Qed.

Lemma steady_get_game_icons (game_id : json) : steady (get_game_icons W game_id).
Proof.
  unfold get_game_icons, get.
  pose proof steady_raise_for_status. pose proof steady_response_json.
  steady.
Qed.

Lemma steady_download_image (url : json) : steady (download_image W url).
Proof.
  unfold download_image, get. pose proof steady_raise_for_status. steady.
Qed.

Lemma steady_apply_overlay (base_image : Image) : steady (apply_overlay W base_image).
Proof. unfold apply_overlay, exists_, open. steady. Qed.

Lemma steady_process_single_game_body (game_name : string) :
  steady (process_single_game_body W game_name).
Proof.
  unfold process_single_game_body, mkdir, save.
  pose proof steady_search_game. pose proof steady_get_game_icons.
  pose proof steady_download_image. pose proof steady_apply_overlay.
  steady.
Qed.

Lemma steady_process_single_game (game_name : string) :
  steady (process_single_game W game_name).
Proof.
  unfold process_single_game. pose proof steady_process_single_game_body. steady.
Qed.

Lemma steady_process_item (item : nat * string) : steady (process_item W item).
Proof. unfold process_item. pose proof steady_process_single_game. steady. Qed.

End Steady.

(** ** The orchestrator *)

Section Orchestrator.

Variable W : Outside.

Lemma process_single_game_caught (game_name : string) (s : App) :
  process_single_game W game_name s
  = match process_single_game_body W game_name s with
    | (Returned u, s') => (Returned u, s')
    | (Raised e, s') => (Returned tt, logged (error_line e) s')
    end.
Proof.
  unfold process_single_game, try_except.
  destruct (process_single_game_body W game_name s) as [[u|e] s']; reflexivity.
Qed.

Lemma process_single_game_returns (game_name : string) (s : App) :
  fst (process_single_game W game_name s) = Returned tt.
Proof.
  rewrite process_single_game_caught.
  destruct (process_single_game_body W game_name s) as [[[]|e] s']; reflexivity.
Qed.

Lemma process_item_returns (item : nat * string) (s : App) :
  fst (process_item W item s) = Returned tt.
Proof.
  unfold process_item. run_m. apply process_single_game_returns.
Qed.

Lemma for_each_never_stops {A} (body : A -> M unit) (l : list A) :
  (forall x s, fst (body x s) = Returned tt) ->
  forall s,
    for_each l body s = (Returned tt, fold_left (fun st x => snd (body x st)) l s).
Proof.
  intros H. induction l as [|x rest IH]; intros s; simpl; [reflexivity|].
  unfold bind. specialize (H x s).
  destruct (body x s) as [r s']; simpl in *. subst r. apply IH.
Qed.

Lemma all_processed_grows (items : list (nat * string)) (s : App) :
  grows s (all_processed W items s).
Proof.
  revert s. induction items as [|item rest IH]; intros s; simpl.
  - apply grows_refl.
  - eapply grows_trans; [apply steady_process_item | apply IH].
Qed.

Lemma process_games_accepted (s : App) :
  game_queue s <> [] ->
  PyStr.is_empty (PyStr.strip (api_key_input s)) = false ->
  PyStr.mem (console_spinner s) NO_SELECTION = false ->
  let n := List.length (game_queue s) in
  process_games W s
  = (Returned tt,
     popup (COMPLETE n)
       (logged complete_line
          (all_processed W (enumerate (game_queue s) 1)
                         (logged (header_line n) s)))).
Proof.
  intros Hq Hk Hc n. subst n.
  pose proof (all_processed_grows (enumerate (game_queue s) 1)
                                  (logged (header_line (List.length (game_queue s))) s))
    as (Gq & _).
  unfold process_games, bind, gets.
  destruct (game_queue s) as [|g rest] eqn:E; [congruence|].
  rewrite Hk, Hc.
  cbv [log modify].
  rewrite (for_each_never_stops (process_item W) _ process_item_returns).
  cbv [show_popup modify popup logged COMPLETE header_line complete_line
       all_processed] in *.
  cbn [game_queue set_log_label] in *. rewrite Gq, E. reflexivity.
Qed.

Lemma search_game_trace (game_name : string) (s : App) :
  exists raised,
    trace (snd (search_game W game_name s))
    = (trace s ++ [MkEvent (search_call game_name s) raised])%list.
Proof.
  unfold search_game, get, search_call, bearer, raise_for_status, response_json.
  run_m.
  destruct (net_get W (trace s) _ _ _ _) as [resp|e]; simpl; [|eauto].
  destruct ((400 <=? status_code resp)%Z && (status_code resp <? 600)%Z);
    simpl; [eauto|].
  destruct (decoded resp) as [body|]; simpl; [|eauto].
  destruct (Py.get body "data" (JArr [])); simpl; eauto.
Qed.

Lemma grows_after_first {A B} (m : M A) (k : A -> M B) (h : exn -> M B) (s : App) :
  (forall a, steady (k a)) -> (forall e, steady (h e)) ->
  grows (snd (m s)) (snd (try_except (bind m k) h s)).
Proof.
  intros Hk Hh. unfold try_except, bind.
  destruct (m s) as [[a|e] s1]; simpl; [|apply Hh].
  pose proof (Hk a s1) as G.
  destruct (k a s1) as [[b|e] s2]; simpl in *; [assumption|].
  eapply grows_trans; [exact G | apply Hh].
Qed.

Lemma process_single_game_after_search (game_name : string) (s : App) :
  grows (snd (search_game W game_name s)) (snd (process_single_game W game_name s)).
Proof.
  unfold process_single_game, process_single_game_body, mkdir, save.
  pose proof (steady_get_game_icons W). pose proof (steady_download_image W).
  pose proof (steady_apply_overlay W).
  apply grows_after_first; intros; steady.
Qed.

Lemma process_games_begins (s : App) (first : string) (rest : list string) :
  game_queue s = first :: rest ->
  PyStr.is_empty (PyStr.strip (api_key_input s)) = false ->
  PyStr.mem (console_spinner s) NO_SELECTION = false ->
  exists raised later,
    trace (snd (process_games W s))
    = (trace s ++ MkEvent (search_call first s) raised :: later)%list.
Proof.
  intros E Hk Hc.
  rewrite process_games_accepted by (congruence || assumption).
  rewrite E. cbn [enumerate all_processed fold_left snd].
  set (s0 := logged _ s).
  fold (all_processed W (enumerate rest 2) (snd (process_item W (1, first) s0))).
  set (s2 := snd (process_item W (1, first) s0)).
  pose proof (all_processed_grows (enumerate rest 2) s2) as (_ & _ & _ & _ & _ & t2 & Ht2).
  set (s1 := logged (item_line 1 (List.length (game_queue s0)) first) s0).
  assert (Hs2 : s2 = snd (process_single_game W first s1)) by reflexivity.
  pose proof (process_single_game_after_search first s1) as (_ & _ & _ & _ & _ & t1 & Ht1).
  destruct (search_game_trace first s1) as (raised & Hs).
  exists raised, (t1 ++ t2)%list.
  match goal with
  | |- trace (popup ?m (logged ?l ?x)) = _ =>
      change (trace (popup m (logged l x))) with (trace x)
  end.
  rewrite Ht2, Hs2, Ht1, Hs. unfold search_call.
  subst s1 s0. unfold logged. cbn [trace api_key_input set_log_label].
  rewrite <- !app_assoc. reflexivity.
Qed.

Lemma all_processed_each (items : list (nat * string)) (s : App) :
  all_processed W items s
  = each_processed W (List.length (game_queue s)) items s.
Proof.
  revert s. induction items as [|item rest IH]; intros s; [reflexivity|].
  unfold all_processed, each_processed. cbn [fold_left].
  fold (all_processed W rest (snd (process_item W item s))).
  rewrite IH.
  pose proof (steady_process_item W item s) as (Q & _). rewrite Q.
  reflexivity.
Qed.

Lemma each_processed_grows (n : nat) (items : list (nat * string)) (s : App) :
  grows s (each_processed W n items s).
Proof.
  revert s. induction items as [|item rest IH]; intros s.
  - apply grows_refl.
  - unfold each_processed. cbn [fold_left].
    eapply grows_trans; [|apply IH].
    eapply grows_trans; [|apply steady_process_single_game].
    apply (steady_log (ANNOUNCED (fst item) n (snd item)) s).
Qed.

Lemma each_processed_searches (n : nat) (items : list (nat * string)) (s : App)
      (item : nat * string) :
  In item items ->
  exists raised,
    In (MkEvent (search_call (snd item) s) raised)
       (trace (each_processed W n items s)).
Proof.
  revert s. induction items as [|first rest IH]; intros s; [intros []|].
  unfold each_processed. cbn [fold_left].
  set (s1 := logged (ANNOUNCED (fst first) n (snd first)) s).
  set (s2 := snd (process_single_game W (snd first) s1)).
  fold (each_processed W n rest s2).
  pose proof (each_processed_grows n rest s2) as (_ & _ & _ & _ & _ & t2 & T2).
  pose proof (steady_process_single_game W (snd first) s1) as (_ & K & _).
  fold s2 in K.
  intros [<-|H].
  - pose proof (process_single_game_after_search (snd first) s1)
      as (_ & _ & _ & _ & _ & t1 & T1).
    destruct (search_game_trace (snd first) s1) as (raised & S).
    exists raised. rewrite T2. fold s2 in T1. rewrite T1, S.
    apply in_or_app. left. apply in_or_app. left. apply in_or_app. right.
    left. reflexivity.
  - destruct (IH s2 H) as (raised & I). exists raised.
    replace (search_call (snd item) s) with (search_call (snd item) s2);
      [exact I|].
    unfold search_call. rewrite K. reflexivity.
Qed.

Lemma enumerate_names {A} (l : list A) (start : nat) (x : A) :
  In x l -> exists i, In (i, x) (enumerate l start).
Proof.
  revert start. induction l as [|y rest IH]; intros start; [intros []|].
  intros [->|H].
  - exists start. left. reflexivity.
  - destruct (IH (S start) H) as (i & I). exists i. right. exact I.
Qed.

(** C1.  An exception raised while an item is processed is caught at the
    item: the item ends normally, with the line [Error:] and the message
    of the exception in the log.  So no item ever raises, every name of
    the queue is announced and goes through [process_single_game] in turn
    whatever happened to the ones before it (the search for every queued
    name is made), and the run ends with the completion line and one
    popup, the only one of the run, that counts the whole queue. *)
Theorem item_failure_is_isolated (s : App) :
  game_queue s <> [] ->
  PyStr.is_empty (PyStr.strip (api_key_input s)) = false ->
  PyStr.mem (console_spinner s) NO_SELECTION = false ->
  let n := List.length (game_queue s) in
  (forall game_name s0 e s1,
      process_single_game_body W game_name s0 = (Raised e, s1) ->
      process_single_game W game_name s0
      = (Returned tt, logged (ERROR (exn_str e)) s1))
  /\ (forall game_name s0,
        fst (process_single_game W game_name s0) = Returned tt)
  /\ process_games W s
     = (Returned tt,
        popup (COMPLETE n)
          (logged complete_line
             (each_processed W n (enumerate (game_queue s) 1)
                (logged (header_line n) s))))
  /\ (forall game_name,
        In game_name (game_queue s) ->
        exists raised,
          In (MkEvent (search_call game_name s) raised)
             (trace (snd (process_games W s))))
  /\ popups (snd (process_games W s)) = (popups s ++ [COMPLETE n])%list.
Proof.
  intros Hq Hk Hc n.
  assert (E : process_games W s
              = (Returned tt,
                 popup (COMPLETE n)
                   (logged complete_line
                      (each_processed W n (enumerate (game_queue s) 1)
                         (logged (header_line n) s))))).
  { rewrite process_games_accepted by assumption. cbv zeta.
    rewrite all_processed_each. reflexivity. }
  split; [|split; [|split; [|split]]].
  - intros game_name s0 e s1 H. rewrite process_single_game_caught, H. reflexivity.
  - apply process_single_game_returns.
  - exact E.
  - intros game_name H.
    destruct (enumerate_names (game_queue s) 1 game_name H) as (i & I).
    destruct (each_processed_searches n (enumerate (game_queue s) 1)
                (logged (header_line n) s) (i, game_name) I) as (raised & S).
    exists raised. rewrite E. exact S.
  - rewrite E.
    pose proof (each_processed_grows n (enumerate (game_queue s) 1)
                  (logged (header_line n) s))
      as (_ & _ & _ & _ & P & _).
    cbn [snd]. unfold popup, logged at 1. cbn [popups set_popups set_log_label].
    rewrite P. reflexivity.
Qed.

(** C2.  A run is rejected, with nothing but a popup added to the state
    (no call to the outside, no log line), exactly when the queue is
    empty, or the credential is blank once stripped, or the selected
    console is one of the two sentinels.  Each case has its own message.
    Otherwise processing begins: the first call to the outside is the
    metadata search for the first name of the queue. *)
Theorem run_is_validated_first (s : App) :
  ((exists message,
       In message [EMPTY_QUEUE; NO_API_KEY; NO_CONSOLE]
       /\ process_games W s = (Returned tt, popup message s))
   <-> (game_queue s = [] \/ PyStr.strip (api_key_input s) = ""
        \/ console_spinner s = "Select Console"
        \/ console_spinner s = "No consoles found"))
  /\ (game_queue s = [] ->
      process_games W s = (Returned tt, popup EMPTY_QUEUE s))
  /\ (game_queue s <> [] -> PyStr.strip (api_key_input s) = "" ->
      process_games W s = (Returned tt, popup NO_API_KEY s))
  /\ (game_queue s <> [] -> PyStr.strip (api_key_input s) <> "" ->
      In (console_spinner s) NO_SELECTION ->
      process_games W s = (Returned tt, popup NO_CONSOLE s))
  /\ (forall message,
        trace (popup message s) = trace s
        /\ log_label (popup message s) = log_label s)
  /\ (EMPTY_QUEUE <> NO_API_KEY /\ EMPTY_QUEUE <> NO_CONSOLE
      /\ NO_API_KEY <> NO_CONSOLE)
  /\ (game_queue s <> [] -> PyStr.strip (api_key_input s) <> "" ->
      ~ In (console_spinner s) NO_SELECTION ->
      exists first rest raised later,
        game_queue s = first :: rest
        /\ trace (snd (process_games W s))
           = (trace s ++ MkEvent (search_call first s) raised :: later)%list).
Proof.
  assert (R1 : game_queue s = [] ->
               process_games W s = (Returned tt, popup EMPTY_QUEUE s)).
  { intros E. unfold process_games, bind, gets. rewrite E. reflexivity. }
  assert (R2 : game_queue s <> [] -> PyStr.strip (api_key_input s) = "" ->
               process_games W s = (Returned tt, popup NO_API_KEY s)).
  { intros Hq Hk. unfold process_games, bind, gets.
    destruct (game_queue s); [congruence|]. rewrite Hk. reflexivity. }
  assert (R3 : game_queue s <> [] -> PyStr.strip (api_key_input s) <> "" ->
               In (console_spinner s) NO_SELECTION ->
               process_games W s = (Returned tt, popup NO_CONSOLE s)).
  { intros Hq Hk Hc. unfold process_games, bind, gets.
    destruct (game_queue s); [congruence|].
    destruct (PyStr.is_empty (PyStr.strip (api_key_input s))) eqn:Ek.
    - apply is_empty_true in Ek. congruence.
    - apply mem_In in Hc. rewrite Hc. reflexivity. }
  assert (R4 : game_queue s <> [] -> PyStr.strip (api_key_input s) <> "" ->
               ~ In (console_spinner s) NO_SELECTION ->
               exists first rest raised later,
                 game_queue s = first :: rest
                 /\ trace (snd (process_games W s))
                    = (trace s ++ MkEvent (search_call first s) raised :: later)%list).
  { intros Hq Hk Hc. destruct (game_queue s) as [|first rest] eqn:E; [congruence|].
    destruct (process_games_begins s first rest E) as (raised & later & H).
    - destruct (PyStr.is_empty (PyStr.strip (api_key_input s))) eqn:Ek; [|reflexivity].
      apply is_empty_true in Ek. congruence.
    - now apply mem_false.
    - exists first, rest, raised, later. auto. }
  repeat split; auto; try discriminate.
  - intros (message & Hm & Hrun).
    destruct (list_eq_dec string_dec (game_queue s) []) as [|Hq]; [now left|].
    destruct (string_dec (PyStr.strip (api_key_input s)) "") as [|Hk]; [now (right; left)|].
    destruct (in_dec string_dec (console_spinner s) NO_SELECTION) as [Hc|Hc].
    + simpl in Hc. intuition.
    + exfalso. destruct (R4 Hq Hk Hc) as (first & rest & raised & later & _ & Ht).
      rewrite Hrun in Ht. simpl in Ht.
      rewrite <- (app_nil_r (trace s)) in Ht at 1.
      apply app_inv_head in Ht. discriminate.
  - intros H.
    destruct (list_eq_dec string_dec (game_queue s) []) as [Hq|Hq].
    { exists EMPTY_QUEUE. simpl. auto. }
    destruct (string_dec (PyStr.strip (api_key_input s)) "") as [Hk|Hk].
    { exists NO_API_KEY. simpl. auto. }
    exists NO_CONSOLE. split; [simpl; auto|]. apply R3; auto.
    simpl. intuition.
Qed.

End Orchestrator.

(** ** The lookup clients *)

Lemma quote_segment_unreserved (s : string) :
  Url.all_unreserved s = true -> Url.quote_segment s = s.
Proof.
  induction s as [|c r IH]; simpl; [reflexivity|].
  intros H. apply andb_true_iff in H. destruct H as [Hc Hr].
  rewrite Hc, IH; auto.
Qed.

Lemma unreserved_not_slash (c : ascii) :
  Url.unreserved c = true -> Pathlib.is_slash c = false.
Proof.
  destruct c as [[] [] [] [] [] [] [] []]; vm_compute; congruence.
Qed.

Lemma split_slash_unreserved (s : string) :
  Url.all_unreserved s = true -> Pathlib.split_slash s = [s].
Proof.
  induction s as [|c r IH]; simpl; [reflexivity|].
  intros H. apply andb_true_iff in H. destruct H as [Hc Hr].
  rewrite (unreserved_not_slash c Hc), (IH Hr). reflexivity.
Qed.

Lemma split_slash_after (p s : string) :
  exists h t,
    Pathlib.split_slash (p ++ String "/" s) = h :: t
    /\ t <> [] /\ last t "" = last (Pathlib.split_slash s) "".
Proof.
  assert (N : forall x, Pathlib.split_slash x <> []).
  { intros [|c r]; simpl; [discriminate|].
    destruct (Pathlib.is_slash c); [discriminate|].
    destruct (Pathlib.split_slash r); discriminate. }
  induction p as [|c r IH]; simpl.
  - exists "", (Pathlib.split_slash s). auto.
  - destruct IH as (h & t & E & Ht & L). rewrite E.
    destruct (Pathlib.is_slash c).
    + exists "", (h :: t). repeat split; [discriminate|].
      rewrite <- L. destruct t; [congruence|reflexivity].
    + exists (String c h), t. auto.
Qed.

Lemma final_segment_after (p s : string) :
  Url.final_segment (p ++ String "/" s) = last (Pathlib.split_slash s) "".
Proof.
  unfold Url.final_segment.
  destruct (split_slash_after p s) as (h & t & E & Ht & L).
  rewrite E, <- L. destruct t; [congruence|reflexivity].
Qed.

(** C8, as the code has it.  The metadata search makes one request: to the
    autocomplete endpoint followed by the name exactly as queued, with no
    percent-encoding of its own, with the stripped credential as bearer
    token and a timeout of 10.  For a name made of unreserved characters
    only, that URL is the encoded one and the name is its final segment. *)
Theorem search_request_is_verbatim (W : Outside) (game_name : string) (s : App) :
  (exists raised,
      trace (snd (search_game W game_name s))
      = List.app (trace s)
          [MkEvent
             (requests_get
                ("https://www.steamgriddb.com/api/v2/search/autocomplete/"
                   ++ game_name)
                [("Authorization", "Bearer " ++ PyStr.strip (api_key_input s))]
                [] 10)
             raised])
  /\ (Url.all_unreserved game_name = true ->
      "https://www.steamgriddb.com/api/v2/search/autocomplete/" ++ game_name
      = search_url_encoded game_name
      /\ Url.final_segment
           ("https://www.steamgriddb.com/api/v2/search/autocomplete/" ++ game_name)
         = game_name).
Proof.
  split.
  - exact (search_game_trace W game_name s).
  - intros H. split.
    + unfold search_url_encoded. now rewrite quote_segment_unreserved.
    + change ("https://www.steamgriddb.com/api/v2/search/autocomplete/" ++ game_name)
        with ("https://www.steamgriddb.com/api/v2/search/autocomplete"
                ++ String "/" game_name).
      rewrite final_segment_after, split_slash_unreserved by assumption.
      reflexivity.
Qed.

Lemma search_request_is_verbatim_witness :
  Url.all_unreserved "Halo" = true
  /\ "https://www.steamgriddb.com/api/v2/search/autocomplete/Halo"
     = search_url_encoded "Halo"
  /\ Url.final_segment "https://www.steamgriddb.com/api/v2/search/autocomplete/Halo"
     = "Halo".
Proof.
  split; [reflexivity|].
  exact (proj2 (search_request_is_verbatim Scenario.world "Halo" (Scenario.app []))
               eq_refl).
Defined.

(** C8 as stated fails for a name with a slash: the request goes to a URL
    that is not the encoded one, and whose final segment is not the name. *)
Lemma search_request_not_encoded :
  trace (snd (search_game Scenario.world "AC/DC" (Scenario.app ["AC/DC"])))
  = [MkEvent
       (requests_get "https://www.steamgriddb.com/api/v2/search/autocomplete/AC/DC"
                     [("Authorization", "Bearer abc")] [] 10)
       true]
  /\ search_url_encoded "AC/DC"
     = "https://www.steamgriddb.com/api/v2/search/autocomplete/AC%2FDC"
  /\ "https://www.steamgriddb.com/api/v2/search/autocomplete/AC/DC"
     <> search_url_encoded "AC/DC"
  /\ Url.final_segment "https://www.steamgriddb.com/api/v2/search/autocomplete/AC/DC"
     = "DC".
Proof.
  repeat split; try reflexivity. vm_compute. discriminate.
Qed.

Section Lookups.

Variable W : Outside.

Lemma status_error (resp : Response) :
  (400 <= status_code resp < 600)%Z
  <-> ((400 <=? status_code resp)%Z && (status_code resp <? 600)%Z) = true.
Proof. rewrite andb_true_iff, Z.leb_le, Z.ltb_lt. tauto. Qed.

Lemma search_game_returns (game_name : string) (s : App) :
  exists results, fst (search_game W game_name s) = Returned results.
Proof.
  unfold search_game, get, raise_for_status, response_json. run_m.
  destruct (net_get W _ _ _ _ _) as [resp|e]; simpl; [|eauto].
  destruct ((400 <=? status_code resp)%Z && (status_code resp <? 600)%Z);
    simpl; [eauto|].
  destruct (decoded resp) as [body|]; simpl; [|eauto].
  destruct (Py.get body "data" (JArr [])); simpl; eauto.
Qed.

Lemma get_game_icons_returns (game_id : json) (s : App) :
  exists icons, fst (get_game_icons W game_id s) = Returned icons.
Proof.
  unfold get_game_icons, get, raise_for_status, response_json. run_m.
  destruct (net_get W _ _ _ _ _) as [resp|e]; simpl; [|eauto].
  destruct ((400 <=? status_code resp)%Z && (status_code resp <? 600)%Z);
    simpl; [eauto|].
  destruct (decoded resp) as [body|]; simpl; [|eauto].
  destruct (Py.get body "data" (JArr [])) as [data|]; simpl; [|eauto].
  destruct (Py.iterate data) as [grids|]; simpl; [|eauto].
  destruct (keep_1024 grids); simpl; eauto.
Qed.

Lemma search_game_failed (game_name : string) (s : App) :
  lookup_failed (search_response W game_name s) ->
  fst (search_game W game_name s) = Returned (JArr []).
Proof.
  unfold search_response, lookup_failed, search_game, get, raise_for_status,
    response_json. run_m.
  destruct (net_get W _ _ _ _ _) as [resp|e]; simpl; [|reflexivity].
  intros H.
  destruct ((400 <=? status_code resp)%Z && (status_code resp <? 600)%Z) eqn:E;
    simpl; [reflexivity|].
  destruct H as [H|H]; [apply status_error in H; congruence|].
  destruct (decoded resp) as [body|]; simpl; [|reflexivity].
  destruct body; simpl; tauto.
Qed.

Lemma get_game_icons_failed (game_id : json) (s : App) :
  lookup_failed (icons_response W game_id s) ->
  fst (get_game_icons W game_id s) = Returned [].
Proof.
  unfold icons_response, lookup_failed, get_game_icons, get, raise_for_status,
    response_json. run_m.
  destruct (net_get W _ _ _ _ _) as [resp|e]; simpl; [|reflexivity].
  intros H.
  destruct ((400 <=? status_code resp)%Z && (status_code resp <? 600)%Z) eqn:E;
    simpl; [reflexivity|].
  destruct H as [H|H]; [apply status_error in H; congruence|].
  destruct (decoded resp) as [body|]; simpl; [|reflexivity].
  destruct body; simpl; tauto.
Qed.

Lemma search_game_passes_data (game_name : string) (s : App)
      (resp : Response) (fields : list (string * json)) :
  search_response W game_name s = Returned resp ->
  ~ (400 <= status_code resp < 600)%Z ->
  decoded resp = Some (JObj fields) ->
  fst (search_game W game_name s)
  = Returned (match Py.lookup "data" fields with
              | Some data => data
              | None => JArr []
              end).
Proof.
  unfold search_response, search_game, get, raise_for_status, response_json.
  run_m. intros -> Hs Hd. simpl.
  destruct ((400 <=? status_code resp)%Z && (status_code resp <? 600)%Z) eqn:E.
  - apply status_error in E. tauto.
  - simpl. rewrite Hd. reflexivity.
Qed.

Lemma keep_1024_objects (grids : list json) :
  forallb is_object grids = true ->
  keep_1024 grids = Returned (filter (has_dimensions 1024 1024) grids).
Proof.
  induction grids as [|g rest IH]; [reflexivity|].
  cbn [forallb]. intros H. apply andb_true_iff in H. destruct H as [Hg Hr].
  cbn [keep_1024 filter]. rewrite (IH Hr).
  destruct g as [| | | | | |fields]; try discriminate.
  cbn [Py.get has_dimensions].
  destruct (Py.lookup "width" fields) as [gw|];
    destruct (Py.lookup "height" fields) as [gh|]; cbn [Py.eq_int];
    try destruct (Py.eq_int gw 1024); try destruct (Py.eq_int gh 1024);
    reflexivity.
Qed.

Lemma keep_1024_not_objects (grids : list json) :
  forallb is_object grids = false ->
  exists e, keep_1024 grids = Raised e.
Proof.
  induction grids as [|g rest IH]; [discriminate|].
  cbn [forallb keep_1024]. intros H.
  destruct g as [| | | | | |fields]; cbn [Py.get]; eauto.
  cbn [is_object andb] in H. destruct (IH H) as [e ->].
  repeat match goal with
         | |- context [if ?b then _ else _] => destruct b
         end; eauto.
Qed.

Lemma get_game_icons_on_payload (game_id : json) (s : App)
      (resp : Response) (fields : list (string * json)) :
  icons_response W game_id s = Returned resp ->
  ~ (400 <= status_code resp < 600)%Z ->
  decoded resp = Some (JObj fields) ->
  fst (get_game_icons W game_id s)
  = match Py.iterate (match Py.lookup "data" fields with
                      | Some data => data
                      | None => JArr []
                      end) with
    | Returned grids =>
        match keep_1024 grids with
        | Returned icons => Returned icons
        | Raised _ => Returned []
        end
    | Raised _ => Returned []
    end.
Proof.
  unfold icons_response, get_game_icons, get, raise_for_status, response_json.
  run_m. intros -> Hs Hd. simpl.
  destruct ((400 <=? status_code resp)%Z && (status_code resp <? 600)%Z) eqn:E.
  - apply status_error in E. tauto.
  - simpl. rewrite Hd. simpl.
    destruct (Py.iterate _) as [grids|]; simpl; [|reflexivity].
    destruct (keep_1024 grids); reflexivity.
Qed.

(** C4.  When the service answers the icon listing with a sequence of
    candidates, the client returns the candidates of width 1024 and
    height 1024, and only those, in the order of the answer. *)
Theorem icons_are_filtered_to_1024 (game_id : json) (s : App)
        (resp : Response) (fields : list (string * json)) (grids : list json) :
  icons_response W game_id s = Returned resp ->
  ~ (400 <= status_code resp < 600)%Z ->
  decoded resp = Some (JObj fields) ->
  Py.lookup "data" fields = Some (JArr grids) ->
  forallb is_object grids = true ->
  fst (get_game_icons W game_id s)
  = Returned (filter (has_dimensions 1024 1024) grids).
Proof.
  intros Hr Hs Hd Hl Ho.
  rewrite (get_game_icons_on_payload _ _ _ _ Hr Hs Hd), Hl.
  cbn [Py.iterate]. now rewrite keep_1024_objects.
Qed.

(** C5, as the code has it.  Neither lookup ever raises.  A transport
    error, an HTTP error status, a body that is not JSON and a JSON body
    that is not an object all give the empty sequence.  The icon listing
    also gives the empty sequence when [data] is not a sequence of
    objects.  The metadata search does not look at [data]: whatever an
    object holds under that key is returned as it is. *)
Theorem lookups_swallow_failures (s : App) :
  (forall game_name, exists results,
        fst (search_game W game_name s) = Returned results)
  /\ (forall game_id, exists icons,
         fst (get_game_icons W game_id s) = Returned icons)
  /\ (forall game_name,
         lookup_failed (search_response W game_name s) ->
         fst (search_game W game_name s) = Returned (JArr []))
  /\ (forall game_id,
         lookup_failed (icons_response W game_id s) ->
         fst (get_game_icons W game_id s) = Returned [])
  /\ (forall game_id resp fields,
         icons_response W game_id s = Returned resp ->
         ~ (400 <= status_code resp < 600)%Z ->
         decoded resp = Some (JObj fields) ->
         match Py.lookup "data" fields with
         | Some (JArr grids) => forallb is_object grids = false
         | Some _ => True
         | None => True
         end ->
         fst (get_game_icons W game_id s) = Returned [])
  /\ (forall game_name resp fields,
         search_response W game_name s = Returned resp ->
         ~ (400 <= status_code resp < 600)%Z ->
         decoded resp = Some (JObj fields) ->
         fst (search_game W game_name s)
         = Returned (match Py.lookup "data" fields with
                     | Some data => data
                     | None => JArr []
                     end)).
Proof.
  repeat split.
  - intros. apply search_game_returns.
  - intros. apply get_game_icons_returns.
  - intros. now apply search_game_failed.
  - intros. now apply get_game_icons_failed.
  - intros game_id resp fields Hr Hs Hd Hdata.
    rewrite (get_game_icons_on_payload _ _ _ _ Hr Hs Hd).
    destruct (Py.lookup "data" fields) as [data|]; [|reflexivity].
    destruct data as [| | | |str|grids|dict]; try reflexivity.
    + cbn [Py.iterate]. destruct (PyStr.chars str) as [|ch rest]; [reflexivity|].
      reflexivity.
    + cbn [Py.iterate]. destruct (keep_1024_not_objects grids Hdata) as [e ->].
      reflexivity.
    + cbn [Py.iterate]. destruct dict as [|kv rest]; reflexivity.
  - intros game_name resp fields Hr Hs Hd.
    exact (search_game_passes_data _ _ _ _ Hr Hs Hd).
Qed.

End Lookups.

Lemma icons_are_filtered_to_1024_witness :
  icons_response Scenario.world (JInt 1) (Scenario.app [])
  = Returned (MkResponse 200 ""
      (Some (JObj [("data",
                    JArr [Scenario.grid "https://cdn.example/a.png" 512 512;
                          Scenario.grid "https://cdn.example/b.png" 1024 1024;
                          Scenario.grid "https://cdn.example/c.png" 1024 768])])))
  /\ fst (get_game_icons Scenario.world (JInt 1) (Scenario.app []))
     = Returned [Scenario.grid "https://cdn.example/b.png" 1024 1024].
Proof.
  split; [reflexivity|].
  apply (icons_are_filtered_to_1024 Scenario.world (JInt 1) (Scenario.app [])
           (MkResponse 200 ""
              (Some (JObj [("data",
                            JArr [Scenario.grid "https://cdn.example/a.png" 512 512;
                                  Scenario.grid "https://cdn.example/b.png" 1024 1024;
                                  Scenario.grid "https://cdn.example/c.png" 1024 768])])))
           [("data",
             JArr [Scenario.grid "https://cdn.example/a.png" 512 512;
                   Scenario.grid "https://cdn.example/b.png" 1024 1024;
                   Scenario.grid "https://cdn.example/c.png" 1024 768])]
           [Scenario.grid "https://cdn.example/a.png" 512 512;
            Scenario.grid "https://cdn.example/b.png" 1024 1024;
            Scenario.grid "https://cdn.example/c.png" 1024 768]).
  - reflexivity.
  - simpl. lia.
  - reflexivity.
  - reflexivity.
  - reflexivity.
Defined.

Lemma lookups_swallow_failures_witness :
  lookup_failed (search_response Scenario.world "Gone" (Scenario.app []))
  /\ fst (search_game Scenario.world "Gone" (Scenario.app [])) = Returned (JArr []).
Proof.
  split; [exact I|].
  apply (proj1 (proj2 (proj2 (lookups_swallow_failures Scenario.world
                                                       (Scenario.app []))))).
  exact I.
Defined.

(** C5 as stated fails for the metadata search: a payload whose [data] is
    not a sequence is malformed, and the search hands it to the caller,
    which is not an empty sequence. *)
Lemma search_game_malformed_payload :
  search_response Scenario.world "Broken" (Scenario.app [])
  = Returned (MkResponse 200 "" (Some (JObj [("data", JStr "maintenance")])))
  /\ ~ payload_shape (JObj [("data", JStr "maintenance")])
  /\ fst (search_game Scenario.world "Broken" (Scenario.app []))
     = Returned (JStr "maintenance")
  /\ fst (search_game Scenario.world "Broken" (Scenario.app []))
     <> Returned (JArr []).
Proof.
  repeat split; try discriminate.
  intros (fields & items & E & L). inversion E; subst. discriminate.
Qed.

(** ** The console registry *)

Lemma insert_sorted_perm (x : string) (l : list string) :
  Permutation (insert_sorted x l) (x :: l).
Proof.
  induction l as [|y rest IH]; simpl; [reflexivity|].
  destruct (String.leb x y); [reflexivity|].
  rewrite IH. apply perm_swap.
Qed.

Lemma sorted_perm (l : list string) : Permutation (sorted l) l.
Proof.
  induction l as [|x rest IH]; simpl; [reflexivity|].
  rewrite insert_sorted_perm. now constructor.
Qed.




Section Registry.

Variable W : Outside.

Lemma get_available_consoles_total (s : App) :
  exists consoles s',
    get_available_consoles W s = (Returned consoles, s') /\ consoles <> [].
Proof.
  unfold get_available_consoles. unfold bind at 1.
  destruct (try_except _ _ s) as [[found|e] s1] eqn:E.
  - destruct found as [consoles|].
    + exists consoles, s1. split; [reflexivity|].
      revert E. unfold try_except, exists_, iterdir. run_m.
      destruct (fs_exists W _ _) as [[]|]; try discriminate.
      destruct (fs_iterdir W _ _) as [entries|]; try discriminate.
      destruct (console_names W _ entries _) as [[names|] s2]; try discriminate.
      destruct names as [|n rest]; try discriminate.
      intros H F. pose proof (sorted_perm (n :: rest)) as P.
      injection H as H1 _. change (sorted (n :: rest) = consoles) in H1.
      rewrite H1, F in P.
      exact (Permutation_nil_cons P).
    + exists [SENTINEL], s1. split; [reflexivity|discriminate].
  - exfalso. revert E. unfold try_except, exists_, iterdir. run_m.
    destruct (fs_exists W _ _) as [[]|]; try discriminate.
    destruct (fs_iterdir W _ _) as [entries|]; try discriminate.
    destruct (console_names W _ entries _) as [[names|] s2]; try discriminate.
    destruct names; discriminate.
Qed.








End Registry.

(** ** The overlay compositor *)

Lemma size_eqb_eq (a b : PIL.Size) : PIL.size_eqb a b = true <-> a = b.
Proof.
  destruct a as [w1 h1], b as [w2 h2]. unfold PIL.size_eqb. simpl.
  rewrite andb_true_iff, !Z.eqb_eq. split; [intros []|intros [=]]; subst; auto.
Qed.

Lemma fit_overlay_size (overlay base_image : Image) :
  PIL.size (fit_overlay overlay base_image) = PIL.size base_image.
Proof.
  unfold fit_overlay.
  destruct (PIL.size_eqb (PIL.size overlay) (PIL.size base_image)) eqn:E; simpl.
  - now apply size_eqb_eq.
  - reflexivity.
Qed.

Lemma fit_overlay_mode (overlay base_image : Image) :
  PIL.mode (fit_overlay overlay base_image) = PIL.mode overlay.
Proof.
  unfold fit_overlay.
  destruct (PIL.size_eqb (PIL.size overlay) (PIL.size base_image)); reflexivity.
Qed.

(** C3.  Given a base bitmap in RGBA and an overlay asset that is there
    and opens, the compositor returns the alpha-composite of the frame
    over the masked base, where the mask is a new single-channel bitmap of
    the base's size, all 0, with a rounded rectangle of radius 120 filled
    with 255 over its full bounds; the masked base is the base with the
    mask as its alpha channel; and the frame is the asset in RGBA, resized
    to the base's size with the Lanczos filter when its size differs.  The
    base is not resized, and the radius does not depend on the sizes. *)
Theorem overlay_is_composited (W : Outside) (base_image opened : Image) (s : App) :
  PIL.mode base_image = "RGBA" ->
  fs_exists W (trace s) (overlay_path_of W s) = Returned true ->
  img_open W (List.app (trace s)
                       [MkEvent (Path_exists (overlay_path_of W s)) false])
           (overlay_path_of W s)
  = Returned opened ->
  let mask :=
    PIL.RoundedRectangle (PIL.New "L" (PIL.size base_image) 0)
                         ((0, 0)%Z, PIL.size base_image) 120 255 in
  let frame := PIL.Convert opened "RGBA" in
  let fitted :=
    if PIL.size_eqb (PIL.size frame) (PIL.size base_image) then frame
    else PIL.Resize frame (PIL.size base_image) "LANCZOS" in
  fst (apply_overlay W base_image s)
  = Returned (Some (PIL.AlphaComposite (PIL.PutAlpha base_image mask) fitted))
  /\ PIL.size mask = PIL.size base_image
  /\ PIL.mode mask = "L"
  /\ PIL.size fitted = PIL.size base_image
  /\ PIL.size (PIL.AlphaComposite (PIL.PutAlpha base_image mask) fitted)
     = PIL.size base_image.
Proof.
  intros Hmode Hex Hopen mask frame fitted.
  assert (Hfit : fitted = fit_overlay frame base_image).
  { unfold fitted, fit_overlay.
    destruct (PIL.size_eqb (PIL.size frame) (PIL.size base_image)); reflexivity. }
  assert (Hsize : PIL.size fitted = PIL.size base_image)
    by (rewrite Hfit; apply fit_overlay_size).
  repeat split; try assumption.
  unfold apply_overlay, try_except, exists_, open. run_m.
  rewrite Hex. cbn [negb trace set_trace is_raised]. rewrite Hopen.
  fold frame. rewrite <- Hfit.
  unfold PIL.putalpha. rewrite Hmode. cbn [PIL.promoted PIL.has_alpha PyStr.mem].
  change (PIL.promoted "RGBA") with (Some "RGBA"). cbv iota.
  unfold PIL.alpha_composite. fold mask.
  cbn [PIL.mode PIL.size]. rewrite Hmode.
  change (PIL.with_alpha "RGBA") with "RGBA".
  replace (PIL.mode fitted) with "RGBA"
    by (rewrite Hfit, fit_overlay_mode; reflexivity).
  rewrite Hsize.
  replace (PIL.size_eqb (PIL.size base_image) (PIL.size base_image)) with true
    by (symmetry; now apply size_eqb_eq).
  reflexivity.
Qed.

Lemma overlay_is_composited_witness :
  let base_image := PIL.Convert (PIL.Raster 1 "RGB" (1024, 1024)%Z) "RGBA" in
  PIL.mode base_image = "RGBA"
  /\ fst (apply_overlay Scenario.world base_image (Scenario.app ["Halo"]))
     = Returned (Some
         (PIL.AlphaComposite
            (PIL.PutAlpha base_image
               (PIL.RoundedRectangle (PIL.New "L" (1024, 1024)%Z 0)
                  ((0, 0), (1024, 1024))%Z 120 255))
            (PIL.Resize (PIL.Convert (PIL.Raster 2 "RGBA" (512, 512)%Z) "RGBA")
                        (1024, 1024)%Z "LANCZOS"))).
Proof.
  split; [reflexivity|].
  exact (proj1 (overlay_is_composited Scenario.world
                  (PIL.Convert (PIL.Raster 1 "RGB" (1024, 1024)%Z) "RGBA")
                  (PIL.Raster 2 "RGBA" (512, 512)%Z)
                  (Scenario.app ["Halo"]) eq_refl eq_refl eq_refl)).
Defined.

(** ** The output file *)

Lemma writes_snoc (t : list event) (e : event) :
  writes (t ++ [e]) = (writes t ++ (if is_write e then [e] else []))%list.
Proof. unfold writes. rewrite filter_app. reflexivity. Qed.

Lemma quiet_ret {A} (a : A) : quiet (ret a).
Proof. intros s. reflexivity. Qed.

Lemma quiet_raise {A} (e : exn) : quiet (@raise A e).
Proof. intros s. reflexivity. Qed.

Lemma quiet_lift {A} (r : outcome A) : quiet (lift r).
Proof. intros s. reflexivity. Qed.

Lemma quiet_gets {A} (f : App -> A) : quiet (gets f).
Proof. intros s. reflexivity. Qed.

Lemma quiet_log (message : string) : quiet (log message).
Proof. intros s. reflexivity. Qed.

Lemma quiet_external {A} (c : call) (oracle : list event -> outcome A) :
  (forall raised, is_write (MkEvent c raised) = false) ->
  quiet (external c oracle).
Proof.
  intros H s. unfold external. cbn [snd trace set_trace].
  rewrite writes_snoc, H. apply app_nil_r.
Qed.

Lemma quiet_bind {A B} (m : M A) (k : A -> M B) :
  quiet m -> (forall a, quiet (k a)) -> quiet (bind m k).
Proof.
  intros Hm Hk s. unfold bind. specialize (Hm s).
  destruct (m s) as [[a|e] s1]; simpl in *; [|assumption].
  now rewrite Hk.
Qed.

Lemma quiet_try_except {A} (body : M A) (handler : exn -> M A) :
  quiet body -> (forall e, quiet (handler e)) -> quiet (try_except body handler).
Proof.
  intros Hb Hh s. unfold try_except. specialize (Hb s).
  destruct (body s) as [[a|e] s1]; simpl in *; [assumption|].
  now rewrite Hh.
Qed.

Ltac quiet :=
  repeat first
    [ match goal with H : forall _, quiet _ |- _ => apply H end
    | apply quiet_ret | apply quiet_raise | apply quiet_lift
    | apply quiet_gets | apply quiet_log
    | apply quiet_external; reflexivity
    | apply quiet_bind; [|intros]
    | apply quiet_try_except; [|intros]
    | match goal with
      | |- quiet (if ?b then _ else _) => destruct b
      | |- quiet (match ?x with _ => _ end) => destruct x
      end ].

Section OutputFile.

Variable W : Outside.

Lemma quiet_raise_for_status (r : Response) : quiet (raise_for_status r).
Proof. unfold raise_for_status. quiet. Qed.

Lemma quiet_response_json (r : Response) : quiet (response_json r).
Proof. unfold response_json. quiet. Qed.

Lemma quiet_search_game (game_name : string) : quiet (search_game W game_name).
Proof.
  unfold search_game, get.
  pose proof quiet_raise_for_status. pose proof quiet_response_json. quiet.
Qed.

Lemma quiet_get_game_icons (game_id : json) : quiet (get_game_icons W game_id).
Proof.
  unfold get_game_icons, get.
  pose proof quiet_raise_for_status. pose proof quiet_response_json. quiet.
Qed.

Lemma quiet_download_image (url : json) : quiet (download_image W url).
Proof. unfold download_image, get. pose proof quiet_raise_for_status. quiet. Qed.

Lemma quiet_apply_overlay (base_image : Image) : quiet (apply_overlay W base_image).
Proof. unfold apply_overlay, exists_, open. quiet. Qed.

Section Item.

Variable console : string.
Variable game : json.

Lemma writes_of_quiet {A} (m : M A) :
  quiet m -> writes_as_item W console game m.
Proof.
  intros Q s _. exists []. rewrite Q, app_nil_r. split; [reflexivity|now left].
Qed.

Lemma writes_bind {A B} (m : M A) (k : A -> M B) :
  quiet m -> steady m -> (forall a, writes_as_item W console game (k a)) ->
  writes_as_item W console game (bind m k).
Proof.
  intros Q G Hk s Hc. unfold bind. specialize (Q s). specialize (G s).
  destruct (m s) as [[a|e] s1]; simpl in *.
  - destruct G as (_ & _ & Gc & _).
    destruct (Hk a s1) as (w & Hw & Sw); [congruence|].
    exists w. rewrite Hw, Q. auto.
  - exists []. rewrite Q, app_nil_r. split; [reflexivity|now left].
Qed.

Lemma writes_gets_console {B} (k : string -> M B) :
  writes_as_item W console game (k console) ->
  writes_as_item W console game (bind (gets console_spinner) k).
Proof.
  intros Hk s Hc. unfold bind, gets. rewrite Hc. now apply Hk.
Qed.

Lemma writes_of_save (result : Image) :
  writes_as_item W console game
    (bind (mkdir W (output_dir_of W console) true true) (fun _ =>
     bind (lift (Py.getitem game "name")) (fun resolved =>
     bind (save W result (output_path_of W console resolved) "PNG") (fun _ =>
     log ("  " ++ Glyph.done ++ " Saved!"))))).
Proof.
  intros s Hc. unfold mkdir, save. run_m.
  destruct (fs_mkdir W (trace s) _ true true) as [[]|e];
    cbn [trace set_trace is_raised].
  - destruct (Py.getitem game "name") as [resolved|e] eqn:E;
      cbn [trace set_trace is_raised].
    + destruct (img_save W _ result _ "PNG") as [[]|e];
        cbn [trace set_trace set_log_label is_raised];
        rewrite !writes_snoc; cbn [is_write ev_call];
        rewrite <- app_assoc;
        (eexists; split; [reflexivity|]);
        right; right; exists resolved, result; eexists; (split; [exact E|reflexivity]).
    + rewrite writes_snoc. cbn [is_write ev_call].
      eexists; split; [reflexivity|]. right; left. eexists. reflexivity.
  - rewrite writes_snoc. cbn [is_write ev_call].
    eexists; split; [reflexivity|]. right; left. eexists. reflexivity.
Qed.

End Item.

Ltac item_writes :=
  repeat first
    [ apply writes_of_save
    | apply writes_gets_console
    | apply writes_bind;
        [ first [apply quiet_search_game | apply quiet_get_game_icons
                | apply quiet_download_image | apply quiet_apply_overlay | quiet]
        | first [apply steady_search_game | apply steady_get_game_icons
                | apply steady_download_image | apply steady_apply_overlay | steady]
        | intros ]
    | match goal with
      | |- writes_as_item _ _ _ (if ?b then _ else _) => destruct b
      | |- writes_as_item _ _ _ (match ?x with _ => _ end) => destruct x
      end
    | solve [apply writes_of_quiet; quiet] ].

Lemma process_single_game_body_writes (game_name : string) (s : App) :
  exists w,
    writes (trace (snd (process_single_game_body W game_name s)))
    = (writes (trace s) ++ w)%list
    /\ (w = []
        \/ exists results game,
            fst (search_game W game_name s) = Returned results
            /\ Py.getitem0 results = Returned game
            /\ item_writes W (console_spinner s) game w).
Proof.
  unfold process_single_game_body. unfold bind at 1.
  pose proof (quiet_search_game game_name s) as Q.
  pose proof (steady_search_game W game_name s) as (_ & _ & Gc & _).
  destruct (search_game W game_name s) as [[results|e] s1]; cbn [fst snd] in *.
  2: { exists []. rewrite Q, app_nil_r. auto. }
  destruct (negb (Py.truthy results)).
  { exists []. rewrite quiet_log, Q, app_nil_r. auto. }
  unfold bind at 1. unfold lift at 1.
  destruct (Py.getitem0 results) as [game|e] eqn:Eg.
  2: { exists []. cbn [snd]. rewrite Q, app_nil_r. auto. }
  match goal with
  | |- context [snd (?m s1)] =>
      assert (T : writes_as_item W (console_spinner s) game m)
  end.
  { item_writes. }
  destruct (T s1 Gc) as (w & Hw & Sw).
  exists w. rewrite Hw, Q. split; [reflexivity|].
  right. exists results, game.
  split; [reflexivity|]. split; [exact Eg|exact Sw].
Qed.

End OutputFile.

Lemma append_assoc (a b c : string) : (a ++ b) ++ c = a ++ (b ++ c).
Proof. induction a as [|x a IH]; simpl; [reflexivity|now rewrite IH]. Qed.

Lemma split_slash_nonempty (s : string) : Pathlib.split_slash s <> [].
Proof.
  destruct s as [|c r]; simpl; [discriminate|].
  destruct (Pathlib.is_slash c); [discriminate|].
  destruct (Pathlib.split_slash r); discriminate.
Qed.

Lemma concat_cons (x : string) (l : list string) :
  l <> [] -> String.concat "/" (x :: l) = x ++ "/" ++ String.concat "/" l.
Proof. destruct l; [congruence|reflexivity]. Qed.

Lemma concat_split_slash (s : string) :
  String.concat "/" (Pathlib.split_slash s) = s.
Proof.
  induction s as [|c r IH]; [reflexivity|].
  cbn [Pathlib.split_slash]. unfold Pathlib.is_slash.
  destruct (Ascii.eqb c "/") eqn:E.
  - apply Ascii.eqb_eq in E. subst c.
    rewrite concat_cons by apply split_slash_nonempty. now rewrite IH.
  - pose proof (split_slash_nonempty r) as N.
    destruct (Pathlib.split_slash r) as [|h t]; [congruence|].
    destruct t as [|h' t'].
    + simpl in *. now rewrite IH.
    + change (String c (String.concat "/" (h :: h' :: t')) = String c r).
      now rewrite IH.
Qed.

Lemma concat_app (a b : list string) :
  a <> [] -> b <> [] ->
  String.concat "/" (a ++ b) = String.concat "/" a ++ "/" ++ String.concat "/" b.
Proof.
  intros Ha Hb. induction a as [|x a IH]; [congruence|].
  destruct a as [|y a].
  - simpl app. now rewrite concat_cons.
  - change ((x :: y :: a) ++ b)%list with (x :: ((y :: a) ++ b))%list.
    rewrite concat_cons by discriminate.
    rewrite IH by discriminate.
    rewrite (concat_cons x (y :: a)) by discriminate.
    now rewrite !append_assoc.
Qed.

Lemma of_str_relative_normal (s : string) :
  relative_normal s = true ->
  Pathlib.of_str s = Pathlib.MkPath "" (Pathlib.split_slash s).
Proof.
  unfold relative_normal, Pathlib.of_str. intros H. f_equal.
  - destruct s as [|c r]; [reflexivity|]. simpl in *.
    destruct (Pathlib.is_slash c); [discriminate|reflexivity].
  - rewrite forallb_forall in H.
    induction (Pathlib.split_slash s) as [|x l IH]; [reflexivity|].
    simpl. rewrite H by now left. f_equal. apply IH.
    intros y Hy. apply H. now right.
Qed.

Lemma join_relative_normal (p : Path) (s : string) :
  relative_normal s = true ->
  p // s = Pathlib.MkPath (Pathlib.root p)
                          (Pathlib.parts p ++ Pathlib.split_slash s).
Proof.
  intros H. unfold Pathlib.join. now rewrite of_str_relative_normal.
Qed.

Lemma to_str_parts (p : Path) :
  Pathlib.parts p <> [] ->
  Pathlib.to_str p = Pathlib.root p ++ String.concat "/" (Pathlib.parts p).
Proof.
  destruct p as [r ps]. unfold Pathlib.to_str. simpl. intros H.
  destruct r; destruct ps; try reflexivity; congruence.
Qed.

Lemma to_str_join (p : Path) (s : string) :
  Pathlib.parts p <> [] -> relative_normal s = true ->
  Pathlib.to_str (p // s) = Pathlib.to_str p ++ "/" ++ s.
Proof.
  intros Hp Hs. rewrite join_relative_normal by assumption.
  rewrite !to_str_parts; simpl.
  - rewrite concat_app by (assumption || apply split_slash_nonempty).
    now rewrite concat_split_slash, append_assoc.
  - assumption.
  - intros F. apply app_eq_nil in F. tauto.
Qed.

Lemma store_binds (p : Path) (im : Image) (files : list (Path * Image)) :
  In (p, im) (store p im files).
Proof.
  induction files as [|[q old] rest IH]; simpl; [now left|].
  destruct (path_eqb q p); simpl; auto.
Qed.

Lemma store_same_paths (p : Path) (im : Image) (files : list (Path * Image)) :
  In p (map fst files) -> map fst (store p im files) = map fst files.
Proof.
  induction files as [|[q old] rest IH]; simpl; [tauto|].
  unfold path_eqb. destruct (path_eq_dec q p) as [->|N]; simpl; [reflexivity|].
  intros [F|F]; [congruence|]. now rewrite IH.
Qed.

Lemma store_keeps_paths (p q : Path) (im : Image) (files : list (Path * Image)) :
  In q (map fst files) -> In q (map fst (store p im files)).
Proof.
  induction files as [|[r old] rest IH]; simpl; [tauto|].
  unfold path_eqb. destruct (path_eq_dec r p) as [->|N]; simpl; tauto.
Qed.

Lemma files_after_snoc (t : list event) (e : event) :
  files_after (t ++ [e])
  = match ev_call e, ev_raised e with
    | Image_save im p _, false => store p im (files_after t)
    | _, _ => files_after t
    end.
Proof. unfold files_after. now rewrite fold_left_app. Qed.

Lemma files_after_keeps_paths (t later : list event) (q : Path) :
  In q (map fst (files_after t)) -> In q (map fst (files_after (t ++ later))).
Proof.
  induction later as [|e later IH] using rev_ind; [now rewrite app_nil_r|].
  intros H. rewrite app_assoc, files_after_snoc.
  destruct (ev_call e); auto. destruct (ev_raised e); auto.
  apply store_keeps_paths. auto.
Qed.

Lemma saved_again_overwrites (t later : list event) (p : Path)
      (im1 im2 : Image) (fmt1 fmt2 : string) :
  let first := (t ++ [MkEvent (Image_save im1 p fmt1) false] ++ later)%list in
  let second := (first ++ [MkEvent (Image_save im2 p fmt2) false])%list in
  map fst (files_after second) = map fst (files_after first)
  /\ In (p, im2) (files_after second).
Proof.
  intros first second. unfold second. rewrite files_after_snoc. simpl. split.
  - apply store_same_paths. unfold first. rewrite app_assoc.
    apply files_after_keeps_paths. rewrite files_after_snoc. simpl.
    apply (in_map fst _ (p, im1)), store_binds.
  - apply store_binds.
Qed.

Lemma process_single_game_writes (W : Outside) (game_name : string) (s : App) :
  exists w,
    writes (trace (snd (process_single_game W game_name s)))
    = (writes (trace s) ++ w)%list
    /\ (w = []
        \/ exists results game,
            fst (search_game W game_name s) = Returned results
            /\ Py.getitem0 results = Returned game
            /\ item_writes W (console_spinner s) game w).
Proof.
  rewrite process_single_game_caught.
  destruct (process_single_game_body_writes W game_name s) as (w & Hw & Sw).
  exists w. split; [|exact Sw].
  destruct (process_single_game_body W game_name s) as [[u|e] s']; exact Hw.
Qed.

(** C6, as the code has it.  The only file-system writes an item makes are
    the recursive creation of the output directory of the selected console
    and then the save, as PNG, at the path obtained by joining the output
    root, the console name and the name of the first search result with
    [.png] appended.  That path depends on nothing else.  When the console
    name and the file name are relative paths without empty or [.]
    components, the path reads [<output_root>/<console>/<name>.png].  A
    second save at the path replaces the first: no file is added. *)
Theorem output_path_is_determined (W : Outside) :
  (forall game_name s,
      exists w,
        writes (trace (snd (process_single_game W game_name s)))
        = (writes (trace s) ++ w)%list
        /\ (w = []
            \/ exists results game,
                fst (search_game W game_name s) = Returned results
                /\ Py.getitem0 results = Returned game
                /\ item_writes W (console_spinner s) game w))
  /\ (forall console resolved,
         Pathlib.parts (DEFAULT_OUTPUT W) <> [] ->
         relative_normal console = true ->
         relative_normal (format W resolved ++ ".png") = true ->
         Pathlib.to_str (output_path_of W console resolved)
         = Pathlib.to_str (DEFAULT_OUTPUT W) ++ "/" ++ console ++ "/"
             ++ format W resolved ++ ".png")
  /\ (forall console resolved t later first second,
         let once := (t ++ [save_event W console resolved first false] ++ later)%list in
         let twice := (once ++ [save_event W console resolved second false])%list in
         map fst (files_after twice) = map fst (files_after once)
         /\ In (output_path_of W console resolved, second) (files_after twice)).
Proof.
  split; [apply process_single_game_writes|]. split.
  - intros console resolved Hroot Hc Hf.
    unfold output_path_of, output_dir_of.
    rewrite to_str_join; [|rewrite join_relative_normal by assumption; simpl|assumption].
    + rewrite to_str_join by assumption. now rewrite !append_assoc.
    + intros F. apply app_eq_nil in F. tauto.
  - intros console resolved t later first second.
    apply saved_again_overwrites.
Qed.

Lemma output_path_is_determined_witness :
  Pathlib.parts (DEFAULT_OUTPUT Scenario.world) <> []
  /\ relative_normal "NES" = true
  /\ relative_normal "Halo.png" = true
  /\ Pathlib.to_str (output_path_of Scenario.world "NES" (JStr "Halo"))
     = "/sdcard/SteamGridOverlay/Output/NES/Halo.png".
Proof.
  assert (H : Pathlib.parts (DEFAULT_OUTPUT Scenario.world) <> []) by discriminate.
  split; [exact H|]. split; [reflexivity|]. split; [reflexivity|].
  exact (proj1 (proj2 (output_path_is_determined Scenario.world))
               "NES" (JStr "Halo") H eq_refl eq_refl).
Defined.

(** Scenario A of the specification: the one item is saved under the
    console, after the directory is created. *)
Example halo_is_saved :
  exists result,
    writes (trace (snd (process_single_game Scenario.world "Halo"
                                            (Scenario.app ["Halo"]))))
    = [mkdir_event Scenario.world "NES" false;
       save_event Scenario.world "NES" (JStr "Halo") result false]
    /\ map (fun f => Pathlib.to_str (fst f))
           (files_after (trace (snd (process_single_game Scenario.world "Halo"
                                                         (Scenario.app ["Halo"])))))
       = ["/sdcard/SteamGridOverlay/Output/NES/Halo.png"].
Proof. eexists. split; reflexivity. Qed.

(** C6 as stated fails for a record whose name starts with a slash: the
    join drops the output root and the console, and the image is saved at
    the name itself. *)
Lemma output_path_absolute_name :
  fst (search_game Scenario.world "Slash" (Scenario.app ["Slash"]))
  = Returned (JArr [JObj [("id", JInt 1); ("name", JStr "/tmp/x")]])
  /\ (exists result,
         writes (trace (snd (process_single_game Scenario.world "Slash"
                                                 (Scenario.app ["Slash"]))))
         = [mkdir_event Scenario.world "NES" false;
            MkEvent (Image_save result (Pathlib.of_str "/tmp/x.png") "PNG") false])
  /\ Pathlib.to_str (output_path_of Scenario.world "NES" (JStr "/tmp/x"))
     = "/tmp/x.png"
  /\ Pathlib.to_str (output_path_of Scenario.world "NES" (JStr "/tmp/x"))
     <> Pathlib.to_str (DEFAULT_OUTPUT Scenario.world) ++ "/" ++ "NES" ++ "/"
          ++ "/tmp/x" ++ ".png".
Proof.
  split; [reflexivity|]. split; [eexists; reflexivity|].
  split; [reflexivity|]. vm_compute. discriminate.
Qed.

Lemma item_failure_is_isolated_witness :
  let s := Scenario.app ["Odd"; "Halo"] in
  game_queue s <> []
  /\ PyStr.is_empty (PyStr.strip (api_key_input s)) = false
  /\ PyStr.mem (console_spinner s) NO_SELECTION = false
  /\ log_label (snd (process_single_game Scenario.world "Odd" s))
     = "Ready!" ++ PyStr.nl ++ ERROR "'name'"
  /\ process_games Scenario.world s
     = (Returned tt,
        popup (COMPLETE 2)
          (logged complete_line
             (each_processed Scenario.world 2 [(1, "Odd"); (2, "Halo")]
                (logged (header_line 2) s))))
  /\ exists raised,
      In (MkEvent (search_call "Halo" s) raised)
         (trace (snd (process_games Scenario.world s))).
Proof.
  intros s.
  assert (H : game_queue s <> []) by discriminate.
  pose proof (item_failure_is_isolated Scenario.world s H eq_refl eq_refl)
    as (Caught & _ & Run & Searched & _).
  split; [exact H|]. split; [reflexivity|]. split; [reflexivity|].
  split; [|split].
  - rewrite (Caught "Odd" s (Py.KeyError "'name'") _ eq_refl). reflexivity.
  - exact Run.
  - apply Searched. right. left. reflexivity.
Defined.

Lemma run_is_validated_first_witness :
  process_games Scenario.world (Scenario.app [])
  = (Returned tt, popup EMPTY_QUEUE (Scenario.app []))
  /\ exists raised later,
      trace (snd (process_games Scenario.world (Scenario.app ["Halo"])))
      = MkEvent (search_call "Halo" (Scenario.app ["Halo"])) raised :: later.
Proof.
  split.
  - exact (proj1 (proj2 (run_is_validated_first Scenario.world (Scenario.app [])))
                 eq_refl).
  - destruct (proj2 (proj2 (proj2 (proj2 (proj2 (proj2
               (run_is_validated_first Scenario.world (Scenario.app ["Halo"])))))))
               ltac:(discriminate) ltac:(discriminate)
               ltac:(simpl; intuition discriminate))
      as (first & rest & raised & later & E & T).
    injection E as <- _. exists raised, later. exact T.
Defined.


(* ================================================================== *)
(** * Further properties of the code *)

(** ** The image fetcher and the icon listing *)

Lemma download_image_unfolded (W : Outside) (url : json) (s : App) :
  download_image W url s
  = let answer := net_get W (trace s) (format W url) [] [] 15 in
    (Returned
       match answer with
       | Returned resp =>
           if ((400 <=? status_code resp)%Z && (status_code resp <? 600)%Z)%bool
           then None
           else match img_decode W (content resp) with
                | Returned raw => Some (PIL.Convert raw "RGBA")
                | Raised _ => None
                end
       | Raised _ => None
       end,
     set_trace (trace s ++ [MkEvent (download_call (format W url))
                                    (is_raised answer)]) s).
Proof.
  unfold download_image, try_except, get, raise_for_status, download_call.
  run_m.
  destruct (net_get W (trace s) (format W url) [] [] 15) as [resp|e]; [|reflexivity].
  cbn [is_raised].
  destruct ((400 <=? status_code resp)%Z && (status_code resp <? 600)%Z);
    [reflexivity|].
  destruct (img_decode W (content resp)); reflexivity.
Qed.

(** X1.  [download_image] never raises, and it makes exactly one call to
    the outside whatever it is given: the request for the text of the URL
    (the URL itself when it is a string), without headers or parameters
    and with a timeout of 15; nothing else of the state changes.  It
    returns an image exactly when that request returns with a status that
    is not an HTTP error and the body decodes; the image is then the
    decoded one converted to RGBA. *)
Theorem download_image_collapses_failures (W : Outside) (url : json) (s : App) :
  exists result raised,
    download_image W url s
    = (Returned result,
       set_trace (trace s ++ [MkEvent (requests_get (format W url) [] [] 15)
                                      raised]) s)
    /\ (forall u, url = JStr u ->
          trace (snd (download_image W url s))
          = (trace s ++ [MkEvent (requests_get u [] [] 15) raised])%list)
    /\ (forall im,
          result = Some im <->
          exists resp raw,
            net_get W (trace s) (format W url) [] [] 15 = Returned resp
            /\ ~ (400 <= status_code resp < 600)%Z
            /\ img_decode W (content resp) = Returned raw
            /\ im = PIL.Convert raw "RGBA")
    /\ (forall im, result = Some im -> PIL.mode im = "RGBA").
Proof.
  rewrite download_image_unfolded. cbv zeta. unfold download_call.
  eexists. eexists. split; [reflexivity|]. split; [|split].
  - intros u ->. reflexivity.
  - intros im. split.
    + destruct (net_get W (trace s) (format W url) [] [] 15) as [resp|e] eqn:N;
        [|discriminate].
      destruct ((400 <=? status_code resp)%Z && (status_code resp <? 600)%Z) eqn:S;
        [discriminate|].
      destruct (img_decode W (content resp)) as [raw|e] eqn:D; [|discriminate].
      intros [= <-]. exists resp, raw.
      split; [reflexivity|]. split; [|now split].
      intros F. apply status_error in F. congruence.
    + intros (resp & raw & N & S & D & ->).
      rewrite N.
      destruct ((400 <=? status_code resp)%Z && (status_code resp <? 600)%Z) eqn:S'.
      * apply status_error in S'. tauto.
      * now rewrite D.
  - intros im.
    destruct (net_get W (trace s) (format W url) [] [] 15) as [resp|e]; [|discriminate].
    destruct ((400 <=? status_code resp)%Z && (status_code resp <? 600)%Z);
      [discriminate|].
    destruct (img_decode W (content resp)); [|discriminate].
    intros [= <-]. reflexivity.
Qed.

Lemma keep_1024_sound (grids icons : list json) :
  keep_1024 grids = Returned icons ->
  Forall (fun g => has_dimensions 1024 1024 g = true) icons
  /\ incl icons grids.
Proof.
  revert icons. induction grids as [|g rest IH]; intros icons; cbn [keep_1024].
  - intros [= <-]. split; [constructor|apply incl_refl].
  - destruct g as [| | | | | |fields]; cbn [Py.get]; try discriminate.
    destruct (keep_1024 rest) as [tl|e].
    2: { repeat match goal with
                | |- context [if ?b then _ else _] => destruct b
                end; discriminate. }
    destruct (IH tl eq_refl) as [F I].
    destruct (Py.lookup "width" fields) as [gw|] eqn:Ew;
      destruct (Py.lookup "height" fields) as [gh|] eqn:Eh;
      cbn [Py.eq_int];
      try destruct (Py.eq_int gw 1024) eqn:Cw;
      try destruct (Py.eq_int gh 1024) eqn:Ch;
      intros [= <-];
      try (split; [exact F | now apply incl_tl]).
    split; [|now apply incl_cons; [left|apply incl_tl]].
    constructor; [|exact F]. cbn [has_dimensions]. now rewrite Ew, Eh, Cw, Ch.
Qed.

(** X2.  Whatever the service answers, every icon [get_game_icons] returns
    is an entry of the answer whose width and height are both 1024, and
    the method makes exactly one call: the request to the grids endpoint
    of the game, asking for 1024x1024 static images, with the stripped
    credential as bearer token and a timeout of 10. *)
Theorem listed_icons_have_required_size (W : Outside) (game_id : json) (s : App) :
  exists icons raised,
    fst (get_game_icons W game_id s) = Returned icons
    /\ Forall (fun g => has_dimensions 1024 1024 g = true) icons
    /\ trace (snd (get_game_icons W game_id s))
       = (trace s ++ [MkEvent (icons_call W game_id s) raised])%list.
Proof.
  unfold get_game_icons, try_except, get, raise_for_status, response_json,
    icons_call, bearer.
  run_m.
  destruct (net_get W (trace s) _ _ _ 10) as [resp|e]; cbn [is_raised].
  2: { exists [], true. repeat split. constructor. }
  destruct ((400 <=? status_code resp)%Z && (status_code resp <? 600)%Z).
  { exists [], false. repeat split. constructor. }
  destruct (decoded resp) as [body|].
  2: { exists [], false. repeat split. constructor. }
  destruct (Py.get body "data" (JArr [])) as [data|e].
  2: { exists [], false. repeat split. constructor. }
  destruct (Py.iterate data) as [grids|e].
  2: { exists [], false. repeat split. constructor. }
  destruct (keep_1024 grids) as [icons|e] eqn:K.
  - exists icons, false. repeat split. now apply (keep_1024_sound grids).
  - exists [], false. repeat split. constructor.
Qed.

(** ** The compositor when something is missing *)

Lemma apply_overlay_unfolded (W : Outside) (base_image : Image) (s : App) :
  let p := overlay_path_of W s in
  let asked := fs_exists W (trace s) p in
  let s1 := set_trace (trace s ++ [MkEvent (Path_exists p) (is_raised asked)]) s in
  apply_overlay W base_image s
  = match asked with
    | Raised e => (Returned None, logged ("Overlay error: " ++ exn_str e) s1)
    | Returned false =>
        (Returned None, logged ("Overlay not found: " ++ Pathlib.to_str p) s1)
    | Returned true =>
        let opened := img_open W (trace s1) p in
        let s2 := set_trace (trace s1 ++ [MkEvent (Image_open p) (is_raised opened)]) s1 in
        match opened with
        | Raised e => (Returned None, logged ("Overlay error: " ++ exn_str e) s2)
        | Returned im =>
            match PIL.putalpha base_image (rounded_mask base_image) with
            | Raised e => (Returned None, logged ("Overlay error: " ++ exn_str e) s2)
            | Returned masked =>
                match PIL.alpha_composite
                        masked (fit_overlay (PIL.Convert im "RGBA") base_image) with
                | Returned result => (Returned (Some result), s2)
                | Raised e =>
                    (Returned None, logged ("Overlay error: " ++ exn_str e) s2)
                end
            end
        end
    end.
Proof.
  unfold apply_overlay, try_except, exists_, open. run_m. cbv zeta.
  destruct (fs_exists W (trace s) (overlay_path_of W s)) as [[]|e];
    cbn [negb is_raised trace set_trace]; try reflexivity.
  destruct (img_open W _ (overlay_path_of W s)) as [im|e];
    cbn [is_raised]; try reflexivity.
  destruct (PIL.putalpha _ _); [|reflexivity].
  destruct (PIL.alpha_composite _ _); reflexivity.
Qed.

(** X3.  [apply_overlay] never raises and never writes to the file
    system.  When the overlay asset is reported absent it returns nothing,
    logs the path it looked for, and does not try to open anything; when
    the existence test or the opening raises it returns nothing and logs
    the error.  A result, when there is one, has the size of the base and
    is in RGBA. *)
Theorem apply_overlay_reports_failure (W : Outside) (base_image : Image) (s : App) :
  let p := overlay_path_of W s in
  let tested raised := set_trace (trace s ++ [MkEvent (Path_exists p) raised]) s in
  (exists result, fst (apply_overlay W base_image s) = Returned result
                  /\ forall im, result = Some im ->
                                PIL.size im = PIL.size base_image
                                /\ PIL.mode im = "RGBA")
  /\ writes (trace (snd (apply_overlay W base_image s))) = writes (trace s)
  /\ (fs_exists W (trace s) p = Returned false ->
      apply_overlay W base_image s
      = (Returned None,
         logged ("Overlay not found: " ++ Pathlib.to_str p) (tested false)))
  /\ (forall e,
        fs_exists W (trace s) p = Raised e ->
        apply_overlay W base_image s
        = (Returned None, logged ("Overlay error: " ++ exn_str e) (tested true)))
  /\ (forall e,
        fs_exists W (trace s) p = Returned true ->
        img_open W (trace (tested false)) p = Raised e ->
        apply_overlay W base_image s
        = (Returned None,
           logged ("Overlay error: " ++ exn_str e)
                  (set_trace (trace (tested false) ++ [MkEvent (Image_open p) true])
                             (tested false)))).
Proof.
  intros p tested. split; [|split; [|split; [|split]]].
  - pose proof (apply_overlay_unfolded W base_image s) as E. cbv zeta in E.
    rewrite E. clear E.
    destruct (fs_exists W (trace s) _) as [[]|e];
      try (exists None; split; [reflexivity|discriminate]).
    destruct (img_open W _ _) as [im|e];
      try (exists None; split; [reflexivity|discriminate]).
    unfold PIL.putalpha.
    destruct (PIL.promoted _); [|exists None; split; [reflexivity|discriminate]].
    unfold PIL.alpha_composite.
    destruct (negb _); [exists None; split; [reflexivity|discriminate]|].
    destruct (negb _); [exists None; split; [reflexivity|discriminate]|].
    eexists. split; [reflexivity|].
    intros result [= <-]. split; reflexivity.
  - apply quiet_apply_overlay.
  - intros H. pose proof (apply_overlay_unfolded W base_image s) as E.
    cbv zeta in E. fold p in E. rewrite H in E. exact E.
  - intros e H. pose proof (apply_overlay_unfolded W base_image s) as E.
    cbv zeta in E. fold p in E. rewrite H in E. exact E.
  - intros e H O. pose proof (apply_overlay_unfolded W base_image s) as E.
    cbv zeta in E. fold p in E. rewrite H in E.
    cbn [is_raised] in E. fold (tested false) in E. rewrite O in E. exact E.
Qed.

Lemma apply_overlay_reports_failure_witness :
  let s := set_console_spinner "Dreamcast" (Scenario.app ["Halo"]) in
  fs_exists Scenario.world (trace s) (overlay_path_of Scenario.world s)
  = Returned false
  /\ fst (apply_overlay Scenario.world (PIL.Raster 1 "RGBA" (1024, 1024)%Z) s)
     = Returned None
  /\ log_label (snd (apply_overlay Scenario.world
                                   (PIL.Raster 1 "RGBA" (1024, 1024)%Z) s))
     = "Ready!" ++ PyStr.nl
         ++ "Overlay not found: /sdcard/SteamGridOverlay/icon_overlays/Dreamcast/overlay.png".
Proof.
  intros s. split; [reflexivity|].
  pose proof (proj1 (proj2 (proj2
                (apply_overlay_reports_failure Scenario.world
                   (PIL.Raster 1 "RGBA" (1024, 1024)%Z) s))) eq_refl) as E.
  rewrite E. split; reflexivity.
Defined.

(** ** The stages of one item *)

Lemma files_after_writes (t : list event) :
  files_after t = files_after (writes t).
Proof.
  unfold files_after, writes. generalize (@nil (Path * Image)).
  induction t as [|e t IH]; intros acc; [reflexivity|].
  cbn [fold_left filter]. unfold is_write at 1.
  destruct e as [c r]. cbn [ev_call ev_raised].
  destruct c; cbn [fold_left ev_call ev_raised]; apply IH.
Qed.

Lemma bind_fst {A B} (m : M A) (k : A -> M B) (s : App) (a : A) :
  fst (m s) = Returned a -> bind m k s = k a (snd (m s)).
Proof.
  unfold bind. destruct (m s) as [r s1]. simpl. intros ->. reflexivity.
Qed.

Lemma bind_fst_raised {A B} (m : M A) (k : A -> M B) (s : App) (e : exn) :
  fst (m s) = Raised e -> bind m k s = (Raised e, snd (m s)).
Proof.
  unfold bind. destruct (m s) as [r s1]. simpl. intros ->. reflexivity.
Qed.

Lemma bind_lift {A B} (a : A) (k : A -> M B) (s : App) :
  bind (lift (Returned a)) k s = k a s.
Proof. reflexivity. Qed.

Lemma bind_log {B} (message : string) (k : unit -> M B) (s : App) :
  bind (log message) k s = k tt (logged message s).
Proof. reflexivity. Qed.

Lemma bind_gets {A B} (f : App -> A) (k : A -> M B) (s : App) :
  bind (gets f) k s = k (f s) s.
Proof. reflexivity. Qed.

Lemma get_game_icons_trace (W : Outside) (game_id : json) (s : App) :
  exists raised,
    trace (snd (get_game_icons W game_id s))
    = (trace s ++ [MkEvent (icons_call W game_id s) raised])%list.
Proof.
  unfold get_game_icons, try_except, get, raise_for_status, response_json,
    icons_call, bearer.
  run_m.
  destruct (net_get W (trace s) _ _ _ 10) as [resp|e]; simpl; [|eauto].
  destruct ((400 <=? status_code resp)%Z && (status_code resp <? 600)%Z);
    simpl; [eauto|].
  destruct (decoded resp) as [body|]; simpl; [|eauto].
  destruct (Py.get body "data" (JArr [])) as [data|e]; simpl; [|eauto].
  destruct (Py.iterate data) as [grids|e]; simpl; [|eauto].
  destruct (keep_1024 grids); simpl; eauto.
Qed.

Lemma download_image_requests (W : Outside) (url : json) (s : App) :
  exists calls,
    trace (snd (download_image W url s)) = (trace s ++ calls)%list
    /\ forallb is_request calls = true.
Proof.
  rewrite download_image_unfolded.
  cbv zeta. cbn [snd trace set_trace]. eexists. split; reflexivity.
Qed.

Section Stages.

Variable W : Outside.
Variable game_name : string.
Variable s : App.

(** The search. *)
Variable results : json.
Hypothesis searched : fst (search_game W game_name s) = Returned results.

(** X4.  When the search comes back with nothing (an empty sequence, or
    any other false value, which is also what a failed request gives) the
    item ends there: it logs that the game was not found, and the search
    is the only call to the outside it has made. *)
Theorem not_found_ends_item :
  Py.truthy results = false ->
  process_single_game W game_name s
  = (Returned tt, logged NOT_FOUND (snd (search_game W game_name s)))
  /\ exists raised,
      trace (snd (process_single_game W game_name s))
      = (trace s ++ [MkEvent (search_call game_name s) raised])%list.
Proof.
  intros F.
  assert (E : process_single_game W game_name s
              = (Returned tt, logged NOT_FOUND (snd (search_game W game_name s)))).
  { rewrite process_single_game_caught. unfold process_single_game_body.
    rewrite (bind_fst _ _ _ _ searched), F. reflexivity. }
  split; [exact E|]. rewrite E.
  destruct (search_game_trace W game_name s) as (raised & T).
  exists raised. exact T.
Qed.

(** The record that is taken as the match, its name and its identifier. *)
Variables game found game_id : json.
Hypothesis some_result : Py.truthy results = true.
Hypothesis first_result : Py.getitem0 results = Returned game.
Hypothesis has_name : Py.getitem game "name" = Returned found.
Hypothesis has_id : Py.getitem game "id" = Returned game_id.

Let s1 : App := at_listing W game_name found s.

Lemma body_after_search :
  process_single_game_body W game_name s
  = bind (get_game_icons W game_id)
      (fun icons =>
         match icons with
         | [] => log NO_ICONS
         | icon :: _ =>
             log DOWNLOADING ;;
             url <- lift (Py.getitem icon "url") ;;
             img <- download_image W url ;;
             match img with
             | None => log DOWNLOAD_FAILED
             | Some img =>
                 result <- apply_overlay W img ;;
                 match result with
                 | None => log OVERLAY_FAILED
                 | Some result =>
                     console <- gets console_spinner ;;
                     mkdir W (output_dir_of W console) true true ;;
                     resolved <- lift (Py.getitem game "name") ;;
                     save W result (output_path_of W console resolved) "PNG" ;;
                     log SAVED
                 end
             end
         end) s1.
Proof.
  unfold process_single_game_body.
  rewrite (bind_fst _ _ _ _ searched), some_result. cbn [negb].
  rewrite first_result, bind_lift, has_name, bind_lift, bind_log.
  rewrite has_id, bind_lift. reflexivity.
Qed.

(** The icons. *)
Variable icons : list json.
Hypothesis listed : fst (get_game_icons W game_id s1) = Returned icons.

(** X5.  When the listing has no icon of the required size the item ends
    after the second request: it has logged the match and that no icons
    are available, and has started no download. *)
Theorem no_icons_ends_item :
  icons = [] ->
  process_single_game W game_name s
  = (Returned tt, logged NO_ICONS (snd (get_game_icons W game_id s1)))
  /\ exists raised1 raised2,
      trace (snd (process_single_game W game_name s))
      = (trace s ++ [MkEvent (search_call game_name s) raised1;
                     MkEvent (icons_call W game_id s) raised2])%list.
Proof.
  intros N.
  assert (E : process_single_game W game_name s
              = (Returned tt, logged NO_ICONS (snd (get_game_icons W game_id s1)))).
  { rewrite process_single_game_caught, body_after_search.
    rewrite (bind_fst _ _ _ _ listed), N. reflexivity. }
  split; [exact E|]. rewrite E.
  destruct (search_game_trace W game_name s) as (r1 & T1).
  destruct (get_game_icons_trace W game_id s1) as (r2 & T2).
  exists r1, r2. unfold logged at 1. cbn [snd trace set_log_label].
  rewrite T2. unfold s1 at 1, at_listing, logged at 1. cbn [trace set_log_label].
  rewrite T1, <- app_assoc.
  pose proof (steady_search_game W game_name s) as (_ & K & _).
  unfold icons_call, s1, at_listing, logged. cbn [api_key_input set_log_label].
  rewrite K. reflexivity.
Qed.

(** The icon that is taken, and its address. *)
Variable icon : json.
Variable others : list json.
Variable url : json.
Hypothesis some_icon : icons = icon :: others.
Hypothesis has_url : Py.getitem icon "url" = Returned url.

Let s2 : App := at_download W game_name found game_id s.

Lemma body_after_listing :
  process_single_game_body W game_name s
  = bind (download_image W url)
      (fun img =>
         match img with
         | None => log DOWNLOAD_FAILED
         | Some img =>
             result <- apply_overlay W img ;;
             match result with
             | None => log OVERLAY_FAILED
             | Some result =>
                 console <- gets console_spinner ;;
                 mkdir W (output_dir_of W console) true true ;;
                 resolved <- lift (Py.getitem game "name") ;;
                 save W result (output_path_of W console resolved) "PNG" ;;
                 log SAVED
             end
         end) s2.
Proof.
  rewrite body_after_search, (bind_fst _ _ _ _ listed), some_icon.
  rewrite bind_log, has_url, bind_lift. reflexivity.
Qed.

Lemma console_at_s2 : console_spinner s2 = console_spinner s.
Proof.
  unfold s2, at_download, logged. cbn [console_spinner set_log_label].
  pose proof (steady_get_game_icons W game_id s1) as (_ & _ & C2 & _).
  fold s1. rewrite C2. unfold s1, at_listing, logged. cbn [console_spinner set_log_label].
  now pose proof (steady_search_game W game_name s) as (_ & _ & C1 & _).
Qed.

Lemma requests_up_to_s2 :
  exists calls,
    trace s2 = (trace s ++ calls)%list /\ forallb is_request calls = true.
Proof.
  destruct (search_game_trace W game_name s) as (r1 & T1).
  destruct (get_game_icons_trace W game_id s1) as (r2 & T2).
  eexists. unfold s2, at_download, logged. cbn [trace set_log_label]. fold s1. rewrite T2.
  unfold s1 at 1, at_listing, logged. cbn [trace set_log_label]. rewrite T1, <- app_assoc.
  split; reflexivity.
Qed.

(** X6.  When the download gives no image the item ends with the line
    that the download failed.  Up to there the item has only made
    requests: nothing on the file system has been looked at or touched. *)
Theorem download_failure_ends_item :
  fst (download_image W url s2) = Returned None ->
  process_single_game W game_name s
  = (Returned tt, logged DOWNLOAD_FAILED (snd (download_image W url s2)))
  /\ exists calls,
      trace (snd (process_single_game W game_name s)) = (trace s ++ calls)%list
      /\ forallb is_request calls = true.
Proof.
  intros F.
  assert (E : process_single_game W game_name s
              = (Returned tt, logged DOWNLOAD_FAILED (snd (download_image W url s2)))).
  { rewrite process_single_game_caught, body_after_listing.
    rewrite (bind_fst _ _ _ _ F). reflexivity. }
  split; [exact E|]. rewrite E.
  destruct requests_up_to_s2 as (c1 & T1 & R1).
  destruct (download_image_requests W url s2) as (c2 & T2 & R2).
  exists (c1 ++ c2)%list. unfold logged at 1. cbn [snd trace set_log_label].
  rewrite T2, T1, <- app_assoc. split; [reflexivity|].
  rewrite forallb_app, R1, R2. reflexivity.
Qed.

(** The image that was downloaded. *)
Variable img : Image.
Hypothesis downloaded : fst (download_image W url s2) = Returned (Some img).

Let s3 : App := at_overlay W game_name found game_id url s.

Lemma body_after_download :
  process_single_game_body W game_name s
  = bind (apply_overlay W img)
      (fun result =>
         match result with
         | None => log OVERLAY_FAILED
         | Some result =>
             console <- gets console_spinner ;;
             mkdir W (output_dir_of W console) true true ;;
             resolved <- lift (Py.getitem game "name") ;;
             save W result (output_path_of W console resolved) "PNG" ;;
             log SAVED
         end) s3.
Proof.
  rewrite body_after_listing, (bind_fst _ _ _ _ downloaded). reflexivity.
Qed.

Lemma writes_up_to_s3 : writes (trace s3) = writes (trace s).
Proof.
  unfold s3, at_overlay. rewrite quiet_download_image.
  unfold at_download, logged. cbn [trace set_log_label]. rewrite quiet_get_game_icons.
  unfold at_listing, logged. cbn [trace set_log_label]. apply quiet_search_game.
Qed.

(** X7.  When the compositor gives no result (the overlay asset of the
    console is missing, or compositing failed) the item ends with the line
    that the overlay failed, and it has written nothing: the output
    directory has not even been created. *)
Theorem overlay_failure_ends_item :
  fst (apply_overlay W img s3) = Returned None ->
  process_single_game W game_name s
  = (Returned tt, logged OVERLAY_FAILED (snd (apply_overlay W img s3)))
  /\ writes (trace (snd (process_single_game W game_name s))) = writes (trace s)
  /\ files_after (trace (snd (process_single_game W game_name s)))
     = files_after (trace s).
Proof.
  intros F.
  assert (E : process_single_game W game_name s
              = (Returned tt, logged OVERLAY_FAILED (snd (apply_overlay W img s3)))).
  { rewrite process_single_game_caught, body_after_download.
    rewrite (bind_fst _ _ _ _ F). reflexivity. }
  assert (Q : writes (trace (snd (process_single_game W game_name s)))
              = writes (trace s)).
  { rewrite E. unfold logged at 1. cbn [snd trace set_log_label].
    rewrite quiet_apply_overlay. apply writes_up_to_s3. }
  split; [exact E|]. split; [exact Q|].
  rewrite files_after_writes, Q, <- files_after_writes. reflexivity.
Qed.

(** The composite. *)
Variable result : Image.
Hypothesis composited : fst (apply_overlay W img s3) = Returned (Some result).

Let s4 : App := at_save W game_name found game_id url img s.
Let console : string := console_spinner s.

Lemma console_at_s4 : console_spinner s4 = console.
Proof.
  unfold s4, at_save. pose proof (steady_apply_overlay W img s3) as (_ & _ & C4 & _).
  fold s3. rewrite C4. unfold s3, at_overlay.
  pose proof (steady_download_image W url s2) as (_ & _ & C3 & _).
  fold s2. rewrite C3. apply console_at_s2.
Qed.

Lemma body_after_overlay :
  process_single_game_body W game_name s
  = bind (mkdir W (output_dir_of W console) true true)
      (fun _ =>
         save W result (output_path_of W console found) "PNG" ;;
         log SAVED) s4.
Proof.
  rewrite body_after_download, (bind_fst _ _ _ _ composited).
  rewrite bind_gets. change (snd (apply_overlay W img s3)) with s4.
  rewrite console_at_s4.
  unfold bind at 1. unfold bind at 3.
  destruct (mkdir W (output_dir_of W console) true true s4) as [[[]|e] s5];
    [|reflexivity].
  rewrite has_name, bind_lift. reflexivity.
Qed.

(** X8.  When every stage succeeds the item creates the output directory
    of the console, recursively and tolerating an existing one, saves the
    composite as PNG under the name of the match, and only then logs that
    it is saved; the composite is then the file at that path. *)
Theorem saved_item :
  fs_mkdir W (trace s4) (output_dir_of W console) true true = Returned tt ->
  img_save W (trace s4 ++ [mkdir_event W console false]) result
           (output_path_of W console found) "PNG"
  = Returned tt ->
  process_single_game W game_name s
  = (Returned tt,
     logged SAVED
       (set_trace (trace s4 ++ [mkdir_event W console false;
                                save_event W console found result false]) s4))
  /\ In (output_path_of W console found, result)
        (files_after (trace (snd (process_single_game W game_name s)))).
Proof.
  intros Hm Hs.
  assert (E : process_single_game W game_name s
              = (Returned tt,
                 logged SAVED
                   (set_trace (trace s4 ++ [mkdir_event W console false;
                                            save_event W console found result false])
                              s4))).
  { rewrite process_single_game_caught, body_after_overlay.
    unfold mkdir, save. run_m. rewrite Hm. cbn [is_raised trace set_trace].
    unfold mkdir_event in Hs. rewrite Hs. cbn [is_raised].
    unfold logged, mkdir_event, save_event. cbn [set_log_label set_trace log_label trace].
    rewrite <- app_assoc. reflexivity. }
  split; [exact E|]. rewrite E.
  unfold logged at 1. cbn [snd trace set_log_label set_trace].
  change (trace s4 ++ [mkdir_event W console false;
                       save_event W console found result false])%list
    with (trace s4 ++ ([mkdir_event W console false]
                         ++ [save_event W console found result false]))%list.
  rewrite app_assoc, files_after_snoc. cbn [ev_call ev_raised save_event].
  apply store_binds.
Qed.

Lemma writes_up_to_s4 : writes (trace s4) = writes (trace s).
Proof.
  unfold s4, at_save. fold s3. rewrite quiet_apply_overlay. apply writes_up_to_s3.
Qed.

(** X9.  When the output directory cannot be created, or the save raises,
    the item ends normally with the line [Error:] and the message of the
    exception.  A failed creation is not followed by a save: the creation
    is then the only write the item has attempted.  A failed save comes
    after the creation and is the last call of the item, with no line
    that the icon is saved. *)
Theorem persistence_failure_is_an_error (e : exn) :
  (fs_mkdir W (trace s4) (output_dir_of W console) true true = Raised e ->
   process_single_game W game_name s
   = (Returned tt,
      logged (ERROR (exn_str e))
             (set_trace (trace s4 ++ [mkdir_event W console true]) s4))
   /\ writes (trace (snd (process_single_game W game_name s)))
      = (writes (trace s) ++ [mkdir_event W console true])%list)
  /\ (fs_mkdir W (trace s4) (output_dir_of W console) true true = Returned tt ->
      img_save W (trace s4 ++ [mkdir_event W console false]) result
               (output_path_of W console found) "PNG"
      = Raised e ->
      process_single_game W game_name s
      = (Returned tt,
         logged (ERROR (exn_str e))
                (set_trace (trace s4 ++ [mkdir_event W console false;
                                         save_event W console found result true])
                           s4))
      /\ writes (trace (snd (process_single_game W game_name s)))
         = (writes (trace s) ++ [mkdir_event W console false;
                                 save_event W console found result true])%list).
Proof.
  split.
  - intros Hm.
    assert (E : process_single_game W game_name s
                = (Returned tt,
                   logged (ERROR (exn_str e))
                     (set_trace (trace s4 ++ [mkdir_event W console true]) s4))).
    { rewrite process_single_game_caught, body_after_overlay.
      unfold mkdir. run_m. rewrite Hm. reflexivity. }
    split; [exact E|]. rewrite E.
    unfold logged at 1. cbn [snd trace set_log_label set_trace].
    rewrite writes_snoc, writes_up_to_s4. reflexivity.
  - intros Hm Hs.
    assert (E : process_single_game W game_name s
                = (Returned tt,
                   logged (ERROR (exn_str e))
                     (set_trace (trace s4 ++ [mkdir_event W console false;
                                              save_event W console found result true])
                                s4))).
    { rewrite process_single_game_caught, body_after_overlay.
      unfold mkdir, save. run_m. rewrite Hm. cbn [is_raised trace set_trace].
      unfold mkdir_event in Hs. rewrite Hs. cbn [is_raised].
      unfold logged, mkdir_event, save_event, ERROR, error_line.
      cbn [set_log_label set_trace log_label trace].
      rewrite <- app_assoc. reflexivity. }
    split; [exact E|]. rewrite E.
    unfold logged at 1. cbn [snd trace set_log_label set_trace].
    change (trace s4 ++ [mkdir_event W console false;
                         save_event W console found result true])%list
      with (trace s4 ++ ([mkdir_event W console false]
                           ++ [save_event W console found result true]))%list.
    rewrite app_assoc, !writes_snoc, writes_up_to_s4, <- app_assoc. reflexivity.
Qed.

End Stages.

Lemma not_found_ends_item_witness :
  let s := Scenario.app ["Gone"] in
  fst (search_game Scenario.world "Gone" s) = Returned (JArr [])
  /\ Py.truthy (JArr []) = false
  /\ log_label (snd (process_single_game Scenario.world "Gone" s))
     = "Ready!" ++ PyStr.nl ++ NOT_FOUND.
Proof.
  intros s. split; [reflexivity|]. split; [reflexivity|].
  rewrite (proj1 (not_found_ends_item Scenario.world "Gone" s (JArr [])
                    eq_refl eq_refl)).
  reflexivity.
Defined.

Lemma no_icons_ends_item_witness :
  let s := Scenario.app ["Halo"] in
  fst (search_game Cases.no_icons "Halo" s) = Returned (JArr [Scenario.halo])
  /\ fst (get_game_icons Cases.no_icons (JInt 1)
            (at_listing Cases.no_icons "Halo" (JStr "Halo") s))
     = Returned []
  /\ log_label (snd (process_single_game Cases.no_icons "Halo" s))
     = "Ready!" ++ PyStr.nl ++ FOUND "Halo" ++ PyStr.nl ++ NO_ICONS.
Proof.
  intros s. split; [reflexivity|]. split; [reflexivity|].
  rewrite (proj1 (no_icons_ends_item Cases.no_icons "Halo" s
                    (JArr [Scenario.halo]) eq_refl
                    Scenario.halo (JStr "Halo") (JInt 1)
                    eq_refl eq_refl eq_refl eq_refl [] eq_refl eq_refl)).
  reflexivity.
Defined.

Lemma download_failure_ends_item_witness :
  let s := Scenario.app ["Halo"] in
  fst (download_image Cases.bad_image (JStr "https://cdn.example/b.png")
         (at_download Cases.bad_image "Halo" (JStr "Halo") (JInt 1) s))
  = Returned None
  /\ log_label (snd (process_single_game Cases.bad_image "Halo" s))
     = "Ready!" ++ PyStr.nl ++ FOUND "Halo" ++ PyStr.nl ++ DOWNLOADING
         ++ PyStr.nl ++ DOWNLOAD_FAILED.
Proof.
  intros s. split; [reflexivity|].
  rewrite (proj1 (download_failure_ends_item Cases.bad_image "Halo" s
                    (JArr [Scenario.halo]) eq_refl
                    Scenario.halo (JStr "Halo") (JInt 1)
                    eq_refl eq_refl eq_refl eq_refl
                    [Scenario.grid "https://cdn.example/b.png" 1024 1024] eq_refl
                    (Scenario.grid "https://cdn.example/b.png" 1024 1024) []
                    (JStr "https://cdn.example/b.png")
                    eq_refl eq_refl eq_refl)).
  reflexivity.
Defined.

Lemma overlay_failure_ends_item_witness :
  let s := set_console_spinner "Dreamcast" (Scenario.app ["Halo"]) in
  let img := PIL.Convert (PIL.Raster 1 "RGB" (1024, 1024)%Z) "RGBA" in
  fst (apply_overlay Scenario.world img
         (at_overlay Scenario.world "Halo" (JStr "Halo") (JInt 1)
                     (JStr "https://cdn.example/b.png") s))
  = Returned None
  /\ writes (trace (snd (process_single_game Scenario.world "Halo" s))) = []
  /\ files_after (trace (snd (process_single_game Scenario.world "Halo" s))) = [].
Proof.
  intros s img. split; [reflexivity|].
  exact (proj2 (overlay_failure_ends_item Scenario.world "Halo" s
                  (JArr [Scenario.halo]) eq_refl
                  Scenario.halo (JStr "Halo") (JInt 1)
                  eq_refl eq_refl eq_refl eq_refl
                  [Scenario.grid "https://cdn.example/b.png" 1024 1024] eq_refl
                  (Scenario.grid "https://cdn.example/b.png" 1024 1024) []
                  (JStr "https://cdn.example/b.png")
                  eq_refl eq_refl img eq_refl eq_refl)).
Defined.

Lemma saved_item_witness :
  let s := Scenario.app ["Halo"] in
  let img := PIL.Convert (PIL.Raster 1 "RGB" (1024, 1024)%Z) "RGBA" in
  let result :=
    PIL.AlphaComposite
      (PIL.PutAlpha img (rounded_mask img))
      (PIL.Resize (PIL.Convert (PIL.Raster 2 "RGBA" (512, 512)%Z) "RGBA")
                  (1024, 1024)%Z "LANCZOS") in
  fst (apply_overlay Scenario.world img
         (at_overlay Scenario.world "Halo" (JStr "Halo") (JInt 1)
                     (JStr "https://cdn.example/b.png") s))
  = Returned (Some result)
  /\ In (output_path_of Scenario.world "NES" (JStr "Halo"), result)
        (files_after (trace (snd (process_single_game Scenario.world "Halo" s)))).
Proof.
  intros s img result. split; [reflexivity|].
  exact (proj2 (saved_item Scenario.world "Halo" s
                  (JArr [Scenario.halo]) eq_refl
                  Scenario.halo (JStr "Halo") (JInt 1)
                  eq_refl eq_refl eq_refl eq_refl
                  [Scenario.grid "https://cdn.example/b.png" 1024 1024] eq_refl
                  (Scenario.grid "https://cdn.example/b.png" 1024 1024) []
                  (JStr "https://cdn.example/b.png")
                  eq_refl eq_refl img eq_refl result eq_refl eq_refl eq_refl)).
Defined.

Lemma persistence_failure_is_an_error_witness :
  let s := Scenario.app ["Halo"] in
  let img := PIL.Convert (PIL.Raster 1 "RGB" (1024, 1024)%Z) "RGBA" in
  let e := Exn "PermissionError"
               "[Errno 13] Permission denied: '/sdcard/SteamGridOverlay/Output/NES'" in
  fs_mkdir Cases.read_only
           (trace (at_save Cases.read_only "Halo" (JStr "Halo") (JInt 1)
                           (JStr "https://cdn.example/b.png") img s))
           (output_dir_of Cases.read_only "NES") true true
  = Raised e
  /\ log_label (snd (process_single_game Cases.read_only "Halo" s))
     = "Ready!" ++ PyStr.nl ++ FOUND "Halo" ++ PyStr.nl ++ DOWNLOADING
         ++ PyStr.nl
         ++ ERROR "[Errno 13] Permission denied: '/sdcard/SteamGridOverlay/Output/NES'"
  /\ writes (trace (snd (process_single_game Cases.read_only "Halo" s)))
     = [mkdir_event Cases.read_only "NES" true].
Proof.
  intros s img e. split; [reflexivity|].
  pose proof (proj1 (persistence_failure_is_an_error Cases.read_only "Halo" s
                    (JArr [Scenario.halo]) eq_refl
                    Scenario.halo (JStr "Halo") (JInt 1)
                    eq_refl eq_refl eq_refl eq_refl
                    [Scenario.grid "https://cdn.example/b.png" 1024 1024] eq_refl
                    (Scenario.grid "https://cdn.example/b.png" 1024 1024) []
                    (JStr "https://cdn.example/b.png")
                    eq_refl eq_refl img eq_refl
                    (PIL.AlphaComposite
                       (PIL.PutAlpha img (rounded_mask img))
                       (PIL.Resize (PIL.Convert (PIL.Raster 2 "RGBA" (512, 512)%Z) "RGBA")
                                   (1024, 1024)%Z "LANCZOS"))
                    eq_refl e) eq_refl) as [E Wr].
  split; [rewrite E; reflexivity|exact Wr].
Defined.

(** ** What a run changes *)

Section Keeps.

Variable R : App -> App -> Prop.
Hypothesis R_refl : forall s, R s s.
Hypothesis R_trans : forall a b c, R a b -> R b c -> R a c.
Hypothesis R_log : forall s lines, R s (set_log_label (log_label s ++ lines) s).
Hypothesis R_call : forall s e, R s (set_trace (trace s ++ [e]) s).

Lemma keeps_ret {A} (a : A) : keeps R (ret a).
Proof. intros s. apply R_refl. Qed.

Lemma keeps_raise {A} (e : exn) : keeps R (@raise A e).
Proof. intros s. apply R_refl. Qed.

Lemma keeps_lift {A} (r : outcome A) : keeps R (lift r).
Proof. intros s. apply R_refl. Qed.

Lemma keeps_gets {A} (f : App -> A) : keeps R (gets f).
Proof. intros s. apply R_refl. Qed.

Lemma keeps_log (message : string) : keeps R (log message).
Proof. intros s. apply R_log. Qed.

Lemma keeps_external {A} (c : call) (oracle : list event -> outcome A) :
  keeps R (external c oracle).
Proof. intros s. apply R_call. Qed.

Lemma keeps_bind {A B} (m : M A) (k : A -> M B) :
  keeps R m -> (forall a, keeps R (k a)) -> keeps R (bind m k).
Proof.
  intros Hm Hk s. unfold bind. specialize (Hm s).
  destruct (m s) as [[a|e] s1]; simpl in *; [|assumption].
  eapply R_trans; [exact Hm | apply Hk].
Qed.

Lemma keeps_try_except {A} (body : M A) (handler : exn -> M A) :
  keeps R body -> (forall e, keeps R (handler e)) ->
  keeps R (try_except body handler).
Proof.
  intros Hb Hh s. unfold try_except. specialize (Hb s).
  destruct (body s) as [[a|e] s1]; simpl in *; [assumption|].
  eapply R_trans; [exact Hb | apply Hh].
Qed.

Ltac keeps :=
  repeat first
    [ match goal with H : forall _, keeps R _ |- _ => apply H end
    | apply keeps_ret | apply keeps_raise | apply keeps_lift
    | apply keeps_gets | apply keeps_log | apply keeps_external
    | apply keeps_bind; [|intros]
    | apply keeps_try_except; [|intros]
    | match goal with
      | |- keeps R (if ?b then _ else _) => destruct b
      | |- keeps R (match ?x with _ => _ end) => destruct x
      end ].

Variable W : Outside.

Lemma keeps_raise_for_status (r : Response) : keeps R (raise_for_status r).
Proof. unfold raise_for_status. keeps. Qed.

Lemma keeps_response_json (r : Response) : keeps R (response_json r).
Proof. unfold response_json. keeps. Qed.

Lemma keeps_search_game (game_name : string) : keeps R (search_game W game_name).
Proof.
  unfold search_game, get.
  pose proof keeps_raise_for_status. pose proof keeps_response_json. keeps.
Qed.

Lemma keeps_get_game_icons (game_id : json) : keeps R (get_game_icons W game_id).
Proof.
  unfold get_game_icons, get.
  pose proof keeps_raise_for_status. pose proof keeps_response_json. keeps.
Qed.

Lemma keeps_download_image (url : json) : keeps R (download_image W url).
Proof. unfold download_image, get. pose proof keeps_raise_for_status. keeps. Qed.

Lemma keeps_apply_overlay (base_image : Image) : keeps R (apply_overlay W base_image).
Proof. unfold apply_overlay, exists_, open. keeps. Qed.

Lemma keeps_process_single_game (game_name : string) :
  keeps R (process_single_game W game_name).
Proof.
  unfold process_single_game, process_single_game_body, mkdir, save.
  pose proof keeps_search_game. pose proof keeps_get_game_icons.
  pose proof keeps_download_image. pose proof keeps_apply_overlay.
  keeps.
Qed.

Lemma keeps_process_item (item : nat * string) : keeps R (process_item W item).
Proof. unfold process_item. pose proof keeps_process_single_game. keeps. Qed.

Lemma keeps_all_processed (items : list (nat * string)) (s : App) :
  R s (all_processed W items s).
Proof.
  revert s. induction items as [|item rest IH]; intros s; simpl.
  - apply R_refl.
  - eapply R_trans; [apply keeps_process_item | apply IH].
Qed.

End Keeps.

Lemma append_empty_r (a : string) : a ++ "" = a.
Proof. induction a as [|c r IH]; simpl; [reflexivity|now rewrite IH]. Qed.

Lemma reports_refl (s : App) : reports s s.
Proof.
  unfold reports. repeat (split; [reflexivity|]). split.
  - exists "". now rewrite append_empty_r.
  - exists []. now rewrite app_nil_r.
Qed.

Lemma reports_trans (a b c : App) : reports a b -> reports b c -> reports a c.
Proof.
  intros (q1 & n1 & k1 & c1 & o1 & l1 & w1 & u1 & p1 & (x1 & g1) & (t1 & e1))
         (q2 & n2 & k2 & c2 & o2 & l2 & w2 & u2 & p2 & (x2 & g2) & (t2 & e2)).
  unfold reports. repeat (split; [congruence|]). split.
  - exists (x1 ++ x2). rewrite g2, g1. apply append_assoc.
  - exists (t1 ++ t2)%list. rewrite e2, e1. now rewrite app_assoc.
Qed.

Lemma reports_log (s : App) (lines : string) :
  reports s (set_log_label (log_label s ++ lines) s).
Proof.
  unfold reports. repeat (split; [reflexivity|]). split.
  - exists lines. reflexivity.
  - exists []. simpl. now rewrite app_nil_r.
Qed.

Lemma reports_call (s : App) (e : event) :
  reports s (set_trace (trace s ++ [e]) s).
Proof.
  unfold reports. repeat (split; [reflexivity|]). split.
  - exists "". simpl. now rewrite append_empty_r.
  - exists [e]. reflexivity.
Qed.

(** X10.  Pressing the process button never raises and always ends with
    exactly one new popup.  Apart from that popup the run only reports:
    the log keeps what it had and gets longer, the history grows, and the
    queue, its cards, the name field, the credential, the selected console
    and the overlays folder are as they were; the queue is not cleared. *)
Theorem process_games_only_reports (W : Outside) (s : App) :
  exists message reported,
    process_games W s = (Returned tt, popup message reported)
    /\ reports s reported.
Proof.
  destruct (game_queue s) as [|first rest] eqn:Q.
  { exists EMPTY_QUEUE, s. split; [|apply reports_refl].
    unfold process_games, bind, gets. rewrite Q. reflexivity. }
  destruct (PyStr.is_empty (PyStr.strip (api_key_input s))) eqn:K.
  { exists NO_API_KEY, s. split; [|apply reports_refl].
    unfold process_games, bind, gets. rewrite Q, K. reflexivity. }
  destruct (PyStr.mem (console_spinner s) NO_SELECTION) eqn:C.
  { exists NO_CONSOLE, s. split; [|apply reports_refl].
    unfold process_games, bind, gets. rewrite Q, K, C. reflexivity. }
  exists (COMPLETE (List.length (game_queue s))).
  exists (logged complete_line
            (all_processed W (enumerate (game_queue s) 1)
               (logged (header_line (List.length (game_queue s))) s))).
  split.
  - apply process_games_accepted; [rewrite Q; discriminate|assumption|assumption].
  - apply reports_trans
      with (b := logged (header_line (List.length (game_queue s))) s);
      [apply reports_log|].
    apply reports_trans
      with (b := all_processed W (enumerate (game_queue s) 1)
                   (logged (header_line (List.length (game_queue s))) s));
      [|apply reports_log].
    apply (keeps_all_processed reports reports_refl reports_trans
                               reports_log reports_call).
Qed.

(** ** The cards and the queue *)

Lemma remove_widget_unique (w : Card) (layout : list Card) :
  NoDup (map card_id layout) -> In w layout ->
  exists l1 l2,
    layout = (l1 ++ w :: l2)%list /\ remove_widget w layout = (l1 ++ l2)%list.
Proof.
  induction layout as [|c rest IH]; [intros _ []|].
  intros N H. inversion N as [|? ? Hc N']; subst.
  unfold remove_widget in *. cbn [filter].
  destruct H as [->|H].
  - rewrite Nat.eqb_refl. cbn [negb]. exists [], rest. split; [reflexivity|].
    simpl. apply forallb_filter_id.
    apply forallb_forall. intros x Hx.
    destruct (Nat.eqb (card_id x) (card_id w)) eqn:E; [|reflexivity].
    apply Nat.eqb_eq in E. exfalso. apply Hc. rewrite <- E. now apply in_map.
  - destruct (IH N' H) as (l1 & l2 & -> & R).
    destruct (Nat.eqb (card_id c) (card_id w)) eqn:E.
    + apply Nat.eqb_eq in E. exfalso. apply Hc. rewrite E.
      apply in_map. apply in_elt.
    + cbn [negb]. exists (c :: l1), l2. split; [reflexivity|].
      simpl. now rewrite R.
Qed.

Lemma add_game_agrees (text : string) (s : App) :
  cards_agree s -> cards_agree (snd (handle (PressAdd text) s)).
Proof.
  intros (P & N & B). cbn [handle]. unfold add_game. run_m.
  cbn [game_name_input set_game_name_input].
  destruct (PyStr.is_empty (PyStr.strip text)); cbn [negb].
  - repeat split; assumption.
  - unfold cards_agree.
    cbn [queue_layout game_queue widgets_made set_game_queue set_queue_layout
         set_game_name_input set_log_label].
    rewrite !map_app. cbn [map card_name card_id]. repeat split.
    + now apply Permutation_app_tail.
    + apply NoDup_app; [assumption|repeat constructor; intros []|].
      intros x Hx [<-|[]]. apply in_map_iff in Hx. destruct Hx as (c & E & Hc).
      rewrite Forall_forall in B. specialize (B c Hc). lia.
    + apply Forall_app. split.
      * eapply Forall_impl; [|exact B]. simpl. lia.
      * repeat constructor.
Qed.

Lemma remove_game_agrees (card : Card) (s : App) :
  In card (queue_layout s) -> cards_agree s ->
  cards_agree (snd (remove_game card (card_name card) s)).
Proof.
  intros H (P & N & B).
  destruct (remove_game_runs card (card_name card) s) as (q' & -> & Hq).
  unfold cards_agree.
  cbn [snd queue_layout game_queue widgets_made set_game_queue set_queue_layout
       set_log_label].
  destruct (remove_widget_unique card (queue_layout s) N H) as (l1 & l2 & L & R).
  rewrite R. rewrite L in P, N, B.
  destruct Hq as [[Hn _]|(before & after & Q & _ & ->)].
  { exfalso. apply Hn. eapply Permutation_in; [exact P|].
    apply in_map. apply in_elt. }
  rewrite Q in P. rewrite map_app in P, N. cbn [map] in P, N. repeat split.
  - rewrite map_app. eapply Permutation_app_inv. exact P.
  - rewrite map_app. eapply NoDup_remove_1. exact N.
  - apply Forall_app in B. destruct B as [B1 B2]. inversion B2; subst.
    apply Forall_app. now split.
Qed.

Lemma handle_agrees (p : press) (s : App) :
  cards_agree s -> cards_agree (snd (handle p s)).
Proof.
  destruct p as [text|id|].
  - apply add_game_agrees.
  - intros A. cbn [handle]. rewrite bind_gets.
    destruct (find _ (queue_layout s)) as [card|] eqn:F; [|exact A].
    apply remove_game_agrees; [|exact A].
    apply find_some in F. tauto.
  - intros _. unfold cards_agree. cbn. repeat split; constructor.
Qed.

(** X11.  Whatever a user presses on the queue (add with any text, the
    remove button of any card, clear), the cards and the queue keep
    agreeing: the cards carry the names of the queue, each as often as it
    is queued, though not always in the same order; no widget appears
    twice; so there are as many cards as queued names, and a remove button
    always finds its name in the queue. *)
Theorem cards_follow_the_queue (ps : list press) (s : App) :
  cards_agree s ->
  cards_agree (presses ps s)
  /\ List.length (queue_layout (presses ps s))
     = List.length (game_queue (presses ps s))
  /\ forall card, In card (queue_layout (presses ps s)) ->
                  In (card_name card) (game_queue (presses ps s)).
Proof.
  intros A.
  assert (G : cards_agree (presses ps s)).
  { revert s A. induction ps as [|p ps IH]; intros s A; [exact A|].
    apply IH. now apply handle_agrees. }
  split; [exact G|]. destruct G as (P & _). split.
  - rewrite <- (Permutation_length P). now rewrite length_map.
  - intros card H. eapply Permutation_in; [exact P|]. now apply in_map.
Qed.

Lemma cards_follow_the_queue_witness :
  let ps := [PressAdd "A"; PressAdd "B"; PressAdd " A "; PressRemove 2;
             PressAdd ""; PressRemove 7] in
  cards_agree (Scenario.app [])
  /\ game_queue (presses ps (Scenario.app [])) = ["B"; "A"]
  /\ map card_name (queue_layout (presses ps (Scenario.app []))) = ["A"; "B"]
  /\ cards_agree (presses ps (Scenario.app [])).
Proof.
  intros ps.
  assert (A : cards_agree (Scenario.app [])).
  { repeat split; constructor. }
  split; [exact A|]. split; [reflexivity|]. split; [reflexivity|].
  exact (proj1 (cards_follow_the_queue ps (Scenario.app []) A)).
Defined.

(** ** The names that get queued *)

Lemma lstrip_cons (back : bool) (c1 : ascii) (r1 : list ascii) :
  PyStr.lstrip_bytes back (c1 :: r1)
  = if PyStr.space1 c1 then PyStr.lstrip_bytes back r1
    else match r1 with
         | c2 :: r2 =>
             if (if back then PyStr.space2 c2 c1 else PyStr.space2 c1 c2)
             then PyStr.lstrip_bytes back r2
             else match r2 with
                  | c3 :: r3 =>
                      if (if back then PyStr.space3 c3 c2 c1
                          else PyStr.space3 c1 c2 c3)
                      then PyStr.lstrip_bytes back r3
                      else c1 :: r1
                  | [] => c1 :: r1
                  end
         | [] => c1 :: r1
         end.
Proof. reflexivity. Qed.

(** What is stripped is a prefix: the result is what is left after it. *)
Lemma lstrip_suffix (back : bool) (n : nat) :
  forall l, List.length l <= n ->
            exists p, l = (p ++ PyStr.lstrip_bytes back l)%list.
Proof.
  induction n as [|n IH]; intros l H.
  - destruct l; [|simpl in H; lia]. exists []. reflexivity.
  - destruct l as [|c1 r1]; [exists []; reflexivity|]. rewrite lstrip_cons.
    simpl in H.
    destruct (PyStr.space1 c1).
    { destruct (IH r1) as (p & E); [lia|]. exists (c1 :: p). simpl. now f_equal. }
    destruct r1 as [|c2 r2]; [exists []; reflexivity|]. simpl in H.
    destruct (if back then PyStr.space2 c2 c1 else PyStr.space2 c1 c2).
    { destruct (IH r2) as (p & E); [lia|]. exists (c1 :: c2 :: p). simpl.
      now do 2 f_equal. }
    destruct r2 as [|c3 r3]; [exists []; reflexivity|]. simpl in H.
    destruct (if back then PyStr.space3 c3 c2 c1 else PyStr.space3 c1 c2 c3).
    { destruct (IH r3) as (p & E); [lia|]. exists (c1 :: c2 :: c3 :: p). simpl.
      now do 3 f_equal. }
    exists []. reflexivity.
Qed.

Lemma lstrip_length (back : bool) (l : list ascii) :
  List.length (PyStr.lstrip_bytes back l) <= List.length l.
Proof.
  destruct (lstrip_suffix back (List.length l) l (le_n _)) as (p & E).
  rewrite E at 2. rewrite length_app. lia.
Qed.

(** Nothing is left to strip from a stripped list. *)
Lemma lstrip_again (back : bool) (n : nat) :
  forall l, List.length l <= n ->
            PyStr.lstrip_bytes back (PyStr.lstrip_bytes back l)
            = PyStr.lstrip_bytes back l.
Proof.
  induction n as [|n IH]; intros l H.
  - destruct l; [reflexivity|simpl in H; lia].
  - destruct l as [|c1 r1]; [reflexivity|]. rewrite (lstrip_cons back c1 r1).
    simpl in H.
    destruct (PyStr.space1 c1) eqn:E1; [apply IH; lia|].
    destruct r1 as [|c2 r2]; [now rewrite lstrip_cons, E1|]. simpl in H.
    destruct (if back then PyStr.space2 c2 c1 else PyStr.space2 c1 c2) eqn:E2;
      [apply IH; lia|].
    destruct r2 as [|c3 r3]; [now rewrite lstrip_cons, E1, E2|]. simpl in H.
    destruct (if back then PyStr.space3 c3 c2 c1 else PyStr.space3 c1 c2 c3) eqn:E3;
      [apply IH; lia|].
    now rewrite lstrip_cons, E1, E2, E3.
Qed.

(** A prefix of a list with nothing to strip in front has nothing to strip
    in front either. *)
Lemma lstrip_prefix (x z : list ascii) :
  PyStr.lstrip_bytes false (x ++ z) = (x ++ z)%list ->
  PyStr.lstrip_bytes false x = x.
Proof.
  assert (shorter : forall (l tail : list ascii),
             List.length tail < List.length l ->
             PyStr.lstrip_bytes false tail <> l).
  { intros l tail L E. pose proof (lstrip_length false tail). rewrite E in *. lia. }
  destruct x as [|c1 r1]; [reflexivity|].
  cbn [app]. rewrite !lstrip_cons.
  destruct (PyStr.space1 c1).
  { intros E. apply shorter in E; [tauto|simpl; lia]. }
  destruct r1 as [|c2 r2]; [reflexivity|].
  cbn [app]. destruct (PyStr.space2 c1 c2).
  { intros E. apply shorter in E; [tauto|simpl; lia]. }
  destruct r2 as [|c3 r3]; [reflexivity|].
  cbn [app]. destruct (PyStr.space3 c1 c2 c3); [|reflexivity].
  intros E. apply shorter in E; [tauto|simpl; lia].
Qed.

Lemma strip_again (text : string) :
  PyStr.strip (PyStr.strip text) = PyStr.strip text.
Proof.
  unfold PyStr.strip. rewrite list_ascii_of_string_of_list_ascii.
  set (y := PyStr.lstrip_bytes false (list_ascii_of_string text)).
  set (w := PyStr.lstrip_bytes true (rev y)).
  assert (Fy : PyStr.lstrip_bytes false y = y).
  { apply (lstrip_again false _ _ (le_n _)). }
  destruct (lstrip_suffix true _ (rev y) (le_n _)) as (p & E). fold w in E.
  assert (Ey : y = (rev w ++ rev p)%list).
  { rewrite <- (rev_involutive y), E, rev_app_distr. reflexivity. }
  assert (Fx : PyStr.lstrip_bytes false (rev w) = rev w).
  { apply (lstrip_prefix (rev w) (rev p)). now rewrite <- Ey. }
  rewrite Fx, rev_involutive.
  unfold w. now rewrite (lstrip_again true _ _ (le_n _)).
Qed.

Lemma remove_game_incl (widget : Card) (game_name : string) (s : App) :
  incl (game_queue (snd (remove_game widget game_name s))) (game_queue s).
Proof.
  destruct (remove_game_runs widget game_name s) as (q' & -> & H). simpl.
  destruct H as [[_ ->]|(before & after & -> & _ & ->)]; [apply incl_refl|].
  intros x Hx. apply in_app_or in Hx. apply in_or_app. simpl. tauto.
Qed.

(** X12.  Every name in the queue is the stripped form of what was typed:
    it is not empty, it has no white space at either end (stripping it
    again gives the same name), and this stays so through any sequence of
    add, remove and clear operations. *)
Theorem queued_names_are_stripped (ops : list op) (s : App) :
  Forall (fun name => name <> "" /\ PyStr.strip name = name) (game_queue s) ->
  Forall (fun name => name <> "" /\ PyStr.strip name = name)
         (game_queue (run ops s)).
Proof.
  revert s. induction ops as [|o ops IH]; intros s H; [exact H|].
  apply IH. destruct o as [text|widget game_name|].
  - rewrite add_game_queue.
    destruct (PyStr.is_empty (PyStr.strip text)) eqn:E; [exact H|].
    apply Forall_app. split; [exact H|]. constructor; [|constructor]. split.
    + intros F. rewrite F in E. discriminate.
    + apply strip_again.
  - cbn [perform]. rewrite Forall_forall in *. intros x Hx. apply H.
    eapply remove_game_incl. exact Hx.
  - constructor.
Qed.

Lemma queued_names_are_stripped_witness :
  Forall (fun name => name <> "" /\ PyStr.strip name = name)
         (game_queue (Scenario.app []))
  /\ Forall (fun name => name <> "" /\ PyStr.strip name = name)
            (game_queue (run [Add "  Halo "; Add " "; Add "Doom"] (Scenario.app []))).
Proof.
  assert (H : Forall (fun name => name <> "" /\ PyStr.strip name = name)
                     (game_queue (Scenario.app []))) by constructor.
  split; [exact H|].
  exact (queued_names_are_stripped [Add "  Halo "; Add " "; Add "Doom"]
                                   (Scenario.app []) H).
Defined.

(** ** The registry, the selection and the compositor *)

Lemma plain_name_parses (entry : string) :
  plain_name entry = true -> Pathlib.of_str entry = Pathlib.MkPath "" [entry].
Proof.
  unfold plain_name. intros H. apply andb_true_iff in H. destruct H as [K S].
  pose proof (concat_split_slash entry) as C.
  destruct (Pathlib.split_slash entry) as [|x [|y l]] eqn:E; try discriminate.
  simpl in C. subst x.
  rewrite of_str_relative_normal; [now rewrite E|].
  unfold relative_normal. rewrite E. simpl. now rewrite K.
Qed.

(** X13.  Unless the overlays field is empty, the compositor looks for the
    overlay of a selected console at the very path the registry tested
    when it listed that console.  With an empty field the two part ways:
    the registry scans the default folder, the compositor looks under the
    current directory. *)
Theorem compositor_looks_where_registry_listed (W : Outside) (s : App)
        (entry : string) :
  (overlays_path_input s <> Some "" ->
   plain_name entry = true ->
   overlay_path_of W (set_console_spinner entry s)
   = Pathlib.child (registry_folder W s) entry // "overlay.png")
  /\ (overlays_path_input s = Some "" ->
      registry_folder W s = DEFAULT_OVERLAYS W
      /\ Pathlib.to_str (compositor_folder W s) = ".").
Proof.
  split.
  - intros N P. unfold overlay_path_of, compositor_folder, registry_folder.
    cbn [overlays_path_input console_spinner set_console_spinner].
    assert (J : forall folder, folder // entry = Pathlib.child folder entry).
    { intros folder. unfold Pathlib.join. rewrite (plain_name_parses entry P).
      reflexivity. }
    destruct (overlays_path_input s) as [text|]; [|now rewrite J].
    destruct text as [|c r]; [congruence|]. cbn [PyStr.is_empty]. now rewrite J.
  - intros E. unfold registry_folder, compositor_folder. rewrite E. split; reflexivity.
Qed.

Lemma compositor_looks_where_registry_listed_witness :
  overlays_path_input (Scenario.app []) <> Some ""
  /\ plain_name "NES" = true
  /\ Pathlib.to_str (overlay_path_of Scenario.world
                                    (set_console_spinner "NES" (Scenario.app [])))
     = "/sdcard/SteamGridOverlay/icon_overlays/NES/overlay.png".
Proof.
  assert (N : overlays_path_input (Scenario.app []) <> Some "") by discriminate.
  split; [exact N|]. split; [reflexivity|].
  rewrite (proj1 (compositor_looks_where_registry_listed
                    Scenario.world (Scenario.app []) "NES") N eq_refl).
  reflexivity.
Defined.

Lemma scanned_refl (s : App) : scanned s s.
Proof.
  unfold scanned. repeat (split; [reflexivity|]).
  exists []. now rewrite app_nil_r.
Qed.

Lemma scanned_trans (a b c : App) : scanned a b -> scanned b c -> scanned a c.
Proof.
  intros (q1 & n1 & k1 & c1 & o1 & l1 & w1 & g1 & p1 & (t1 & e1))
         (q2 & n2 & k2 & c2 & o2 & l2 & w2 & g2 & p2 & (t2 & e2)).
  unfold scanned. repeat (split; [congruence|]).
  exists (t1 ++ t2)%list. rewrite e2, e1. now rewrite app_assoc.
Qed.

Lemma scanned_call (s : App) (e : event) : scanned s (set_trace (trace s ++ [e]) s).
Proof.
  unfold scanned. repeat (split; [reflexivity|]). exists [e]. reflexivity.
Qed.

Lemma scanned_print (line : string) : keeps scanned (print line).
Proof.
  intros s. unfold scanned. repeat (split; [reflexivity|]).
  exists []. simpl. now rewrite app_nil_r.
Qed.

Lemma console_names_scans (W : Outside) (folder : Path) (entries : list string) :
  keeps scanned (console_names W folder entries).
Proof.
  induction entries as [|entry rest IH]; cbn [console_names].
  - apply keeps_ret, scanned_refl.
  - unfold is_dir, exists_.
    apply (keeps_bind scanned scanned_trans);
      [apply keeps_external, scanned_call|intros d].
    apply (keeps_bind scanned scanned_trans).
    + destruct d; [apply keeps_external, scanned_call|apply keeps_ret, scanned_refl].
    + intros ok. apply (keeps_bind scanned scanned_trans); [exact IH|].
      intros names. apply keeps_ret, scanned_refl.
Qed.

Lemma get_available_consoles_scans (W : Outside) :
  keeps scanned (get_available_consoles W).
Proof.
  unfold get_available_consoles, exists_, iterdir.
  apply (keeps_bind scanned scanned_trans).
  - apply (keeps_try_except scanned scanned_trans).
    + apply (keeps_bind scanned scanned_trans);
        [apply keeps_gets, scanned_refl|intros folder].
      apply (keeps_bind scanned scanned_trans);
        [apply keeps_external, scanned_call|intros there].
      destruct there; [|apply keeps_ret, scanned_refl].
      apply (keeps_bind scanned scanned_trans);
        [apply keeps_external, scanned_call|intros entries].
      apply (keeps_bind scanned scanned_trans);
        [apply console_names_scans|intros consoles].
      destruct consoles; apply keeps_ret, scanned_refl.
    + intros e. apply (keeps_bind scanned scanned_trans).
      * apply scanned_print.
      * intros _. apply keeps_ret, scanned_refl.
  - intros [consoles|]; apply keeps_ret, scanned_refl.
Qed.

Lemma get_available_consoles_first_call (W : Outside) (s : App) :
  exists raised later,
    trace (snd (get_available_consoles W s))
    = (trace s ++ MkEvent (Path_exists (registry_folder W s)) raised :: later)%list.
Proof.
  unfold get_available_consoles, try_except, exists_, iterdir. run_m.
  destruct (fs_exists W (trace s) (registry_folder W s)) as [[]|e];
    cbn [is_raised]; try (eexists; exists []; reflexivity).
  set (s1 := set_trace _ s).
  destruct (fs_iterdir W (trace s1) (registry_folder W s)) as [entries|e];
    cbn [is_raised].
  2: { eexists. eexists. cbn [trace set_trace set_stdout]. unfold s1.
       cbn [trace set_trace]. rewrite <- app_assoc. reflexivity. }
  set (s2 := set_trace _ s1).
  pose proof (console_names_scans W (registry_folder W s) entries s2)
    as (_ & _ & _ & _ & _ & _ & _ & _ & _ & (t & T)).
  exists false, (MkEvent (Path_iterdir (registry_folder W s)) false :: t).
  assert (E : forall r s3,
             console_names W (registry_folder W s) entries s2 = (r, s3) ->
             trace s3
             = (trace s ++ MkEvent (Path_exists (registry_folder W s)) false
                  :: MkEvent (Path_iterdir (registry_folder W s)) false :: t)%list).
  { intros r s3 H. rewrite H in T. cbn [snd] in T. rewrite T.
    unfold s2, s1. cbn [trace set_trace]. now rewrite <- !app_assoc. }
  destruct (console_names W (registry_folder W s) entries s2) as [[names|e] s3] eqn:C.
  - destruct names; cbn [snd trace]; exact (E _ _ eq_refl).
  - cbn [snd trace set_stdout]. exact (E _ _ eq_refl).
Qed.

Lemma refresh_consoles_runs (W : Outside) (s : App) :
  exists values s1,
    get_available_consoles W s = (Returned values, s1)
    /\ values <> []
    /\ refresh_consoles W s
       = (Returned values,
          logged ("Found " ++ PyStr.of_nat (List.length values) ++ " consoles")
                 (if String.eqb (hd "" values) SENTINEL then s1
                  else set_console_spinner (hd "" values) s1)).
Proof.
  destruct (get_available_consoles_total W s) as (values & s1 & E & N).
  exists values, s1. split; [exact E|]. split; [exact N|].
  unfold refresh_consoles. unfold bind at 1. rewrite E.
  destruct values as [|first rest]; [congruence|]. cbn [hd].
  destruct (String.eqb first SENTINEL); reflexivity.
Qed.

(** X14.  [refresh_consoles] never raises.  The values it gives the
    spinner are what the registry lists, never an empty list.  When the
    first value is a console it becomes the selection; when it is the
    sentinel the selection stays as it was.  One line is logged, with the
    number of values, so that a folder without consoles is reported as one
    console found. *)
Theorem refresh_selects_first_console (W : Outside) (s : App) :
  exists values,
    fst (refresh_consoles W s) = Returned values
    /\ fst (get_available_consoles W s) = Returned values
    /\ values <> []
    /\ console_spinner (snd (refresh_consoles W s))
       = (if String.eqb (hd "" values) SENTINEL then console_spinner s
          else hd "" values)
    /\ log_label (snd (refresh_consoles W s))
       = log_label s ++ PyStr.nl ++ "Found " ++ PyStr.of_nat (List.length values)
           ++ " consoles"
    /\ (values = [SENTINEL] ->
        console_spinner (snd (refresh_consoles W s)) = console_spinner s
        /\ log_label (snd (refresh_consoles W s))
           = log_label s ++ PyStr.nl ++ "Found 1 consoles")
    /\ game_queue (snd (refresh_consoles W s)) = game_queue s
    /\ overlays_path_input (snd (refresh_consoles W s)) = overlays_path_input s.
Proof.
  destruct (refresh_consoles_runs W s) as (values & s1 & E & N & R).
  pose proof (get_available_consoles_scans W s)
    as (Q & _ & _ & C & O & _ & _ & L & _).
  rewrite E in Q, C, O, L. cbn [snd] in Q, C, O, L.
  exists values. rewrite R, E. cbn [fst snd].
  assert (Hc : console_spinner
                 (logged ("Found " ++ PyStr.of_nat (List.length values) ++ " consoles")
                    (if String.eqb (hd "" values) SENTINEL then s1
                     else set_console_spinner (hd "" values) s1))
               = if String.eqb (hd "" values) SENTINEL then console_spinner s
                 else hd "" values).
  { destruct (String.eqb (hd "" values) SENTINEL); [exact C|reflexivity]. }
  assert (Hl : log_label
                 (logged ("Found " ++ PyStr.of_nat (List.length values) ++ " consoles")
                    (if String.eqb (hd "" values) SENTINEL then s1
                     else set_console_spinner (hd "" values) s1))
               = log_label s ++ PyStr.nl ++ "Found "
                   ++ PyStr.of_nat (List.length values) ++ " consoles").
  { unfold logged. cbn [log_label set_log_label].
    destruct (String.eqb (hd "" values) SENTINEL);
      cbn [log_label set_console_spinner]; now rewrite L. }
  split; [reflexivity|]. split; [reflexivity|]. split; [exact N|].
  split; [exact Hc|]. split; [exact Hl|]. split; [|split].
  - intros V. rewrite Hc, Hl, V. split; reflexivity.
  - unfold logged. cbn [game_queue set_log_label].
    destruct (String.eqb (hd "" values) SENTINEL); exact Q.
  - unfold logged. cbn [overlays_path_input set_log_label].
    destruct (String.eqb (hd "" values) SENTINEL); exact O.
Qed.

Lemma refresh_consoles_scan (W : Outside) (s : App) :
  exists values,
    fst (refresh_consoles W s) = Returned values
    /\ values <> []
    /\ overlays_path_input (snd (refresh_consoles W s)) = overlays_path_input s
    /\ exists raised later,
        trace (snd (refresh_consoles W s))
        = (trace s ++ MkEvent (Path_exists (registry_folder W s)) raised
             :: later)%list.
Proof.
  destruct (refresh_consoles_runs W s) as (values & s1 & E & N & R).
  pose proof (get_available_consoles_scans W s) as (_ & _ & _ & _ & O & _).
  destruct (get_available_consoles_first_call W s) as (raised & later & T).
  rewrite E in O, T. cbn [snd] in O, T.
  exists values. rewrite R. cbn [fst snd]. split; [reflexivity|].
  split; [exact N|]. unfold logged. cbn [overlays_path_input trace set_log_label].
  split.
  - destruct (String.eqb (hd "" values) SENTINEL); exact O.
  - exists raised, later.
    destruct (String.eqb (hd "" values) SENTINEL); exact T.
Qed.

(** X15.  The select button of the folder browser does nothing when no
    folder is selected.  Otherwise the first selected folder, and only it,
    becomes the overlays folder: the refresh that follows starts by testing
    that folder, and the compositor will look for overlays under it.
    The handler never raises. *)
Theorem select_folder_sets_the_overlays_folder (W : Outside) (s : App) :
  select_folder W [] s = (Returned None, s)
  /\ forall path others,
      path <> "" ->
      exists values raised later,
        fst (select_folder W (path :: others) s) = Returned (Some values)
        /\ values <> []
        /\ overlays_path_input (snd (select_folder W (path :: others) s))
           = Some path
        /\ compositor_folder W (snd (select_folder W (path :: others) s))
           = Pathlib.of_str path
        /\ trace (snd (select_folder W (path :: others) s))
           = (trace s ++ MkEvent (Path_exists (Pathlib.of_str path)) raised
                :: later)%list.
Proof.
  split; [reflexivity|]. intros path others P.
  set (s0 := logged ("Selected: " ++ path)
                    (set_overlays_path_input (Some path) s)).
  assert (E : select_folder W (path :: others) s
              = bind (refresh_consoles W) (fun values => ret (Some values)) s0)
    by reflexivity.
  destruct (refresh_consoles_scan W s0) as (values & R & N & O & raised & later & T).
  exists values, raised, later. rewrite E, (bind_fst _ _ _ _ R).
  cbn [ret fst snd]. split; [reflexivity|]. split; [exact N|].
  split; [exact O|]. split.
  - unfold compositor_folder. now rewrite O.
  - rewrite T. unfold s0, logged, registry_folder.
    cbn [trace overlays_path_input set_log_label set_overlays_path_input].
    destruct path; [congruence|reflexivity].
Qed.

Lemma select_folder_sets_the_overlays_folder_witness :
  let path := "/sdcard/SteamGridOverlay/icon_overlays" in
  path <> ""
  /\ exists values raised later,
      fst (select_folder Scenario.world [path; "/other"] (Scenario.app []))
      = Returned (Some values)
      /\ values <> []
      /\ trace (snd (select_folder Scenario.world [path; "/other"] (Scenario.app [])))
         = MkEvent (Path_exists (Pathlib.of_str path)) raised :: later.
Proof.
  intros path. assert (P : path <> "") by discriminate. split; [exact P|].
  destruct (proj2 (select_folder_sets_the_overlays_folder Scenario.world
                     (Scenario.app [])) path ["/other"] P)
    as (values & raised & later & R & N & _ & _ & T).
  exists values, raised, later. split; [exact R|]. split; [exact N|exact T].
Defined.

(** ** The settings *)

(** X16.  [load_config] never raises and leaves the state alone.  It
    gives the empty configuration when the file is missing or cannot be
    read or decoded, and otherwise whatever JSON value the file holds,
    object or not. *)
Theorem load_config_falls_back_to_empty (C : ConfigStore) (s : App) :
  exists config,
    load_config C s = (Returned config, s)
    /\ (config_exists C = false -> config = JObj [])
    /\ (forall e, config_load C = Raised e -> config = JObj [])
    /\ (forall loaded, config_exists C = true ->
                       config_load C = Returned loaded -> config = loaded).
Proof.
  unfold load_config, try_except. run_m.
  destruct (config_exists C); [|exists (JObj []); repeat split; congruence].
  destruct (config_load C) as [loaded|e].
  - exists loaded. repeat split; congruence.
  - exists (JObj []). repeat split; congruence.
Qed.

Lemma load_config_falls_back_to_empty_witness :
  config_exists (store_with (JArr [JInt 1])) = true
  /\ load_config (store_with (JArr [JInt 1])) (Scenario.app [])
     = (Returned (JArr [JInt 1]), Scenario.app [])
  /\ load_config store_read_only (Scenario.app [])
     = (Returned (JObj []), Scenario.app []).
Proof.
  split; [reflexivity|]. split.
  - destruct (load_config_falls_back_to_empty (store_with (JArr [JInt 1]))
                                              (Scenario.app []))
      as (config & E & _ & _ & L).
    rewrite E. now rewrite (L (JArr [JInt 1]) eq_refl eq_refl).
  - reflexivity.
Defined.

(** X17.  Once the inputs are built, [save_settings] never raises: a
    failure to create the directory or to write the file ends in an error
    line and an error popup that carry the message of the exception, a
    success in the success line and popup; either way it is one line, one
    popup, and nothing else of the state changes.  The configuration it
    builds holds the credential and the overlays folder stripped, the
    selected console as it is, and always the default output folder; its
    credential is the one the lookups send as bearer token. *)
Theorem save_settings_reports_once (W : Outside) (C : ConfigStore) (s : App)
        (text : string) :
  overlays_path_input s = Some text ->
  let config := settings_of W (api_key_input s) (console_spinner s) text in
  (exists line message,
      save_settings W C s = (Returned config, popup message (logged line s))
      /\ (config_makedirs C = Returned tt -> config_dump C config = Returned tt ->
          line = Glyph.tick ++ " Settings saved!"
          /\ message = ("Success", "Settings saved successfully!"))
      /\ (forall e,
            config_makedirs C = Raised e
            \/ (config_makedirs C = Returned tt /\ config_dump C config = Raised e) ->
            line = Glyph.cross ++ " Error saving settings: " ++ exn_str e
            /\ message = ("Error", "Failed to save settings: " ++ exn_str e)))
  /\ Py.getitem config "output_folder"
     = Returned (JStr (Pathlib.to_str (DEFAULT_OUTPUT W)))
  /\ (exists key,
         Py.getitem config "api_key" = Returned (JStr key)
         /\ bearer s = [("Authorization", "Bearer " ++ key)]).
Proof.
  intros O config. split; [|split].
  - unfold save_settings, try_except. run_m. rewrite O. fold config.
    destruct (config_makedirs C) as [[]|e1].
    + destruct (config_dump C config) as [[]|e2].
      * eexists. eexists. split; [reflexivity|]. split; [auto|].
        intros e [F|[_ F]]; discriminate.
      * eexists. eexists. split; [reflexivity|]. split; [discriminate|].
        intros e [F|[_ F]]; [discriminate|]. injection F as <-. auto.
    + eexists. eexists. split; [reflexivity|]. split; [discriminate|].
      intros e [F|[F _]]; [|discriminate]. injection F as <-. auto.
  - reflexivity.
  - exists (PyStr.strip (api_key_input s)). split; reflexivity.
Qed.

Lemma save_settings_reports_once_witness :
  let s := Scenario.app [] in
  overlays_path_input s = Some "/sdcard/SteamGridOverlay/icon_overlays"
  /\ popups (snd (save_settings Scenario.world store_read_only s))
     = [("Error", "Failed to save settings: [Errno 13] Permission denied")]
  /\ popups (snd (save_settings Scenario.world (store_with JNull) s))
     = [("Success", "Settings saved successfully!")].
Proof.
  intros s. split; [reflexivity|].
  destruct (proj1 (save_settings_reports_once Scenario.world store_read_only s
                     "/sdcard/SteamGridOverlay/icon_overlays" eq_refl))
    as (line & message & E & _ & F).
  rewrite E. cbn [snd]. unfold popup. cbn [popups set_popups].
  destruct (F (Exn "PermissionError" "[Errno 13] Permission denied")
              (or_intror (conj eq_refl eq_refl))) as [_ ->].
  split; reflexivity.
Defined.

(** ** Records with missing fields *)

Section MissingFields.

Variable W : Outside.
Variable game_name : string.
Variable s : App.
Variable results : json.
Hypothesis searched : fst (search_game W game_name s) = Returned results.
Hypothesis some_result : Py.truthy results = true.

(** X18.  A search result that cannot be used is an error of the item,
    not of the run: the item ends normally with the line [Error:] and the
    message of the exception.  When the results cannot be indexed the
    line comes right after the search (for results that are an object
    the message is [0]); when the first record has no name the message is
    ['name'], right after the search; when it has no identifier the
    message is ['id'], after the match is logged; when the first icon has
    no address the message is ['url'], after the download is announced,
    and the search and the listing are the only calls made: no download
    is attempted. *)
Theorem unusable_record_is_an_error :
  (forall e,
      Py.getitem0 results = Raised e ->
      process_single_game W game_name s
      = (Returned tt,
         logged (ERROR (exn_str e)) (snd (search_game W game_name s))))
  /\ (forall fields,
        results = JObj fields ->
        process_single_game W game_name s
        = (Returned tt, logged (ERROR "0") (snd (search_game W game_name s))))
  /\ (forall fields others,
        results = JArr (JObj fields :: others) ->
        Py.lookup "name" fields = None ->
        process_single_game W game_name s
        = (Returned tt,
           logged (ERROR "'name'") (snd (search_game W game_name s))))
  /\ (forall fields others found,
        results = JArr (JObj fields :: others) ->
        Py.lookup "name" fields = Some found ->
        Py.lookup "id" fields = None ->
        process_single_game W game_name s
        = (Returned tt,
           logged (ERROR "'id'")
                  (logged (FOUND (format W found))
                          (snd (search_game W game_name s)))))
  /\ (forall fields others found game_id icon_fields more,
        results = JArr (JObj fields :: others) ->
        Py.lookup "name" fields = Some found ->
        Py.lookup "id" fields = Some game_id ->
        fst (get_game_icons W game_id (at_listing W game_name found s))
        = Returned (JObj icon_fields :: more) ->
        Py.lookup "url" icon_fields = None ->
        process_single_game W game_name s
        = (Returned tt,
           logged (ERROR "'url'") (at_download W game_name found game_id s))
        /\ exists raised1 raised2,
            trace (snd (process_single_game W game_name s))
            = (trace s ++ [MkEvent (search_call game_name s) raised1;
                           MkEvent (icons_call W game_id s) raised2])%list).
Proof.
  split; [|split; [|split; [|split]]].
  - intros e H. rewrite process_single_game_caught. unfold process_single_game_body.
    rewrite (bind_fst _ _ _ _ searched), some_result. cbn [negb].
    rewrite H. reflexivity.
  - intros fields ->. rewrite process_single_game_caught.
    unfold process_single_game_body.
    rewrite (bind_fst _ _ _ _ searched), some_result. reflexivity.
  - intros fields others -> N. rewrite process_single_game_caught.
    unfold process_single_game_body.
    rewrite (bind_fst _ _ _ _ searched), some_result. cbn [negb Py.getitem0].
    rewrite bind_lift. cbn [Py.getitem]. rewrite N. reflexivity.
  - intros fields others found -> N I. rewrite process_single_game_caught.
    unfold process_single_game_body.
    rewrite (bind_fst _ _ _ _ searched), some_result. cbn [negb Py.getitem0].
    rewrite bind_lift. cbn [Py.getitem]. rewrite N, bind_lift, bind_log, I.
    reflexivity.
  - intros fields others found game_id icon_fields more -> N I L U.
    assert (E : process_single_game W game_name s
                = (Returned tt,
                   logged (ERROR "'url'") (at_download W game_name found game_id s))).
    { rewrite process_single_game_caught.
      rewrite (body_after_search W game_name s _ searched (JObj fields) found game_id
                                 some_result eq_refl).
      - rewrite (bind_fst _ _ _ _ L), bind_log. cbn [Py.getitem]. rewrite U.
        reflexivity.
      - cbn [Py.getitem]. now rewrite N.
      - cbn [Py.getitem]. now rewrite I. }
    split; [exact E|]. rewrite E.
    destruct (search_game_trace W game_name s) as (raised1 & T1).
    destruct (get_game_icons_trace W game_id (at_listing W game_name found s))
      as (raised2 & T2).
    exists raised1, raised2.
    unfold at_download, logged at 1 2. cbn [snd trace set_log_label].
    rewrite T2. unfold at_listing, logged at 1. cbn [trace set_log_label].
    rewrite T1, <- app_assoc. cbn [app].
    replace (icons_call W game_id
               (logged (FOUND (format W found)) (snd (search_game W game_name s))))
      with (icons_call W game_id s); [reflexivity|].
    unfold icons_call, logged. cbn [api_key_input set_log_label].
    pose proof (steady_search_game W game_name s) as (_ & K & _).
    rewrite K. reflexivity.
Qed.

End MissingFields.

Lemma unusable_record_is_an_error_witness :
  let s := Scenario.app ["Odd"] in
  fst (search_game Scenario.world "Odd" s)
  = Returned (JArr [JObj [("id", JInt 7)]])
  /\ Py.lookup "name" [("id", JInt 7)] = None
  /\ log_label (snd (process_single_game Scenario.world "Odd" s))
     = "Ready!" ++ PyStr.nl ++ ERROR "'name'".
Proof.
  intros s. split; [reflexivity|]. split; [reflexivity|].
  rewrite (proj1 (proj2 (proj2 (unusable_record_is_an_error Scenario.world "Odd" s
                                  (JArr [JObj [("id", JInt 7)]]) eq_refl eq_refl)))
                 [("id", JInt 7)] [] eq_refl eq_refl).
  reflexivity.
Defined.

Lemma download_image_collapses_failures_witness :
  fst (download_image Scenario.world (JStr "https://cdn.example/b.png")
                      (Scenario.app []))
  = Returned (Some (PIL.Convert (PIL.Raster 1 "RGB" (1024, 1024)%Z) "RGBA"))
  /\ trace (snd (download_image Scenario.world (JInt 7) (Scenario.app [])))
     = [MkEvent (requests_get "7" [] [] 15) true].
Proof.
  split.
  - destruct (download_image_collapses_failures
                Scenario.world (JStr "https://cdn.example/b.png") (Scenario.app []))
      as (result & raised & E & _ & I & _).
    rewrite E. cbn [fst]. f_equal.
    apply (proj2 (I (PIL.Convert (PIL.Raster 1 "RGB" (1024, 1024)%Z) "RGBA"))).
    exists (MkResponse 200 "raw-png-bytes" None),
           (PIL.Raster 1 "RGB" (1024, 1024)%Z).
    split; [reflexivity|]. split; [simpl; lia|]. split; reflexivity.
  - destruct (download_image_collapses_failures
                Scenario.world (JInt 7) (Scenario.app []))
      as (result & raised & E & _).
    assert (R : raised = true).
    { assert (T : trace (snd (download_image Scenario.world (JInt 7)
                                             (Scenario.app [])))
                  = [MkEvent (requests_get "7" [] [] 15) true]) by reflexivity.
      rewrite E in T. cbn in T. now injection T. }
    rewrite E, R. reflexivity.
Defined.

Lemma refresh_selects_first_console_witness :
  let nowhere := set_overlays_path_input (Some "/nowhere") (Scenario.app []) in
  fst (refresh_consoles Scenario.world nowhere) = Returned [SENTINEL]
  /\ console_spinner (snd (refresh_consoles Scenario.world nowhere)) = "NES"
  /\ log_label (snd (refresh_consoles Scenario.world nowhere))
     = "Ready!" ++ PyStr.nl ++ "Found 1 consoles"
  /\ console_spinner
       (snd (refresh_consoles Scenario.world
                              (set_console_spinner "Select Console" (Scenario.app []))))
     = "NES".
Proof.
  intros nowhere.
  destruct (refresh_selects_first_console Scenario.world nowhere)
    as (values & R & G & _ & _ & _ & S & _).
  assert (V : values = [SENTINEL]).
  { assert (F : fst (get_available_consoles Scenario.world nowhere)
                = Returned [SENTINEL]) by reflexivity.
    rewrite G in F. now injection F. }
  destruct (S V) as [Sc Sl]. rewrite R, V.
  split; [reflexivity|]. split; [exact Sc|]. split; [exact Sl|]. reflexivity.
Defined.
